(** * A content-addressable OCI layout store: model and verification

    The development embeds the Go sources of the store

      - [pkg/store] [OCI]    : the content store (index, name map, blobs,
                               resolve/fetch/push adapter, ingestion);
      - [pkg/store] [Layout] : the layout wrapper (ingestion pipeline, flush);

    as functions over an explicit state: a file-system tree, the fields of
    the store object and a chronological log of the system calls performed.
    Go's multiple results [(v, err)] are pairs whose error component is an
    [option error] ([None] is [nil]); a run-time panic is a separate
    outcome of the monad.

    What the model takes from the libraries that the store calls:

      - the file system is a tree of directories and regular files, with
        no permissions and no resource limits; paths are lists of
        components from the origin, and [filepath.Join] cleans them;
      - an index document on disk is recorded by the value that
        [encoding/json] decodes it to;
      - [sync.Map.Range] enumerates in an order of which only is known
        that it lists every entry once (class [RangeOrder]);
      - the functions launched on an [errgroup.Group] run one after the
        other, each to its end, in the order of their launch;
      - the annotations of a descriptor are a Go map, which is shared by
        the copies of the descriptor; two entries of the name map do not
        share one map;
      - a method called on a nil [*os.File] returns [os.ErrInvalid], and a
        method called on a nil interface panics;
      - the Go map of a collection is given by its entries in the order
        in which [range] visits them, and [oras.Copy] is a parameter. *)

From Stdlib Require Import ZArith Ascii String List.
From Stdlib.Strings Require Import Byte.
From stdpp Require Import gmap strings list fin_maps.

Local Open Scope string_scope.
Local Open Scope list_scope.

(** ** SHA-256, as used by [digest.FromBytes] (FIPS 180-4) *)

Module SHA256.
Local Open Scope Z_scope.

Definition wrap (x : Z) : Z := x mod 2 ^ 32.
Definition add32 (x y : Z) : Z := wrap (x + y).
Definition rotr (n x : Z) : Z :=
  wrap (Z.lor (Z.shiftr x n) (Z.shiftl x (32 - n))).
Definition shr (n x : Z) : Z := Z.shiftr x n.
Definition not32 (x : Z) : Z := Z.lxor x (2 ^ 32 - 1).

Definition ch (x y z : Z) : Z := Z.lxor (Z.land x y) (Z.land (not32 x) z).
Definition maj (x y z : Z) : Z :=
  Z.lxor (Z.lxor (Z.land x y) (Z.land x z)) (Z.land y z).
Definition bsig0 (x : Z) : Z := Z.lxor (Z.lxor (rotr 2 x) (rotr 13 x)) (rotr 22 x).
Definition bsig1 (x : Z) : Z := Z.lxor (Z.lxor (rotr 6 x) (rotr 11 x)) (rotr 25 x).
Definition ssig0 (x : Z) : Z := Z.lxor (Z.lxor (rotr 7 x) (rotr 18 x)) (shr 3 x).
Definition ssig1 (x : Z) : Z := Z.lxor (Z.lxor (rotr 17 x) (rotr 19 x)) (shr 10 x).

(** The round constants are the first 32 fractional bits of the cube
    roots of the first 64 primes, the initial state those of the square
    roots of the first 8. *)
Definition primes : list Z :=
  [2; 3; 5; 7; 11; 13; 17; 19; 23; 29; 31; 37; 41; 43; 47; 53; 59; 61; 67;
   71; 73; 79; 83; 89; 97; 101; 103; 107; 109; 113; 127; 131; 137; 139;
   149; 151; 157; 163; 167; 173; 179; 181; 191; 193; 197; 199; 211; 223;
   227; 229; 233; 239; 241; 251; 257; 263; 269; 271; 277; 281; 283; 293;
   307; 311].

Fixpoint cuberoot (bits : nat) (n r : Z) : Z :=
  match bits with
  | O => r
  | S b =>
      let c := r + 2 ^ Z.of_nat b in
      cuberoot b n (if c * c * c <=? n then c else r)
  end.

Definition roundConstants : list Z :=
  Eval vm_compute in
    List.map (fun p => wrap (cuberoot 40 (p * 2 ^ 96) 0)) primes.

Definition initialState : list Z :=
  Eval vm_compute in
    List.map (fun p => wrap (Z.sqrt (p * 2 ^ 64))) (firstn 8 primes).

(** Padding: a 1 bit, zero bits up to 56 mod 64 bytes, the bit length on
    8 bytes, big endian. *)
Fixpoint bigEndian (n : nat) (x : Z) : list Z :=
  match n with
  | O => []
  | S m => (x / 256 ^ Z.of_nat m) mod 256 :: bigEndian m x
  end.

Definition pad (msg : list Z) : list Z :=
  let len := Z.of_nat (length msg) in
  msg ++ [128] ++ repeat 0 (Z.to_nat ((55 - len) mod 64))
      ++ bigEndian 8 (8 * len).

Fixpoint words (fuel : nat) (bs : list Z) : list Z :=
  match fuel, bs with
  | S f, a :: b :: c :: d :: rest =>
      (((a * 256 + b) * 256 + c) * 256 + d) :: words f rest
  | _, _ => []
  end.

(** The message schedule, most recent word first. *)
Fixpoint schedule (n : nat) (rw : list Z) : list Z :=
  match n with
  | O => rw
  | S m =>
      let w :=
        add32 (add32 (ssig1 (nth 1 rw 0)) (nth 6 rw 0))
              (add32 (ssig0 (nth 14 rw 0)) (nth 15 rw 0)) in
      schedule m (w :: rw)
  end.

Definition round (st : list Z) (kw : Z * Z) : list Z :=
  match st with
  | [a; b; c; d; e; f; g; h] =>
      let t1 := add32 (add32 (add32 h (bsig1 e)) (add32 (ch e f g) kw.1)) kw.2 in
      let t2 := add32 (bsig0 a) (maj a b c) in
      [add32 t1 t2; a; b; c; add32 d t1; e; f; g]
  | _ => st
  end.

Definition compress (st : list Z) (block : list Z) : list Z :=
  let w := rev (schedule 48 (rev block)) in
  let st' := fold_left round (combine roundConstants w) st in
  List.map (fun p => add32 p.1 p.2) (combine st st').

Fixpoint blocks (fuel : nat) (ws : list Z) (st : list Z) : list Z :=
  match fuel, ws with
  | S f, _ :: _ => blocks f (skipn 16 ws) (compress st (firstn 16 ws))
  | _, _ => st
  end.

Definition digestWords (msg : list byte) : list Z :=
  let bs := pad (List.map (fun b => Z.of_N (Byte.to_N b)) msg) in
  let ws := words (length bs) bs in
  blocks (length ws) ws initialState.

Definition hexDigit (n : Z) : ascii :=
  nth (Z.to_nat n) (list_ascii_of_string "0123456789abcdef") "0"%char.

Fixpoint hexWord (n : nat) (x : Z) : string :=
  match n with
  | O => EmptyString
  | S m => String (hexDigit ((x / 16 ^ Z.of_nat m) mod 16)) (hexWord m x)
  end.

Definition hex (msg : list byte) : string :=
  fold_right (fun w acc => String.append (hexWord 8 w) acc) EmptyString
    (digestWords msg).
End SHA256.

(** ** Errors and results

    Go's [error] values.  [None : option error] is [nil]. *)

Inductive error : Type :=
| ErrNotExist                (* ENOENT, [os.ErrNotExist] *)
| ErrExist                   (* EEXIST, [os.ErrExist] *)
| ErrNotDir                  (* ENOTDIR *)
| ErrIsDir                   (* EISDIR *)
| ErrInvalid                 (* [os.ErrInvalid]: method called on a nil [*os.File] *)
| ErrSyntax                  (* the JSON decoder rejected its input *)
| ErrDigestMismatch          (* written bytes do not hash to the expected digest *)
| ErrOther (msg : string).   (* an error supplied by a collaborator *)

Definition os_IsNotExist (e : error) : bool :=
  match e with ErrNotExist => true | _ => false end.

Definition os_IsExist (e : error) : bool :=
  match e with ErrExist => true | _ => false end.

(** The result of a collaborator's method [(v, err)]. *)
Inductive result (A : Type) : Type :=
| Ok (a : A)
| Err (e : error).
Arguments Ok {A} a.
Arguments Err {A} e.

(** ** Data model *)

(** [digest.Digest] is a string [algorithm:hex]. *)
Module digest.
(** [sepIndex]: the text before and after the first [':'], if any. *)
Fixpoint split (d : string) : option (string * string) :=
  match d with
  | EmptyString => None
  | String c rest =>
      if Ascii.eqb c ":"%char then Some (EmptyString, rest)
      else match split rest with
           | Some (alg, hex) => Some (String c alg, hex)
           | None => None
           end
  end.

Definition FromBytes (p : list byte) : string :=
  String.append "sha256:" (SHA256.hex p).
End digest.

Module ocispec.
Definition AnnotationRefName : string := "org.opencontainers.image.ref.name".
Definition MediaTypeImageManifest : string :=
  "application/vnd.oci.image.manifest.v1+json".
Definition MediaTypeImageIndex : string :=
  "application/vnd.oci.image.index.v1+json".

Record Platform : Type := mkPlatform {
  Architecture : string;
  OS : string;
  OSVersion : string;
  OSFeatures : list string;
  Variant : string
}.

(** [Annotations] is a Go map: [None] is the nil map. *)
Record Descriptor : Type := mkDescriptor {
  MediaType : string;
  Digest : string;
  Size : Z;
  URLs : list string;
  Annotations : option (gmap string string);
  platform : option Platform
}.

(** [ocispec.Descriptor{}] *)
Definition zero : Descriptor := mkDescriptor "" "" 0 [] None None.

Record Index : Type := mkIndex {
  SchemaVersion : Z;
  Manifests : list Descriptor;
  IndexAnnotations : option (gmap string string)
}.

(** [desc.Annotations[k]]: reading a missing key or a nil map gives [""]. *)
Definition annotation (k : string) (d : Descriptor) : string :=
  match Annotations d with
  | Some m => default "" (m !! k)
  | None => ""
  end.
End ocispec.

Module consts.
(** Modelled from the spec: package [consts] is not among the sources;
    the persisted index document is [index.json] under the store root. *)
Definition OCIImageIndexFile : string := "index.json".

(** Modelled from the spec: package [consts] is not among the sources;
    the third media type that identifies a root manifest is Docker's
    schema 2 manifest type. *)
Definition DockerManifestSchema2 : string :=
  "application/vnd.docker.distribution.manifest.v2+json".
End consts.

(** The collaborators of the ingestion: a logical artifact and its layers. *)
Module v1.
Record Hash : Type := mkHash { Algorithm : string; Hex : string }.

(** An [io.ReadCloser]: the bytes it still has to deliver and the error,
    if any, that it reports instead of end of file. *)
Record Reader : Type := mkReader {
  pending : list byte;
  failure : option error
}.

Record Layer : Type := mkLayer {
  Digest : result Hash;
  Compressed : result Reader
}.

(** A manifest is used through its media type and [json.Marshal]. *)
Record Manifest : Type := mkManifest {
  MediaType : string;
  Marshal : result (list byte)
}.
End v1.

Module artifact.
Record OCI : Type := mkOCI {
  Layers : result (list v1.Layer);
  RawConfig : result (list byte);
  Manifest : result v1.Manifest
}.

(** [Contents] yields a Go map from reference to artifact; it is given by
    its entries in the order in which [range] visits them. *)
Record OCICollection : Type := mkOCICollection {
  Contents : result (list (string * OCI))
}.
End artifact.

(** ** Paths

    A path is the list of its components below the file-system origin.
    [filepath.Join] joins its elements with the separator and cleans the
    result: empty and ["."] components vanish, [".."] removes the component
    before it.  Paths are taken from the origin, where [".."] has no
    effect. *)

Definition Path : Type := list string.

Fixpoint splitSlash (cur : string) (s : string) : list string :=
  match s with
  | EmptyString => [cur]
  | String c rest =>
      if Ascii.eqb c "/"%char then cur :: splitSlash EmptyString rest
      else splitSlash (String.append cur (String c EmptyString)) rest
  end.

Definition cleanStep (acc : Path) (c : string) : Path :=
  if String.eqb c "" || String.eqb c "." then acc
  else if String.eqb c ".." then removelast acc
  else acc ++ [c].

(** Joining onto a path that is already clean. *)
Definition joinOnto (base : Path) (elem : list string) : Path :=
  fold_left cleanStep (flat_map (splitSlash EmptyString) elem) base.

Definition filepath_Join (elem : list string) : Path := joinOnto [] elem.

(** ** The file system

    A tree of directories and regular files, without permissions or
    resource limits.  A regular file holds raw bytes, or a well-formed
    index document, which is recorded by the value that [encoding/json]
    decodes it to (and [json.Marshal] of that value writes). *)

Inductive content : Type :=
| Raw (bytes : list byte)
| IndexDoc (doc : ocispec.Index).

Inductive node : Type :=
| Dir
| File (c : content).

Abbreviation FS := (gmap (list string) node).

(** The origin is a directory. *)
Definition nodeAt (d : FS) (p : Path) : option node :=
  match p with
  | [] => Some Dir
  | _ => d !! p
  end.

Definition isFile (o : option node) : bool :=
  match o with Some (File _) => true | _ => false end.

Definition parent (p : Path) : Path := removelast p.

(** The proper, non-empty prefixes of a path. *)
Definition ancestors (p : Path) : list Path :=
  List.map (fun n => take n p) (seq 1 (length p - 1)).

(** The error of looking up a path that does not exist. *)
Definition missingError (d : FS) (p : Path) : error :=
  if existsb (fun q => isFile (nodeAt d q)) (ancestors p)
  then ErrNotDir else ErrNotExist.

(** [creat]/[open(O_CREATE|O_TRUNC)] of [p] with content [c]. *)
Definition createFile (d : FS) (p : Path) (c : content) : FS + error :=
  match nodeAt d p with
  | Some Dir => inr ErrIsDir
  | Some (File _) => inl (<[p := File c]> d)
  | None =>
      match nodeAt d (parent p) with
      | Some Dir => inl (<[p := File c]> d)
      | _ => inr (missingError d p)
      end
  end.

(** [os.Mkdir], followed by the check of [os.MkdirAll] that accepts an
    existing directory. *)
Definition mkdir (d : FS) (p : Path) : FS + error :=
  match nodeAt d p with
  | Some Dir => inl d
  | Some (File _) => inr ErrExist
  | None =>
      match nodeAt d (parent p) with
      | Some Dir => inl (<[p := Dir]> d)
      | _ => inr (missingError d p)
      end
  end.

(** [os.MkdirAll], on the reversed path: succeed at once on a directory,
    fail on a file, otherwise make the parent and then the directory. *)
Fixpoint mkdirAll (rp : list string) (d : FS) : FS + error :=
  match nodeAt d (rev rp) with
  | Some Dir => inl d
  | Some (File _) => inr ErrNotDir
  | None =>
      match rp with
      | [] => inl d
      | _ :: rparent =>
          match mkdirAll rparent d with
          | inl d' => mkdir d' (rev rp)
          | inr e => inr e
          end
      end
  end.

(** [os.RemoveAll]: the path and everything below it. *)
Definition removeAll (d : FS) (p : Path) : FS :=
  filter (fun kv => ¬ p `prefix_of` kv.1) d.

(** ** State and effects *)

(** What the program does to its environment, in the order it does it:
    the system calls, the stores into the name map and the return of
    [errgroup.Group.Wait]. *)
Inductive Event : Type :=
| EvMkdirAll (p : Path)
| EvStat (p : Path)
| EvCreate (p : Path)
| EvWrite (p : Path) (n : nat)
| EvOpen (p : Path)
| EvRead (p : Path)
| EvWriteFile (p : Path)
| EvRemoveAll (p : Path)
| EvStore (name : string)
| EvWait.

(** The state: the disk, the log, and the fields of the one [OCI] store
    object ([index] is a pointer, nil until the index is loaded; [nameMap]
    is the [sync.Map]). *)
Record St : Type := mkSt {
  disk : FS;
  log : list Event;
  root : string;
  index : option ocispec.Index;
  nameMap : gmap string ocispec.Descriptor
}.

Definition withDisk (d : FS) (s : St) : St :=
  mkSt d (log s) (root s) (index s) (nameMap s).
Definition withLog (l : list Event) (s : St) : St :=
  mkSt (disk s) l (root s) (index s) (nameMap s).
Definition withIndex (i : option ocispec.Index) (s : St) : St :=
  mkSt (disk s) (log s) (root s) i (nameMap s).
Definition withNameMap (m : gmap string ocispec.Descriptor) (s : St) : St :=
  mkSt (disk s) (log s) (root s) (index s) m.

Inductive outcome (A : Type) : Type :=
| Ret (a : A) (s : St)
| Panic (msg : string) (s : St).
Arguments Ret {A} a s.
Arguments Panic {A} msg s.

Definition M (A : Type) : Type := St -> outcome A.

Definition ret {A} (a : A) : M A := fun s => Ret a s.

Definition bind {A B} (m : M A) (k : A -> M B) : M B :=
  fun s =>
    match m s with
    | Ret a s' => k a s'
    | Panic msg s' => Panic msg s'
    end.

Definition panic {A} (msg : string) : M A := fun s => Panic msg s.

Notation "'let*' x ':=' m 'in' k" := (bind m (fun x => k))
  (at level 10, x name, m at level 100, k at level 200).
Notation "m1 ';;' m2" := (bind m1 (fun _ => m2))
  (at level 100, m2 at level 200, right associativity).

Definition gets {A} (f : St -> A) : M A := fun s => Ret (f s) s.
Definition modify (f : St -> St) : M unit := fun s => Ret tt (f s).

(** The state in which a run ends. *)
Definition final {A} (o : outcome A) : St :=
  match o with Ret _ s => s | Panic _ s => s end.

(** What a run returns, if it returns. *)
Definition returned {A} (o : outcome A) : option A :=
  match o with Ret a _ => Some a | Panic _ _ => None end.

Definition panicked {A} (o : outcome A) : bool :=
  match o with Ret _ _ => false | Panic _ _ => true end.

Definition emit (e : Event) : M unit :=
  modify (fun s => withLog (log s ++ [e]) s).

(** *** System calls *)

(** [os.Stat]: only the error is looked at. *)
Definition os_Stat (p : Path) : M (option error) :=
  emit (EvStat p);;
  let* d := gets disk in
  match nodeAt d p with
  | Some _ => ret None
  | None => ret (Some (missingError d p))
  end.

Definition os_MkdirAll (p : Path) : M (option error) :=
  emit (EvMkdirAll p);;
  let* d := gets disk in
  match mkdirAll (rev p) d with
  | inl d' => modify (withDisk d');; ret None
  | inr e => ret (Some e)
  end.

(** An [*os.File] is the path it was opened on; [None] is the nil pointer. *)
Definition os_Create (p : Path) : M (result Path) :=
  emit (EvCreate p);;
  let* d := gets disk in
  match createFile d p (Raw []) with
  | inl d' => modify (withDisk d');; ret (Ok p)
  | inr e => ret (Err e)
  end.

Definition os_Open (p : Path) : M (result Path) :=
  emit (EvOpen p);;
  let* d := gets disk in
  match nodeAt d p with
  | Some _ => ret (Ok p)
  | None => ret (Err (missingError d p))
  end.

Definition os_WriteFile (p : Path) (c : content) : M (option error) :=
  emit (EvWriteFile p);;
  let* d := gets disk in
  match createFile d p c with
  | inl d' => modify (withDisk d');; ret None
  | inr e => ret (Some e)
  end.

Definition os_RemoveAll (p : Path) : M (option error) :=
  emit (EvRemoveAll p);;
  modify (fun s => withDisk (removeAll (disk s) p) s);;
  ret None.

(** [Write] of an [os.File]: on the nil file [os.ErrInvalid]; otherwise the
    bytes are appended to the file. *)
Definition File_Write (w : option Path) (b : list byte)
  : M (nat * option error) :=
  match w with
  | None => ret (O, Some ErrInvalid)
  | Some p =>
      emit (EvWrite p (length b));;
      let* d := gets disk in
      match d !! p with
      | Some (File (Raw old)) =>
          modify (withDisk (<[p := File (Raw (old ++ b))]> d));;
          ret (length b, None)
      | _ => ret (O, Some ErrInvalid)
      end
  end.

(** [Stat] of an [os.File]: on the nil file [(nil, os.ErrInvalid)]; otherwise
    the size of the file. *)
Definition File_Stat (w : option Path) : M (option Z * option error) :=
  match w with
  | None => ret (None, Some ErrInvalid)
  | Some p =>
      emit (EvStat p);;
      let* d := gets disk in
      match d !! p with
      | Some (File (Raw b)) => ret (Some (Z.of_nat (length b)), None)
      | Some _ => ret (Some 0%Z, None)
      | None => ret (None, Some ErrNotExist)
      end
  end.

(** [io.Copy(w, rc)]: everything the reader delivers is written to [w];
    the reader is left drained.  On the nil file nothing is read. *)
Definition io_Copy (w : option Path) (rc : v1.Reader)
  : M (v1.Reader * option error) :=
  match w with
  | None => ret (rc, Some ErrInvalid)
  | Some _ =>
      let* r := File_Write w (v1.pending rc) in
      match r.2 with
      | Some e => ret (v1.mkReader [] (v1.failure rc), Some e)
      | None => ret (v1.mkReader [] (v1.failure rc), v1.failure rc)
      end
  end.

(** [json.NewDecoder(f).Decode(&idx)] on an open file. *)
Definition json_Decode (f : Path) : M (result ocispec.Index) :=
  emit (EvRead f);;
  let* d := gets disk in
  match nodeAt d f with
  | Some (File (IndexDoc doc)) => ret (Ok doc)
  | Some (File (Raw _)) => ret (Err ErrSyntax)
  | Some Dir => ret (Err ErrIsDir)
  | None => ret (Err ErrNotExist)
  end.

(** [json.Marshal] of an index never fails. *)
Definition json_Marshal (idx : ocispec.Index) : result content :=
  Ok (IndexDoc idx).

(** *** The name map

    [sync.Map.Range] enumerates the entries in an order that the runtime
    chooses; all that is known of it is that it lists every entry once. *)
Class RangeOrder : Type := mkRangeOrder {
  enum : gmap string ocispec.Descriptor -> list (string * ocispec.Descriptor);
  enum_perm : forall m, enum m ≡ₚ map_to_list m
}.

Definition nameMap_Store (name : string) (d : ocispec.Descriptor) : M unit :=
  emit (EvStore name);;
  modify (fun s => withNameMap (<[name := d]> (nameMap s)) s).

Definition nameMap_Load (name : string) : M (option ocispec.Descriptor) :=
  gets (fun s => nameMap s !! name).

(** [Range] with the variables that the callback closes over made
    explicit: the callback receives them and returns them with the
    boolean that tells whether to go on. *)
Fixpoint rangeOver {V} (f : string -> ocispec.Descriptor -> V -> M (V * bool))
    (entries : list (string * ocispec.Descriptor)) (v : V) : M V :=
  match entries with
  | [] => ret v
  | (k, d) :: rest =>
      let* r := f k d v in
      if r.2 then rangeOver f rest r.1 else ret r.1
  end.

Definition nameMap_Range `{RangeOrder} {V}
    (f : string -> ocispec.Descriptor -> V -> M (V * bool)) (v : V) : M V :=
  let* m := gets nameMap in
  rangeOver f (enum m) v.

(** *** [errgroup.Group]

    The functions given to [Go] run concurrently; here each runs to its
    end when it is launched, which is one of the schedules.  The group
    keeps the first error. *)
Definition errgroup_Go (g : option error) (f : M (option error))
  : M (option error) :=
  let* e := f in
  ret (match g with Some _ => g | None => e end).

Definition errgroup_Wait (g : option error) : M (option error) :=
  emit EvWait;;
  ret g.

Fixpoint forEach {A} (l : list A) (f : A -> M unit) : M unit :=
  match l with
  | [] => ret tt
  | a :: rest => f a;; forEach rest f
  end.

(** [Digest.Algorithm] and [Digest.Hex] panic on a digest that has no
    separator. *)
Definition digest_Algorithm (d : string) : M string :=
  match digest.split d with
  | Some (alg, _) => ret alg
  | None => panic "no ':' separator in digest"
  end.

Definition digest_Hex (d : string) : M string :=
  match digest.split d with
  | Some (_, hex) => ret hex
  | None => panic "no ':' separator in digest"
  end.

(** [err != nil && !os.IsExist(err)], after [os.MkdirAll]. *)
Definition mkdirFailed (err : option error) : option error :=
  match err with
  | Some e => if negb (os_IsExist e) then Some e else None
  | None => None
  end.

(** What [content.NewIoContentWriter] is given: the sink the bytes go to
    ([ioutil.Discard] or the created blob file) and the digests of the
    options [WithInputHash] and [WithOutputHash]. *)
Inductive Sink : Type :=
| Discard
| ToFile (f : Path).

Record Writer : Type := mkWriter {
  sink : Sink;
  inputHash : option string;
  outputHash : option string
}.

(** Writing to the sink of a writer: [ioutil.Discard] accepts every byte
    and keeps none. *)
Definition Sink_Write (k : Sink) (b : list byte) : M (nat * option error) :=
  match k with
  | Discard => ret (length b, None)
  | ToFile f => File_Write (Some f) b
  end.

(** Modelled from the spec: the content writer of [oras-go] is not among
    the sources.  It passes what is written to its sink and keeps the
    bytes that the sink acknowledged; at commit it validates that the
    digest of the acknowledged writes is the expected output digest. *)
Definition Writer_Write (w : Writer) (acked : list byte) (b : list byte)
  : M (list byte * (nat * option error)) :=
  let* r := Sink_Write (sink w) b in
  ret (acked ++ take r.1 b, r).

Definition Writer_Commit (w : Writer) (acked : list byte) : option error :=
  match outputHash w with
  | Some dg =>
      if String.eqb (digest.FromBytes acked) dg then None
      else Some ErrDigestMismatch
  | None => None
  end.

(** ** The content store: [OCI] *)

Module OCI.
Section WithRangeOrder.
Context `{ord : RangeOrder}.

(** [NewOCI]: a store object on a disk; nothing is read yet. *)
Definition NewOCI (rootdir : string) (d : FS) : St :=
  mkSt d [] rootdir None ∅.

Definition path (elem : list string) : M Path :=
  gets (fun s => filepath_Join (root s :: elem)).

Definition LoadIndex : M (option error) :=
  let* p := path [consts.OCIImageIndexFile] in
  let* r := os_Open p in
  match r with
  | Err err =>
      if negb (os_IsNotExist err) then ret (Some err)
      else
        modify (withIndex (Some (ocispec.mkIndex 2 [] None)));;
        ret None
  | Ok idx =>
      let* r := json_Decode idx in
      match r with
      | Err err => ret (Some err)
      | Ok doc =>
          modify (withIndex (Some doc));;
          forEach (ocispec.Manifests doc) (fun desc =>
            let name := ocispec.annotation ocispec.AnnotationRefName desc in
            if negb (String.eqb name "") then nameMap_Store name desc
            else ret tt);;
          ret None
      end
  end.

(** The body of the [Range] callback of [SaveIndex].  [d] is a copy of
    the stored descriptor, but a Go map is a reference: when the
    annotations are not nil the assignment is seen through the stored
    descriptor too; when they are nil the fresh map belongs to the copy
    alone.  (Two stored descriptors are assumed not to share one map.) *)
Definition stamp (n : string) (d : ocispec.Descriptor) : ocispec.Descriptor :=
  ocispec.mkDescriptor (ocispec.MediaType d) (ocispec.Digest d)
    (ocispec.Size d) (ocispec.URLs d)
    (Some (<[ocispec.AnnotationRefName := n]>
             (default ∅ (ocispec.Annotations d))))
    (ocispec.platform d).

Definition stampEntry (n : string) (d : ocispec.Descriptor)
    (descs : list ocispec.Descriptor)
  : M (list ocispec.Descriptor * bool) :=
  match ocispec.Annotations d with
  | None => ret tt
  | Some _ =>
      modify (fun s => withNameMap (<[n := stamp n d]> (nameMap s)) s)
  end;;
  ret (descs ++ [stamp n d], true).

Definition SaveIndex : M (option error) :=
  let* descs := nameMap_Range stampEntry [] in
  let* i := gets index in
  match i with
  | None => panic "invalid memory address or nil pointer dereference"
  | Some idx =>
      let idx' :=
        ocispec.mkIndex (ocispec.SchemaVersion idx) descs
          (ocispec.IndexAnnotations idx) in
      modify (withIndex (Some idx'));;
      match json_Marshal idx' with
      | Err err => ret (Some err)
      | Ok data =>
          let* p := path [consts.OCIImageIndexFile] in
          os_WriteFile p data
      end
  end.

Definition ensureBlob (alg hex : string) : M (result Path) :=
  let* dir := path ["blobs"; alg] in
  let* err := os_MkdirAll dir in
  match mkdirFailed err with
  | Some e => ret (Err e)
  | None => ret (Ok (joinOnto dir [hex]))
  end.

(** The reader is an object that [io.Copy] advances: it is returned with
    the error. *)
Definition writeStream (p : Path) (rc : v1.Reader)
  : M (v1.Reader * option error) :=
  let* err := os_Stat p in
  match err with
  | None => ret (rc, None)
  | Some _ =>
      let* r := os_Create p in
      match r with
      | Err e => ret (rc, Some e)
      | Ok w =>
          let* c := io_Copy (Some w) rc in
          match c.2 with
          | Some e => ret (c.1, Some e)
          | None => ret (c.1, None)
          end
      end
  end.

Definition writeBytes (data : list byte) : M (option error) :=
  let d := digest.FromBytes data in
  let* alg := digest_Algorithm d in
  let* hex := digest_Hex d in
  let* r := ensureBlob alg hex in
  match r with
  | Err e => ret (Some e)
  | Ok blobPath =>
      let* w := writeStream blobPath (v1.mkReader data None) in
      ret w.2
  end.

Definition writeLayer (layer : v1.Layer) : M (option error) :=
  match v1.Digest layer with
  | Err e => ret (Some e)
  | Ok h =>
      let* r := ensureBlob (v1.Algorithm h) (v1.Hex h) in
      match r with
      | Err e => ret (Some e)
      | Ok blobpath =>
          match v1.Compressed layer with
          | Err e => ret (Some e)
          | Ok rc =>
              let* w := writeStream blobpath rc in
              ret w.2
          end
      end
  end.

(** The launch of one [writeLayer] per layer. *)
Fixpoint goLayers (g : option error) (layers : list v1.Layer)
  : M (option error) :=
  match layers with
  | [] => ret g
  | layer :: rest =>
      let* g' := errgroup_Go g (writeLayer layer) in
      goLayers g' rest
  end.

Definition Add (oci : artifact.OCI) (reference : string)
  : M (ocispec.Descriptor * option error) :=
  match artifact.Layers oci with
  | Err e => ret (ocispec.zero, Some e)
  | Ok layers =>
  let* g := goLayers None layers in
  let* err := errgroup_Wait g in
  match err with
  | Some e => ret (ocispec.zero, Some e)
  | None =>
  match artifact.RawConfig oci with
  | Err e => ret (ocispec.zero, Some e)
  | Ok cdata =>
  let* err := writeBytes cdata in
  match err with
  | Some e => ret (ocispec.zero, Some e)
  | None =>
  match artifact.Manifest oci with
  | Err e => ret (ocispec.zero, Some e)
  | Ok m =>
  match v1.Marshal m with
  | Err e => ret (ocispec.zero, Some e)
  | Ok mdata =>
  let* err := writeBytes mdata in
  match err with
  | Some e => ret (ocispec.zero, Some e)
  | None =>
  let midx :=
    ocispec.mkDescriptor (v1.MediaType m) (digest.FromBytes mdata)
      (Z.of_nat (length mdata)) []
      (Some {[ocispec.AnnotationRefName := reference]}) None in
  nameMap_Store reference midx;;
  let* err := LoadIndex in
  match err with
  | Some e => ret (ocispec.zero, Some e)
  | None =>
  let* err := SaveIndex in
  ret (ocispec.zero, err)
  end end end end end end end end.

Definition Resolve (ref : string)
  : M (string * ocispec.Descriptor * option error) :=
  let* err := LoadIndex in
  match err with
  | Some e => ret ("", ocispec.zero, Some e)
  | None =>
      let* d := nameMap_Load ref in
      match d with
      | None =>
          (* [return "", ocispec.Descriptor{}, err]: the named result
             [err], which is nil; the error of [LoadIndex] was another
             variable *)
          ret ("", ocispec.zero, None)
      | Some desc => ret (ref, desc, None)
      end
  end.

(** The fetcher that [Fetcher] hands out is the store itself. *)
Inductive Handle : Type := TheStore.

Definition Fetcher (ref : string) : M (option Handle * option error) :=
  let* err := LoadIndex in
  match err with
  | Some e => ret (None, Some e)
  | None =>
      let* d := nameMap_Load ref in
      match d with
      | None => ret (None, None)
      | Some _ => ret (Some TheStore, None)
      end
  end.

Definition blobReaderAt (desc : ocispec.Descriptor) : M (result Path) :=
  let* alg := digest_Algorithm (ocispec.Digest desc) in
  let* hex := digest_Hex (ocispec.Digest desc) in
  let* r := ensureBlob alg hex in
  match r with
  | Err e => ret (Err e)
  | Ok blobPath => os_Open blobPath
  end.

Definition Fetch (desc : ocispec.Descriptor) : M (result Path) :=
  let* r := blobReaderAt desc in
  match r with
  | Err e => ret (Err e)
  | Ok readerAt => ret (Ok readerAt)
  end.

Definition Walk {V}
    (fn : string -> ocispec.Descriptor -> V -> M (V * option error)) (v : V)
  : M (V * option error) :=
  let* err := LoadIndex in
  match err with
  | Some e => ret (v, Some e)
  | None =>
      let* v' :=
        nameMap_Range (fun key value v =>
          let* r := fn key value v in
          match r.2 with
          | Some _ => ret (r.1, false)
          | None => ret (r.1, true)
          end) v in
      ret (v', None)
  end.
End WithRangeOrder.
End OCI.

(** ** The push session: [ociPusher] *)

(** [strings.SplitN(s, "@", 2)]: the text before the first ['@'] and, when
    there is one, the text after it. *)
Fixpoint splitAt1 (s : string) : string * option string :=
  match s with
  | EmptyString => (EmptyString, None)
  | String c rest =>
      if Ascii.eqb c "@"%char then (EmptyString, Some rest)
      else let r := splitAt1 rest in (String c r.1, r.2)
  end.

Module ociPusher.
Section WithRangeOrder.
Context `{ord : RangeOrder}.

(** The session; its field [oci] points to the store of the state. *)
Record t : Type := mk { ref : string; digest : string }.

(** [OCI.Pusher] *)
Definition Pusher (r : string) : M (option t * option error) :=
  let* err := OCI.LoadIndex in
  match err with
  | Some e => ret (None, Some e)
  | None =>
      let parts := splitAt1 r in
      let baseRef := parts.1 in
      let hash := default "" parts.2 in
      ret (Some (mk baseRef hash), None)
  end.

Definition isRootMediaType (mt : string) : bool :=
  String.eqb mt ocispec.MediaTypeImageManifest
  || String.eqb mt ocispec.MediaTypeImageIndex
  || String.eqb mt consts.DockerManifestSchema2.

(** The condition under which a push marks the root of the session. *)
Definition marksRoot (p : t) (d : ocispec.Descriptor) : bool :=
  isRootMediaType (ocispec.MediaType d)
  && negb (String.eqb (digest p) "")
  && String.eqb (digest p) (ocispec.Digest d).

(** The [switch] of [Push]; [Some e] is the error that [Push] returns
    at once. *)
Definition markRoot (p : t) (d : ocispec.Descriptor) : M (option error) :=
  if isRootMediaType (ocispec.MediaType d) then
    if negb (String.eqb (digest p) "")
       && String.eqb (digest p) (ocispec.Digest d) then
      let* err := OCI.LoadIndex in
      match err with
      | Some e => ret (Some e)
      | None =>
          nameMap_Store (ref p) d;;
          let* err := OCI.SaveIndex in
          match err with
          | Some e => ret (Some e)
          | None => ret None
          end
      end
    else ret None
  else ret None.

Definition Push (p : t) (d : ocispec.Descriptor)
  : M (option Writer * option error) :=
  let* err := markRoot p d in
  match err with
  | Some e => ret (None, Some e)
  | None =>
      let* alg := digest_Algorithm (ocispec.Digest d) in
      let* hex := digest_Hex (ocispec.Digest d) in
      let* r := OCI.ensureBlob alg hex in
      match r with
      | Err e => ret (None, Some e)
      | Ok blobPath =>
          let* err := os_Stat blobPath in
          match err with
          | None =>
              (* file already exists, discard (but validate digest) *)
              ret (Some (mkWriter Discard None (Some (ocispec.Digest d))),
                   None)
          | Some _ =>
              let* r := os_Create blobPath in
              match r with
              | Err e => ret (None, Some e)
              | Ok f =>
                  ret (Some (mkWriter (ToFile f) (Some (ocispec.Digest d))
                               (Some (ocispec.Digest d))), None)
              end
          end
      end
  end.
End WithRangeOrder.
End ociPusher.

(** ** The layout: [Layout] *)

Module Layout.
Section WithRangeOrder.
Context `{ord : RangeOrder}.

(** Modelled from the spec: package [layer] is not among the sources;
    the cache decorator wraps the layer-producing capability of the
    artifact and yields an artifact again. *)
Definition Cache : Type := artifact.OCI -> artifact.OCI.

(** The layout; its field [store] points to the store of the state. *)
Record t : Type := mk { Root : string; cache : option Cache }.

Definition Options : Type := t -> t.

Definition WithCache (c : Cache) : Options :=
  fun l => mk (Root l) (Some c).

(** [NewLayout], on a disk. *)
Definition NewLayout (rootdir : string) (opts : list Options) (d : FS)
  : outcome (option t * option error) :=
  let ociStore := OCI.NewOCI rootdir d in
  (let* err := OCI.LoadIndex in
   match err with
   | Some e => ret (None, Some e)
   | None => ret (Some (fold_left (fun l opt => opt l) opts (mk rootdir None)), None)
   end) ociStore.

(** Modelled from the spec: [AddIndex] of the store is not among the
    sources; it registers the root descriptor under its reference name
    in the name map and persists the index. *)
Definition AddIndex (desc : ocispec.Descriptor) : M (option error) :=
  nameMap_Store (ocispec.annotation ocispec.AnnotationRefName desc) desc;;
  OCI.SaveIndex.

(** [(nil, err)], [(nil, nil)] when the blob is there, or the created
    file. *)
Definition writerAt (l : t) (alg hex : string)
  : M (option Path * option error) :=
  let dir := filepath_Join [Root l; "blobs"; alg] in
  let* err := os_MkdirAll dir in
  match mkdirFailed err with
  | Some e => ret (None, Some e)
  | None =>
      let blobPath := joinOnto dir [hex] in
      (* Skip entirely if something exists, assume layer is present already *)
      let* err := os_Stat blobPath in
      match err with
      | None => ret (None, None)
      | Some _ =>
          let* r := os_Create blobPath in
          match r with
          | Ok f => ret (Some f, None)
          | Err e => ret (None, Some e)
          end
      end
  end.

Definition writeBytes (l : t) (data : list byte) : M (option error) :=
  let d := digest.FromBytes data in
  let* alg := digest_Algorithm d in
  let* hex := digest_Hex d in
  let* r := writerAt l alg hex in
  match r.2 with
  | Some e => ret (Some e)
  | None =>
      let w := r.1 in
      (* defer w.Close() *)
      let* n := File_Write w data in
      match n.2 with
      | Some e => ret (Some e)
      | None => ret None
      end
  end.

(** The function that [AddOCI] launches for a layer. *)
Definition layerJob (l : t) (layer : v1.Layer) : M (option error) :=
  match v1.Digest layer with
  | Err e => ret (Some e)
  | Ok h =>
      let* r := writerAt l (v1.Algorithm h) (v1.Hex h) in
      match r.2 with
      | Some e => ret (Some e)
      | None =>
          let w := r.1 in
          (* defer w.Close() *)
          let* s := File_Stat w in
          match s.1 with
          | None =>
              (* [s.Size()] on the nil [FileInfo] *)
              panic "invalid memory address or nil pointer dereference"
          | Some size =>
              if negb (Z.eqb size 0) then ret None
              else
                match v1.Compressed layer with
                | Err e => ret (Some e)
                | Ok rc =>
                    let* c := io_Copy w rc in
                    match c.2 with
                    | Some e => ret (Some e)
                    | None => ret None
                    end
                end
          end
      end
  end.

Fixpoint goLayers (l : t) (g : option error) (layers : list v1.Layer)
  : M (option error) :=
  match layers with
  | [] => ret g
  | layer :: rest =>
      let* g' := errgroup_Go g (layerJob l layer) in
      goLayers l g' rest
  end.

Definition AddOCI (l : t) (oci : artifact.OCI) (ref : string)
  : M (ocispec.Descriptor * option error) :=
  let oci := match cache l with Some c => c oci | None => oci end in
  match artifact.Manifest oci with
  | Err e => ret (ocispec.zero, Some e)
  | Ok m =>
  match v1.Marshal m with
  | Err e => ret (ocispec.zero, Some e)
  | Ok mdata =>
  let* err := writeBytes l mdata in
  match err with
  | Some e => ret (ocispec.zero, Some e)
  | None =>
  match artifact.RawConfig oci with
  | Err e => ret (ocispec.zero, Some e)
  | Ok cdata =>
  let* err := writeBytes l cdata in
  match err with
  | Some e => ret (ocispec.zero, Some e)
  | None =>
  match artifact.Layers oci with
  | Err e => ret (ocispec.zero, Some e)
  | Ok layers =>
  let* g := goLayers l None layers in
  let* err := errgroup_Wait g in
  match err with
  | Some e => ret (ocispec.zero, Some e)
  | None =>
  let idx :=
    ocispec.mkDescriptor (v1.MediaType m) (digest.FromBytes mdata)
      (Z.of_nat (length mdata)) []
      (Some {[ocispec.AnnotationRefName := ref]}) None in
  let* err := AddIndex idx in
  ret (idx, err)
  end end end end end end end.

Definition Flush (l : t) : M (option error) :=
  let blobs := filepath_Join [Root l; "blobs"] in
  let* err := os_RemoveAll blobs in
  match err with
  | Some e => ret (Some e)
  | None =>
  let index := filepath_Join [Root l; "index.json"] in
  let* err := os_RemoveAll index in
  match err with
  | Some e => ret (Some e)
  | None =>
  let layout := filepath_Join [Root l; "oci-layout"] in
  let* err := os_RemoveAll layout in
  match err with
  | Some e => ret (Some e)
  | None => ret None
  end end end.

(** The loop of [AddOCICollection] over the contents. *)
Fixpoint addContents (l : t) (cnts : list (string * artifact.OCI))
    (descs : list ocispec.Descriptor)
  : M (list ocispec.Descriptor * option error) :=
  match cnts with
  | [] => ret (descs, None)
  | (ref, oci) :: rest =>
      let* r := AddOCI l oci ref in
      match r.2 with
      | Some e => ret ([], Some e)
      | None => addContents l rest (descs ++ [r.1])
      end
  end.

Definition AddOCICollection (l : t) (collection : artifact.OCICollection)
  : M (list ocispec.Descriptor * option error) :=
  match artifact.Contents collection with
  | Err e => ret ([], Some e)
  | Ok cnts => addContents l cnts []
  end.

(** [oras.Copy] from the store of the layout to a target is a
    collaborator: what copying a reference to a target reference does is
    given with the target. *)
Record Target : Type := mkTarget {
  oras_Copy : string -> string -> M (ocispec.Descriptor * option error)
}.

Definition Copy (l : t) (ref : string) (to : Target) (toRef : string)
  : M (ocispec.Descriptor * option error) :=
  oras_Copy to ref toRef.

(** The visitor of [CopyAll]; [descs] is the variable that it closes
    over. *)
Definition copyVisitor (l : t) (to : Target)
    (toMapper : option (string -> result string))
    (reference : string) (desc : ocispec.Descriptor)
    (descs : list ocispec.Descriptor)
  : M (list ocispec.Descriptor * option error) :=
  let mapped :=
    match toMapper with
    | None => Ok ""
    | Some f => f reference
    end in
  match mapped with
  | Err e => ret (descs, Some e)
  | Ok toRef =>
      let* r := Copy l reference to toRef in
      match r.2 with
      | Some e => ret (descs, Some e)
      | None => ret (descs ++ [r.1], None)
      end
  end.

Definition CopyAll (l : t) (to : Target)
    (toMapper : option (string -> result string))
  : M (list ocispec.Descriptor * option error) :=
  let* r := OCI.Walk (copyVisitor l to toMapper) [] in
  match r.2 with
  | Some e => ret ([], Some e)
  | None => ret (r.1, None)
  end.
End WithRangeOrder.
End Layout.

(** The enumeration of the name map by its keys is one of the orders. *)
#[global] Instance keyOrder : RangeOrder :=
  mkRangeOrder map_to_list (fun m => Permutation_refl (map_to_list m)).

(** * The vocabulary of the statements *)

(** ** Steps and events *)

(** A relation between the state before and the state in which a run
    ends, whatever its outcome. *)
Definition steps {A} (R : St -> St -> Prop) (m : M A) : Prop :=
  forall s, R s (final (m s)).

Definition isBlobEvent (e : Event) : bool :=
  match e with
  | EvMkdirAll _ | EvStat _ | EvCreate _ | EvWrite _ _ => true
  | _ => false
  end.

Definition isIndexEvent (e : Event) : bool :=
  match e with
  | EvOpen _ | EvRead _ | EvStore _ | EvWriteFile _ => true
  | _ => false
  end.

(** [s'] continues the log of [s] with events that satisfy [P]. *)
Definition appended (P : Event -> bool) (s s' : St) : Prop :=
  exists evs, log s' = log s ++ evs /\ forallb P evs = true.

(** A step that only adds to the blobs: the store object is as it was,
    every path that existed has the node it had. *)
Definition blobStep (s s' : St) : Prop :=
  root s' = root s /\ index s' = index s /\ nameMap s' = nameMap s
  /\ disk s ⊆ disk s' /\ appended isBlobEvent s s'.

(** ** What loading and saving the index compute *)

Definition indexPath (s : St) : Path :=
  filepath_Join [root s; consts.OCIImageIndexFile].

Definition refName (d : ocispec.Descriptor) : string :=
  ocispec.annotation ocispec.AnnotationRefName d.

(** The name map after the loop of [LoadIndex] over the manifests. *)
Definition loadNames (descs : list ocispec.Descriptor)
    (m : gmap string ocispec.Descriptor) : gmap string ocispec.Descriptor :=
  fold_left (fun m d =>
    if negb (String.eqb (refName d) "") then <[refName d := d]> m else m)
    descs m.

Definition loadEvents (descs : list ocispec.Descriptor) : list Event :=
  flat_map (fun d =>
    if negb (String.eqb (refName d) "") then [EvStore (refName d)] else [])
    descs.

(** The name map after the [Range] of [SaveIndex]: the entries whose
    annotations are not nil carry the stamp. *)
Definition shareStamp (entries : list (string * ocispec.Descriptor))
    (m : gmap string ocispec.Descriptor) : gmap string ocispec.Descriptor :=
  fold_left (fun m e =>
    match ocispec.Annotations e.2 with
    | Some _ => <[e.1 := OCI.stamp e.1 e.2]> m
    | None => m
    end) entries m.

Definition stamped (entries : list (string * ocispec.Descriptor))
  : list ocispec.Descriptor :=
  List.map (fun e => OCI.stamp e.1 e.2) entries.

Definition freshIndex : ocispec.Index := ocispec.mkIndex 2 [] None.

(** ** Concrete stores, on which the statements are exercised *)

Module Scenario.
Definition bytes (s : string) : list byte := list_byte_of_string s.

(** An existing, empty store directory [/store]. *)
Definition emptyDisk : FS := {[ ["store"] := Dir ]}.

Definition layer1 : v1.Layer :=
  v1.mkLayer (Ok (v1.mkHash "sha256" "aa"))
    (Ok (v1.mkReader (bytes "layer-1") None)).

(** An artifact with one layer, the given config and manifest bytes. *)
Definition image (manifest config : string) : artifact.OCI :=
  artifact.mkOCI (Ok [layer1]) (Ok (bytes config))
    (Ok (v1.mkManifest ocispec.MediaTypeImageManifest (Ok (bytes manifest)))).

Definition manifestDesc (dg : string) : ocispec.Descriptor :=
  ocispec.mkDescriptor ocispec.MediaTypeImageManifest dg 7 [] None None.

(** A store object whose index is loaded and that holds one name. *)
Definition oneName : St :=
  mkSt emptyDisk [] "/store" (Some freshIndex)
    {[ "app:v1" := manifestDesc "sha256:0a" ]}.

(** A persisted document with a named and an unnamed descriptor. *)
Definition named : ocispec.Descriptor :=
  OCI.stamp "app:v1" (manifestDesc "sha256:0a").
Definition unnamed : ocispec.Descriptor := manifestDesc "sha256:0b".
Definition mixedDisk : FS :=
  <[ ["store"; "index.json"] :=
       File (IndexDoc (ocispec.mkIndex 2 [named; unnamed] None)) ]> emptyDisk.
End Scenario.

(** [os.WriteFile] of the index document can succeed: the document is a
    regular file, or it is absent and the store directory exists. *)
Definition indexWritable (s : St) : bool :=
  match nodeAt (disk s) (indexPath s) with
  | Some (File _) => true
  | Some Dir => false
  | None =>
      match nodeAt (disk s) (parent (indexPath s)) with
      | Some Dir => true
      | _ => false
      end
  end.

(** The entry that the name map holds after the [Range] of [SaveIndex]. *)
Definition stampShared (n : string) (d : ocispec.Descriptor) : ocispec.Descriptor :=
  match ocispec.Annotations d with
  | Some _ => OCI.stamp n d
  | None => d
  end.

(** A visitor that records the names it is given and fails from the
    [k]-th call on. *)
Definition recorder (k : nat) (name : string) (d : ocispec.Descriptor)
    (seen : list string) : M (list string * option error) :=
  ret (seen ++ [name],
       if decide (k <= S (length seen)) then Some (ErrOther "visitor") else None).

(** The three paths that [Flush] removes. *)
Definition flushed (l : Layout.t) : list Path :=
  [ filepath_Join [Layout.Root l; "blobs"];
    filepath_Join [Layout.Root l; "index.json"];
    filepath_Join [Layout.Root l; "oci-layout"] ].

Definition underFlushed (l : Layout.t) (q : Path) : Prop :=
  Exists (fun p => p `prefix_of` q) (flushed l).

#[global] Instance underFlushed_dec l q : Decision (underFlushed l q).
Proof. unfold underFlushed. apply _. Defined.

(** The index can be loaded and saved: the document is there and well
    formed, or it is absent from a store directory that exists. *)
Definition indexUsable (s : St) : bool :=
  match nodeAt (disk s) (indexPath s) with
  | Some (File (IndexDoc _)) => true
  | Some _ => false
  | None =>
      match nodeAt (disk s) (parent (indexPath s)) with
      | Some Dir => os_IsNotExist (missingError (disk s) (indexPath s))
      | _ => false
      end
  end.

(** The index as [LoadIndex] reads it from a usable store. *)
Definition loadedIndex (s : St) : ocispec.Index :=
  match disk s !! indexPath s with
  | Some (File (IndexDoc doc)) => doc
  | _ => freshIndex
  end.

Definition loadedNames (s : St) : gmap string ocispec.Descriptor :=
  loadNames (ocispec.Manifests (loadedIndex s)) (nameMap s).

Definition loadLog (s : St) : list Event :=
  match disk s !! indexPath s with
  | Some (File (IndexDoc doc)) =>
      [EvOpen (indexPath s); EvRead (indexPath s)]
        ++ loadEvents (ocispec.Manifests doc)
  | _ => [EvOpen (indexPath s)]
  end.

(** What the marking of the root does in a usable store: the name map is
    loaded, the descriptor stored under the reference, and the map
    saved. *)
Definition markedNames (p : ociPusher.t) (d : ocispec.Descriptor) (s : St)
  : gmap string ocispec.Descriptor :=
  <[ociPusher.ref p := d]> (loadedNames s).

Definition markedIndex `{RangeOrder} (p : ociPusher.t) (d : ocispec.Descriptor) (s : St)
  : ocispec.Index :=
  ocispec.mkIndex (ocispec.SchemaVersion (loadedIndex s))
    (stamped (enum (markedNames p d s)))
    (ocispec.IndexAnnotations (loadedIndex s)).

(** The part of [Push] that follows the [switch]. *)
Definition pushBlob `{RangeOrder} (d : ocispec.Descriptor)
  : M (option Writer * option error) :=
  let* alg := digest_Algorithm (ocispec.Digest d) in
  let* hex := digest_Hex (ocispec.Digest d) in
  let* r := OCI.ensureBlob alg hex in
  match r with
  | Err e => ret (None, Some e)
  | Ok blobPath =>
      let* err := os_Stat blobPath in
      match err with
      | None =>
          ret (Some (mkWriter Discard None (Some (ocispec.Digest d))), None)
      | Some _ =>
          let* r := os_Create blobPath in
          match r with
          | Err e => ret (None, Some e)
          | Ok f =>
              ret (Some (mkWriter (ToFile f) (Some (ocispec.Digest d))
                           (Some (ocispec.Digest d))), None)
          end
      end
  end.

Definition blobDir (r alg : string) : Path := filepath_Join [r; "blobs"; alg].

(** The blob of a descriptor is on disk: its digest has the two parts,
    the directory of the algorithm exists and the path of the blob is a
    file of bytes. *)
Definition blobPresent (s : St) (d : ocispec.Descriptor) : bool :=
  match digest.split (ocispec.Digest d) with
  | Some (alg, hex) =>
      match nodeAt (disk s) (blobDir (root s) alg),
            nodeAt (disk s) (joinOnto (blobDir (root s) alg) [hex]) with
      | Some Dir, Some (File (Raw _)) => true
      | _, _ => false
      end
  | None => false
  end.

(** The string has no ['@']. *)
Fixpoint noAt (s : string) : bool :=
  match s with
  | EmptyString => true
  | String c rest => negb (Ascii.eqb c "@"%char) && noAt rest
  end.

Module PushScenario.
(** A store that holds the blob [sha256:0a] and no index document yet. *)
Definition disk0 : FS :=
  <[ ["store"; "blobs"; "sha256"; "0a"] := File (Raw (Scenario.bytes "{}")) ]>
  (<[ ["store"; "blobs"; "sha256"] := Dir ]>
  (<[ ["store"; "blobs"] := Dir ]> Scenario.emptyDisk)).

Definition store0 : St := OCI.NewOCI "/store" disk0.

(** The session of the reference [app:v1@sha256:0a]. *)
Definition session : ociPusher.t := ociPusher.mk "app:v1" "sha256:0a".

Definition rootManifest : ocispec.Descriptor := Scenario.manifestDesc "sha256:0a".

(** A manifest that is not the expected root. *)
Definition otherManifest : ocispec.Descriptor := Scenario.manifestDesc "sha256:0b".
End PushScenario.

(** A run that ends in an error or in a panic. *)
Definition failed {A} (o : outcome (A * option error)) : Prop :=
  match o with
  | Ret (_, None) _ => False
  | _ => True
  end.

(** The state after [errgroup.Group.Wait] has returned. *)
Definition waited (s : St) : St := withLog (log s ++ [EvWait]) s.

(** The path of the blob of some bytes. *)
Definition blobPathOf (r : string) (data : list byte) : Path :=
  joinOnto (filepath_Join [r; "blobs"; "sha256"]) [SHA256.hex data].

(** The descriptor that both pipelines build for the manifest. *)
Definition rootDescriptor (m : v1.Manifest) (mdata : list byte) (ref : string)
  : ocispec.Descriptor :=
  ocispec.mkDescriptor (v1.MediaType m) (digest.FromBytes mdata)
    (Z.of_nat (length mdata)) []
    (Some {[ocispec.AnnotationRefName := ref]}) None.

(** The parts of [OCI.Add], from its end. *)
Definition Add_register `{RangeOrder} (ref : string) (midx : ocispec.Descriptor)
  : M (ocispec.Descriptor * option error) :=
  nameMap_Store ref midx;;
  let* err := OCI.LoadIndex in
  match err with
  | Some e => ret (ocispec.zero, Some e)
  | None =>
      let* err := OCI.SaveIndex in
      ret (ocispec.zero, err)
  end.

Definition Add_manifest `{RangeOrder} (oci : artifact.OCI) (ref : string)
  : M (ocispec.Descriptor * option error) :=
  match artifact.Manifest oci with
  | Err e => ret (ocispec.zero, Some e)
  | Ok m =>
      match v1.Marshal m with
      | Err e => ret (ocispec.zero, Some e)
      | Ok mdata =>
          let* err := OCI.writeBytes mdata in
          match err with
          | Some e => ret (ocispec.zero, Some e)
          | None => Add_register ref (rootDescriptor m mdata ref)
          end
      end
  end.

Definition Add_config `{RangeOrder} (oci : artifact.OCI) (ref : string)
  : M (ocispec.Descriptor * option error) :=
  match artifact.RawConfig oci with
  | Err e => ret (ocispec.zero, Some e)
  | Ok cdata =>
      let* err := OCI.writeBytes cdata in
      match err with
      | Some e => ret (ocispec.zero, Some e)
      | None => Add_manifest oci ref
      end
  end.

(** A run of [Add] that gets to register the name: the steps before it
    have all succeeded. *)
Definition registers `{RangeOrder} (oci : artifact.OCI) (ref : string) (s : St)
    (o : outcome (ocispec.Descriptor * option error)) : Prop :=
  exists layers cdata m mdata s1 s3 s4,
    artifact.Layers oci = Ok layers /\ artifact.RawConfig oci = Ok cdata
    /\ artifact.Manifest oci = Ok m /\ v1.Marshal m = Ok mdata
    /\ OCI.goLayers None layers s = Ret None s1
    /\ OCI.writeBytes cdata (waited s1) = Ret None s3
    /\ OCI.writeBytes mdata s3 = Ret None s4
    /\ o = Add_register ref (rootDescriptor m mdata ref) s4.

(** The events that come before the index is touched in an ingestion:
    those of the blobs and the await. *)
Definition beforeIndex (e : Event) : bool :=
  isBlobEvent e || match e with EvWait => true | _ => false end.

Module FailScenario.
(** A store directory in which [blobs] is a regular file, so that no blob
    directory can be made. *)
Definition disk0 : FS :=
  <[ ["store"; "blobs"] := File (Raw []) ]> Scenario.emptyDisk.

Definition store0 : St := OCI.NewOCI "/store" disk0.
End FailScenario.

(** [os.Stat] of the blob path and, when it is not there, [os.Create]:
    the end of [writerAt]. *)
Definition statCreate (bp : Path) : M (option Path * option error) :=
  let* err := os_Stat bp in
  match err with
  | None => ret (None, None)
  | Some _ =>
      let* r := os_Create bp in
      match r with
      | Ok f => ret (Some f, None)
      | Err e => ret (None, Some e)
      end
  end.

(** What [writerAt] hands out: the step only adds to the blobs, a file
    that is returned is new and empty, and the path of the blob has been
    looked at. *)
Definition opened (s : St) (bp : Path) (r : option Path * option error)
    (s' : St) : Prop :=
  blobStep s s'
  /\ match r with
     | (Some f, None) =>
         f = bp /\ disk s !! f = None /\ disk s' !! f = Some (File (Raw []))
         /\ exists evs, log s' = log s ++ evs /\ EvStat bp ∈ evs
     | (Some _, Some _) => False
     | (None, _) => True
     end.

(** The artifact that [AddOCI] reads: the given one, or its cached form. *)
Definition cachedArtifact (l : Layout.t) (oci : artifact.OCI) : artifact.OCI :=
  match Layout.cache l with Some c => c oci | None => oci end.

(** A run of [AddOCI] that gets to update the index. *)
Definition updatesIndex `{RangeOrder} (l : Layout.t) (oci : artifact.OCI) (ref : string)
    (s : St) (o : outcome (ocispec.Descriptor * option error)) : Prop :=
  exists m mdata cdata layers s1 s2 s3,
    artifact.Manifest (cachedArtifact l oci) = Ok m
    /\ v1.Marshal m = Ok mdata
    /\ artifact.RawConfig (cachedArtifact l oci) = Ok cdata
    /\ artifact.Layers (cachedArtifact l oci) = Ok layers
    /\ Layout.writeBytes l mdata s = Ret None s1
    /\ Layout.writeBytes l cdata s1 = Ret None s2
    /\ Layout.goLayers l None layers s2 = Ret None s3
    /\ o = (let* err := Layout.AddIndex (rootDescriptor m mdata ref) in
            ret (rootDescriptor m mdata ref, err)) (waited s3).

(** ** Stores and artifacts that are ready for ingestion *)

(** The string has no ['/']. *)
Fixpoint noSlash (s : string) : bool :=
  match s with
  | EmptyString => true
  | String c rest => negb (Ascii.eqb c "/"%char) && noSlash rest
  end.

(** A path component that [filepath.Join] appends as it is. *)
Definition simpleName (c : string) : bool :=
  negb (String.eqb c "" || String.eqb c "." || String.eqb c "..") && noSlash c.

(** The digits of a lower-case hexadecimal numeral. *)
Definition hexChar (c : ascii) : bool :=
  existsb (Ascii.eqb c) (list_ascii_of_string "0123456789abcdef").

Fixpoint hexChars (s : string) : bool :=
  match s with
  | EmptyString => true
  | String c rest => hexChar c && hexChars rest
  end.

(** The directory of the store, as a path. *)
Definition storeDir (r : string) : Path := filepath_Join [r].

Definition isDir (o : option node) : bool :=
  match o with Some Dir => true | _ => false end.

Definition dirOrAbsent (o : option node) : bool :=
  match o with Some (File _) => false | _ => true end.

(** Blobs of the algorithm can be stored: the store directory exists and
    neither [blobs] nor the directory of the algorithm is a regular
    file. *)
Definition blobsWritable (s : St) (alg : string) : bool :=
  simpleName alg
  && isDir (nodeAt (disk s) (storeDir (root s)))
  && dirOrAbsent (nodeAt (disk s) (storeDir (root s) ++ ["blobs"]))
  && dirOrAbsent (nodeAt (disk s) (storeDir (root s) ++ ["blobs"; alg])).

(** What the writing of blobs adds to a disk: the directory [blobs], the
    directories of the algorithms and files of bytes in them. *)
Definition blobNode (r : string) (q : Path) (x : node) : Prop :=
  (x = Dir /\ (q = storeDir r ++ ["blobs"]
               \/ exists alg, q = storeDir r ++ ["blobs"; alg]))
  \/ exists alg hex b,
       q = storeDir r ++ ["blobs"; alg; hex] /\ x = File (Raw b).

(** A step that leaves the store object as it is and only adds nodes of
    the blobs to the disk. *)
Definition grows (s s' : St) : Prop :=
  root s' = root s /\ index s' = index s /\ nameMap s' = nameMap s
  /\ disk s ⊆ disk s'
  /\ forall q x, disk s' !! q = Some x ->
       disk s !! q = Some x \/ blobNode (root s) q x.

(** The common part of [writeBytes] and [writeLayer]. *)
Definition storeBlob (alg hex : string) (rc : v1.Reader)
  : M (option error) :=
  let* r := OCI.ensureBlob alg hex in
  match r with
  | Err e => ret (Some e)
  | Ok blobPath =>
      let* w := OCI.writeStream blobPath rc in
      ret w.2
  end.

(** The reader delivers its bytes without an error. *)
Definition noFailure (rc : v1.Reader) : bool :=
  match v1.failure rc with None => true | Some _ => false end.

(** A layer that can be stored: it has a digest of two plain parts, its
    content can be read to the end, and blobs of its algorithm can be
    stored. *)
Definition layerReady (s : St) (layer : v1.Layer) : bool :=
  match v1.Digest layer, v1.Compressed layer with
  | Ok h, Ok rc =>
      simpleName (v1.Hex h) && noFailure rc && blobsWritable s (v1.Algorithm h)
  | _, _ => false
  end.

(** The path of the blob of a layer. *)
Definition layerPath (r : string) (layer : v1.Layer) : Path :=
  match v1.Digest layer with
  | Ok h => storeDir r ++ ["blobs"; v1.Algorithm h; v1.Hex h]
  | Err _ => []
  end.

(** The name map and the index after [Add] has registered a name. *)
Definition addedNames (ref : string) (midx : ocispec.Descriptor) (s : St)
  : gmap string ocispec.Descriptor :=
  loadNames (ocispec.Manifests (loadedIndex s)) (<[ref := midx]> (nameMap s)).

Definition addedIndex `{RangeOrder} (ref : string) (midx : ocispec.Descriptor) (s : St)
  : ocispec.Index :=
  ocispec.mkIndex (ocispec.SchemaVersion (loadedIndex s))
    (stamped (enum (addedNames ref midx s)))
    (ocispec.IndexAnnotations (loadedIndex s)).

(** An artifact that can be ingested: its layers, its config and its
    manifest can be had, the manifest can be marshalled, and every layer
    can be stored. *)
Definition artifactReady (s : St) (oci : artifact.OCI) : bool :=
  match artifact.Layers oci, artifact.RawConfig oci, artifact.Manifest oci with
  | Ok layers, Ok _, Ok m =>
      match v1.Marshal m with
      | Ok _ => forallb (layerReady s) layers
      | Err _ => false
      end
  | _, _, _ => false
  end.

(** A store that can take an ingestion: blobs of [sha256] can be stored
    and the index can be loaded and saved. *)
Definition storeReady (s : St) : bool :=
  blobsWritable s "sha256" && indexUsable s.

(** Every blob of the artifact is on the disk of the state. *)
Definition artifactStored (s : St) (oci : artifact.OCI) : Prop :=
  match artifact.Layers oci, artifact.RawConfig oci, artifact.Manifest oci with
  | Ok layers, Ok cdata, Ok m =>
      match v1.Marshal m with
      | Ok mdata =>
          Forall (fun layer => is_Some (disk s !! layerPath (root s) layer)) layers
          /\ is_Some (disk s !! blobPathOf (root s) cdata)
          /\ is_Some (disk s !! blobPathOf (root s) mdata)
      | Err _ => False
      end
  | _, _, _ => False
  end.

(** The root descriptor of an entry of a collection. *)
Definition rootOf (l : Layout.t) (entry : string * artifact.OCI)
    (d : ocispec.Descriptor) : Prop :=
  exists m mdata,
    artifact.Manifest (cachedArtifact l entry.2) = Ok m
    /\ v1.Marshal m = Ok mdata
    /\ d = rootDescriptor m mdata entry.1.

(** A visitor that records what it is given and never fails. *)
Definition recordAll (key : string) (value : ocispec.Descriptor)
    (seen : list (string * ocispec.Descriptor))
  : M (list (string * ocispec.Descriptor) * option error) :=
  ret (seen ++ [(key, value)], None).

Module LayoutScenario.
(** A layout on the empty store directory, and its store after the
    ingestion of an image under [app:v1]. *)
Definition layout : Layout.t := Layout.mk "/store" None.

Definition store0 : St :=
  final (Layout.NewLayout "/store" [] Scenario.emptyDisk).

Definition ingested : St :=
  final (Layout.AddOCI layout (Scenario.image "m1" "c1") "app:v1" store0).

Definition root1 : ocispec.Descriptor :=
  rootDescriptor
    (v1.mkManifest ocispec.MediaTypeImageManifest (Ok (Scenario.bytes "m1")))
    (Scenario.bytes "m1") "app:v1".
End LayoutScenario.

(** A step that creates the blob at [bp] with content [b], and no other
    blob. *)
Definition createsBlob (s s' : St) (bp : Path) (b : list byte) : Prop :=
  grows s s'
  /\ disk s' !! bp = Some (File (Raw b))
  /\ forall q, length q = length (storeDir (root s)) + 3 -> q <> bp ->
       disk s' !! q = disk s !! q.

(** Nothing is at the path. *)
Definition absent (s : St) (q : Path) : bool :=
  match disk s !! q with None => true | Some _ => false end.

(** The paths of the blobs of an artifact. *)
Definition artifactPaths (r : string) (mdata cdata : list byte)
    (layers : list v1.Layer) : list Path :=
  blobPathOf r mdata :: blobPathOf r cdata :: List.map (layerPath r) layers.

(** No regular file stands where a directory on the way to the index
    document is expected. *)
Definition storeDirReachable (s : St) : bool :=
  os_IsNotExist (missingError (disk s) (indexPath s)).



Module CorruptScenario.
(** A store directory whose index document is cut off. *)
Definition disk0 : FS :=
  <[ ["store"; "index.json"] := File (Raw (Scenario.bytes "{")) ]>
  Scenario.emptyDisk.

Definition store0 : St := OCI.NewOCI "/store" disk0.
End CorruptScenario.

(** * Properties *)

(** ** The hash and the paths, on known values *)

Example sha256_empty :
  SHA256.hex [] = "e3b0c44298fc1c149afbf4c8996fb92427ae41e4649b934ca495991b7852b855".
Proof. vm_compute. reflexivity. Qed.

Example sha256_abc :
  SHA256.hex (list_byte_of_string "abc")
  = "ba7816bf8f01cfea414140de5dae2223b00361a396177a9cb410ff61f20015ad".
Proof. vm_compute. reflexivity. Qed.

Example sha256_two_blocks :
  SHA256.hex
    (list_byte_of_string
       "abcdbcdecdefdefgefghfghighijhijkijkljklmklmnlmnomnopnopq")
  = "248d6a61d20638b8e5c026930c3e6039a33ce45964ff2167f6ecedd419db06c1".
Proof. vm_compute. reflexivity. Qed.

Example filepath_Join_ex :
  filepath_Join ["/var/lib//store/"; "blobs"; "sha256"; "../x/./y"]
  = ["var"; "lib"; "store"; "blobs"; "x"; "y"].
Proof. reflexivity. Qed.

Arguments SHA256.hex : simpl never.

(** ** The monad *)

Lemma bind_Ret {A B} (m : M A) (k : A -> M B) s a s1 :
  m s = Ret a s1 -> bind m k s = k a s1.
Proof. intros H. unfold bind. rewrite H. reflexivity. Qed.

Lemma bind_Panic {A B} (m : M A) (k : A -> M B) s msg s1 :
  m s = Panic msg s1 -> bind m k s = Panic msg s1.
Proof. intros H. unfold bind. rewrite H. reflexivity. Qed.

Lemma final_bind {A B} (m : M A) (k : A -> M B) s :
  final (bind m k s)
  = match m s with Ret a s1 => final (k a s1) | Panic _ s1 => s1 end.
Proof. unfold bind. destruct (m s); reflexivity. Qed.

Section Steps.
Context (R : St -> St -> Prop) `{!PreOrder R}.

Lemma steps_ret {A} (a : A) : steps R (ret a).
Proof. intros s. simpl. reflexivity. Qed.

Lemma steps_panic {A} msg : steps R (@panic A msg).
Proof. intros s. simpl. reflexivity. Qed.

Lemma steps_gets {A} (f : St -> A) : steps R (gets f).
Proof. intros s. simpl. reflexivity. Qed.

Lemma steps_bind {A B} (m : M A) (k : A -> M B) :
  steps R m -> (forall a, steps R (k a)) -> steps R (bind m k).
Proof.
  intros Hm Hk s. rewrite final_bind. specialize (Hm s).
  destruct (m s) as [a s1|msg s1]; simpl in Hm; [|exact Hm].
  etransitivity; [exact Hm|apply Hk].
Qed.
End Steps.

Create HintDb steps.

(** Goals [steps R m] are taken apart along the structure of [m]. *)
Ltac steps_go :=
  repeat first
    [ solve [apply steps_ret; typeclasses eauto]
    | solve [apply steps_panic; typeclasses eauto]
    | solve [apply steps_gets; typeclasses eauto]
    | assumption
    | solve [eauto 2 with steps typeclass_instances]
    | apply steps_bind; [typeclasses eauto| |intros ?]
    | match goal with
      | |- steps _ (match ?x with _ => _ end) => destruct x
      | |- steps _ (if ?b then _ else _) => destruct b
      end ].

(** ** Events of the blobs and events of the index *)

Lemma appended_refl P s : appended P s s.
Proof. exists []. rewrite app_nil_r. auto. Qed.

Lemma appended_trans P s1 s2 s3 :
  appended P s1 s2 -> appended P s2 s3 -> appended P s1 s3.
Proof.
  intros (e1 & H1 & F1) (e2 & H2 & F2). exists (e1 ++ e2).
  rewrite H2, H1, app_assoc, forallb_app, F1, F2. auto.
Qed.

#[global] Instance blobStep_preorder : PreOrder blobStep.
Proof.
  split.
  - intros s. repeat split; auto using appended_refl.
  - intros s1 s2 s3 (R1 & I1 & N1 & D1 & L1) (R2 & I2 & N2 & D2 & L2).
    repeat split; try congruence.
    + etransitivity; eauto.
    + eapply appended_trans; eauto.
Qed.

(** ** The file system *)

Lemma nodeAt_None d p : nodeAt d p = None -> d !! p = None.
Proof. destruct p; simpl; [discriminate|auto]. Qed.

Lemma createFile_absent d p c d' :
  nodeAt d p = None -> createFile d p c = inl d' -> d' = <[p := File c]> d.
Proof.
  unfold createFile. intros ->.
  destruct (nodeAt d (parent p)) as [[|]|]; congruence.
Qed.

Lemma mkdir_subseteq d p d' : mkdir d p = inl d' -> d ⊆ d'.
Proof.
  unfold mkdir. destruct (nodeAt d p) as [[|]|] eqn:E.
  - intros [= <-]. reflexivity.
  - discriminate.
  - destruct (nodeAt d (parent p)) as [[|]|]; try discriminate.
    intros [= <-]. apply insert_subseteq. by apply nodeAt_None.
Qed.

Lemma mkdirAll_subseteq rp d d' : mkdirAll rp d = inl d' -> d ⊆ d'.
Proof.
  revert d'. induction rp as [|c rp IH]; intros d'; simpl.
  - intros [= <-]. reflexivity.
  - destruct (nodeAt d (rev rp ++ [c])) as [[|]|].
    + intros [= <-]. reflexivity.
    + discriminate.
    + destruct (mkdirAll rp d) as [d1|e]; [|discriminate].
      intros H%mkdir_subseteq. etransitivity; [by apply IH|done].
Qed.

Lemma mkdirAll_dir rp d : nodeAt d (rev rp) = Some Dir -> mkdirAll rp d = inl d.
Proof. destruct rp; simpl; [reflexivity|]. intros ->. reflexivity. Qed.

(** ** Blob steps *)

Ltac appended_now :=
  eexists; split; [simpl; rewrite <- ?app_assoc; simpl; reflexivity|reflexivity].

Lemma os_Stat_blobStep p : steps blobStep (os_Stat p).
Proof.
  intros [d lg r i m]. unfold os_Stat, bind, emit, modify, gets, ret. simpl.
  destruct (nodeAt d p); simpl; repeat split; auto; appended_now.
Qed.

Lemma os_MkdirAll_blobStep p : steps blobStep (os_MkdirAll p).
Proof.
  intros [d lg r i m]. unfold os_MkdirAll, bind, emit, modify, gets, ret. simpl.
  destruct (mkdirAll (rev p) d) as [d'|e] eqn:E; simpl; repeat split; auto;
    try appended_now.
  by eapply mkdirAll_subseteq.
Qed.

Lemma File_Stat_blobStep w : steps blobStep (File_Stat w).
Proof.
  intros [d lg r i m]. destruct w as [p|]; simpl; [|reflexivity].
  unfold bind, emit, modify, gets, ret. simpl.
  destruct (d !! p) as [[|[]]|]; simpl; repeat split; auto; appended_now.
Qed.

(** [os.Create] of a path that does not exist, and the writes to the file
    it returns. *)
Lemma create_write_subseteq (d d1 : FS) p x :
  d ⊆ d1 -> d !! p = None -> d ⊆ <[p := x]> d1.
Proof. intros. by apply insert_subseteq_r. Qed.

Lemma writeStream_blobStep `{RangeOrder} p rc : steps blobStep (OCI.writeStream p rc).
Proof.
  intros [d lg r i m].
  unfold OCI.writeStream, os_Stat, os_Create, io_Copy, File_Write,
    bind, emit, modify, gets, ret. simpl.
  destruct (nodeAt d p) eqn:E; simpl.
  { repeat split; auto; appended_now. }
  destruct (createFile d p (Raw [])) as [d'|e] eqn:C; simpl.
  2:{ repeat split; auto; appended_now. }
  apply createFile_absent in C; [|done]. subst d'.
  rewrite lookup_insert_eq. simpl.
  destruct (v1.failure rc); simpl; repeat split; auto; try appended_now;
    rewrite insert_insert_eq; apply insert_subseteq; by apply nodeAt_None.
Qed.

#[global] Hint Resolve os_Stat_blobStep os_MkdirAll_blobStep File_Stat_blobStep
  writeStream_blobStep : steps.

Lemma digest_Algorithm_steps R `{!PreOrder R} d : steps R (digest_Algorithm d).
Proof. unfold digest_Algorithm. destruct (digest.split d) as [[]|]; steps_go. Qed.

Lemma digest_Hex_steps R `{!PreOrder R} d : steps R (digest_Hex d).
Proof. unfold digest_Hex. destruct (digest.split d) as [[]|]; steps_go. Qed.

#[global] Hint Resolve digest_Algorithm_steps digest_Hex_steps : steps.

Section BlobSteps.
Context `{ord : RangeOrder}.

Lemma path_steps R `{!PreOrder R} elem : steps R (OCI.path elem).
Proof. by apply steps_gets. Qed.
Hint Resolve path_steps : steps.

Lemma ensureBlob_blobStep alg hex : steps blobStep (OCI.ensureBlob alg hex).
Proof. unfold OCI.ensureBlob. steps_go. Qed.
Hint Resolve ensureBlob_blobStep : steps.

Lemma writeBytes_blobStep data : steps blobStep (OCI.writeBytes data).
Proof. unfold OCI.writeBytes. steps_go. Qed.

Lemma writeLayer_blobStep layer : steps blobStep (OCI.writeLayer layer).
Proof. unfold OCI.writeLayer. steps_go. Qed.
Hint Resolve writeBytes_blobStep writeLayer_blobStep : steps.

Lemma goLayers_blobStep layers g : steps blobStep (OCI.goLayers g layers).
Proof.
  revert g. induction layers as [|layer rest IH]; intros g; simpl.
  - steps_go.
  - unfold errgroup_Go. steps_go.
Qed.
End BlobSteps.

#[global] Hint Resolve path_steps ensureBlob_blobStep writeBytes_blobStep
  writeLayer_blobStep goLayers_blobStep : steps.

(** ** The index: what [LoadIndex] and [SaveIndex] compute *)

Section IndexEquations.
Context `{ord : RangeOrder}.

Lemma forEach_load descs s :
  forEach descs (fun desc =>
      let name := ocispec.annotation ocispec.AnnotationRefName desc in
      if negb (String.eqb name "") then nameMap_Store name desc
      else ret tt) s
  = Ret tt (mkSt (disk s) (log s ++ loadEvents descs) (root s) (index s)
              (loadNames descs (nameMap s))).
Proof.
  revert s. induction descs as [|d descs IH]; intros [dk lg r i m]; simpl.
  - unfold ret. by rewrite app_nil_r.
  - unfold bind at 1. fold (refName d).
    destruct (negb (refName d =? "")%string) eqn:E; simpl.
    + unfold nameMap_Store, bind, emit, modify. simpl. rewrite IH. simpl.
      by rewrite <- app_assoc.
    + unfold ret. rewrite IH. reflexivity.
Qed.

Lemma LoadIndex_eq s :
  OCI.LoadIndex s =
  let ip := indexPath s in
  match nodeAt (disk s) ip with
  | None =>
      let e := missingError (disk s) ip in
      if negb (os_IsNotExist e)
      then Ret (Some e) (withLog (log s ++ [EvOpen ip]) s)
      else Ret None (mkSt (disk s) (log s ++ [EvOpen ip]) (root s)
                       (Some freshIndex) (nameMap s))
  | Some (File (IndexDoc doc)) =>
      Ret None
        (mkSt (disk s)
           (log s ++ [EvOpen ip; EvRead ip] ++ loadEvents (ocispec.Manifests doc))
           (root s) (Some doc)
           (loadNames (ocispec.Manifests doc) (nameMap s)))
  | Some (File (Raw _)) =>
      Ret (Some ErrSyntax) (withLog (log s ++ [EvOpen ip; EvRead ip]) s)
  | Some Dir =>
      Ret (Some ErrIsDir) (withLog (log s ++ [EvOpen ip; EvRead ip]) s)
  end.
Proof.
  destruct s as [dk lg r i m].
  unfold OCI.LoadIndex, OCI.path, os_Open, json_Decode, indexPath.
  unfold bind at 1. unfold gets at 1. simpl.
  set (ip := filepath_Join [r; consts.OCIImageIndexFile]).
  unfold bind, emit, modify, gets, ret. simpl.
  destruct (nodeAt dk ip) as [[|[b|doc]]|] eqn:E; simpl; rewrite ?E; simpl.
  - unfold withLog. simpl. by rewrite <- app_assoc.
  - unfold withLog. simpl. by rewrite <- app_assoc.
  - pose proof (forEach_load (ocispec.Manifests doc)
      (mkSt dk ((lg ++ [EvOpen ip]) ++ [EvRead ip]) r (Some doc) m)) as F.
    unfold bind, ret, withIndex in F |- *. simpl in F |- *. rewrite F. simpl.
    by rewrite <- !app_assoc.
  - destruct (negb (os_IsNotExist (missingError dk ip))); reflexivity.
Qed.

Lemma rangeOver_stampEntry entries descs s :
  rangeOver OCI.stampEntry entries descs s
  = Ret (descs ++ stamped entries)
      (withNameMap (shareStamp entries (nameMap s)) s).
Proof.
  revert descs s.
  induction entries as [|[n d] entries IH]; intros descs [dk lg r i m]; simpl.
  - unfold ret, withNameMap. simpl. by rewrite app_nil_r.
  - unfold bind at 1. unfold OCI.stampEntry at 1.
    destruct (ocispec.Annotations d) eqn:E; unfold bind, modify, ret; simpl;
      rewrite IH; unfold withNameMap; simpl; by rewrite <- app_assoc.
Qed.

Lemma SaveIndex_eq s :
  OCI.SaveIndex s =
  let ip := indexPath s in
  let entries := enum (nameMap s) in
  let m' := shareStamp entries (nameMap s) in
  match index s with
  | None =>
      Panic "invalid memory address or nil pointer dereference"
        (withNameMap m' s)
  | Some idx =>
      let idx' :=
        ocispec.mkIndex (ocispec.SchemaVersion idx) (stamped entries)
          (ocispec.IndexAnnotations idx) in
      match createFile (disk s) ip (IndexDoc idx') with
      | inl d' =>
          Ret None (mkSt d' (log s ++ [EvWriteFile ip]) (root s) (Some idx') m')
      | inr e =>
          Ret (Some e)
            (mkSt (disk s) (log s ++ [EvWriteFile ip]) (root s) (Some idx') m')
      end
  end.
Proof.
  destruct s as [dk lg r i m].
  unfold OCI.SaveIndex, nameMap_Range. unfold bind at 1.
  unfold bind at 1. unfold gets at 1. simpl.
  rewrite rangeOver_stampEntry. simpl.
  unfold bind at 1. unfold gets at 1. simpl.
  destruct i as [idx|]; [|reflexivity].
  unfold OCI.path, os_WriteFile, indexPath, bind, emit, modify, gets, ret.
  simpl.
  set (ip := filepath_Join [r; consts.OCIImageIndexFile]).
  destruct (createFile dk ip _); reflexivity.
Qed.
End IndexEquations.

(** ** Saving the index *)

Lemma indexPath_nonempty s : indexPath s <> [].
Proof.
  unfold indexPath, filepath_Join, joinOnto. simpl.
  rewrite fold_left_app. simpl.
  unfold cleanStep at 1. simpl. intros H. by apply app_eq_nil in H as [_ ?].
Qed.

Lemma indexPath_lookup s : nodeAt (disk s) (indexPath s) = disk s !! indexPath s.
Proof. pose proof (indexPath_nonempty s). by destruct (indexPath s). Qed.

Lemma createFile_writable s c :
  indexWritable s = true ->
  createFile (disk s) (indexPath s) c = inl (<[indexPath s := File c]> (disk s)).
Proof.
  unfold indexWritable, createFile.
  destruct (nodeAt (disk s) (indexPath s)) as [[|]|]; try done.
  by destruct (nodeAt (disk s) (parent (indexPath s))) as [[|]|].
Qed.

Lemma stamp_refName n d :
  ocispec.Annotations (OCI.stamp n d) ≫= (.!! ocispec.AnnotationRefName) = Some n.
Proof. simpl. by rewrite lookup_insert_eq. Qed.

Lemma elem_of_stamped `{RangeOrder} m d :
  d ∈ stamped (enum m) <-> exists n d0, m !! n = Some d0 /\ d = OCI.stamp n d0.
Proof.
  unfold stamped. rewrite list_elem_of_In, in_map_iff. split.
  - intros ([n d0] & <- & Hin). exists n, d0. split; [|done].
    apply elem_of_map_to_list. rewrite <- (enum_perm m).
    by apply list_elem_of_In.
  - intros (n & d0 & Hm & ->). exists (n, d0). split; [done|].
    apply list_elem_of_In. rewrite (enum_perm m). by apply elem_of_map_to_list.
Qed.

Lemma shareStamp_notin entries m n :
  n ∉ entries.*1 -> shareStamp entries m !! n = m !! n.
Proof.
  revert m. induction entries as [|[n' d'] rest IH]; intros m Hn; [done|].
  simpl in *. apply not_elem_of_cons in Hn as [Hne Hn].
  unfold shareStamp in *. simpl. rewrite IH by done.
  destruct (ocispec.Annotations d'); [by rewrite lookup_insert_ne|done].
Qed.

Lemma shareStamp_in entries m n d :
  NoDup entries.*1 -> (n, d) ∈ entries -> m !! n = Some d ->
  shareStamp entries m !! n = Some (stampShared n d).
Proof.
  revert m. induction entries as [|[n' d'] rest IH]; intros m Hnd Hin Hm.
  { by apply elem_of_nil in Hin. }
  simpl in Hnd. apply NoDup_cons in Hnd as [Hfresh Hnd].
  apply elem_of_cons in Hin as [[= <- <-]|Hin].
  - change (shareStamp ((n, d) :: rest) m)
      with (shareStamp rest
              (match ocispec.Annotations d with
               | Some _ => <[n := OCI.stamp n d]> m
               | None => m
               end)).
    rewrite shareStamp_notin by done. unfold stampShared.
    destruct (ocispec.Annotations d); [by rewrite lookup_insert_eq|done].
  - assert (n <> n') as Hne.
    { intros ->. apply Hfresh. apply list_elem_of_fmap. by exists (n', d). }
    change (shareStamp ((n', d') :: rest) m)
      with (shareStamp rest
              (match ocispec.Annotations d' with
               | Some _ => <[n' := OCI.stamp n' d']> m
               | None => m
               end)).
    apply IH; [done|done|].
    destruct (ocispec.Annotations d'); [by rewrite lookup_insert_ne|done].
Qed.

Lemma enum_NoDup `{RangeOrder} m : NoDup (enum m).*1.
Proof. rewrite (enum_perm m). apply NoDup_fst_map_to_list. Qed.

Lemma elem_of_enum `{RangeOrder} m n d : (n, d) ∈ enum m <-> m !! n = Some d.
Proof. rewrite (enum_perm m). apply elem_of_map_to_list. Qed.

Lemma shareStamp_enum `{RangeOrder} m n :
  shareStamp (enum m) m !! n = stampShared n <$> m !! n.
Proof.
  destruct (m !! n) as [d|] eqn:E; simpl.
  - apply shareStamp_in; [apply enum_NoDup|by apply elem_of_enum|done].
  - rewrite shareStamp_notin; [done|].
    intros ([n' d'] & -> & Hin%elem_of_enum)%list_elem_of_fmap. simpl in *.
    congruence.
Qed.



(** ** Writing a blob that is already there *)

(** [OCI.writeStream] on a path that exists does nothing but the [Stat]:
    no error, the disk as it was, the reader not advanced. *)
Lemma writeStream_present `{RangeOrder} (p : Path) (rc : v1.Reader) (s : St) :
  is_Some (nodeAt (disk s) p) ->
  OCI.writeStream p rc s = Ret (rc, None) (withLog (log s ++ [EvStat p]) s).
Proof.
  intros [n Hn]. destruct s as [d lg r i m]. simpl in Hn.
  unfold OCI.writeStream, os_Stat, bind, emit, modify, gets, ret. simpl.
  by rewrite Hn.
Qed.

(** C1.  [Layout.AddOCI] of an artifact whose blobs are on disk: the
    first ingestion succeeds; ingesting the same artifact again fails with
    [os.ErrInvalid] at the manifest; an artifact with a new manifest whose
    config and layer are present fails with [os.ErrInvalid] at the config;
    an artifact of which only the layer is present panics. *)
Theorem AddOCI_present_blob_fails :
  let l := Layout.mk "/store" None in
  let s0 := final (Layout.NewLayout "/store" [] Scenario.emptyDisk) in
  let first := Layout.AddOCI l (Scenario.image "m1" "c1") "app:v1" s0 in
  snd <$> returned first = Some None
  /\ returned
       (Layout.AddOCI l (Scenario.image "m1" "c1") "app:v1" (final first))
     = Some (ocispec.zero, Some ErrInvalid)
  /\ returned
       (Layout.AddOCI l (Scenario.image "m2" "c1") "app:v2" (final first))
     = Some (ocispec.zero, Some ErrInvalid)
  /\ panicked
       (Layout.AddOCI l (Scenario.image "m3" "c3") "app:v3" (final first))
     = true.
Proof. vm_compute. repeat split. Qed.

(** ** Registering a name twice *)

(** C2.  [OCI.Add] of a second artifact under a name that is registered:
    both ingestions succeed, and the name still resolves to the descriptor
    of the first artifact, not to that of the second. *)
Theorem Add_registered_name_keeps_old :
  let s0 := OCI.NewOCI "/store" Scenario.emptyDisk in
  let first := OCI.Add (Scenario.image "m1" "c1") "app:v1" s0 in
  let second := OCI.Add (Scenario.image "m2" "c2") "app:v1" (final first) in
  let resolved := returned (OCI.Resolve "app:v1" (final second)) in
  returned first = Some (ocispec.zero, None)
  /\ returned second = Some (ocispec.zero, None)
  /\ (fun r => (r.1.1, ocispec.Digest r.1.2, r.2)) <$> resolved
     = Some ("app:v1", digest.FromBytes (Scenario.bytes "m1"), None)
  /\ digest.FromBytes (Scenario.bytes "m1")
     <> digest.FromBytes (Scenario.bytes "m2").
Proof. vm_compute. repeat split. discriminate. Qed.

(** ** Names that are not registered *)

(** C3.  On a name that the name map does not hold, [Resolve] returns the
    empty name, the empty descriptor and no error, and [Fetcher] returns
    no handle and no error. *)
Theorem Resolve_Fetcher_miss_no_error :
  let s0 := OCI.NewOCI "/store" Scenario.emptyDisk in
  returned (OCI.Resolve "app:v1" s0) = Some ("", ocispec.zero, None)
  /\ nameMap (final (OCI.Resolve "app:v1" s0)) !! "app:v1" = None
  /\ returned (OCI.Fetcher "app:v1" s0) = Some (None, None).
Proof. vm_compute. repeat split. Qed.

(** The same for every store and name: a miss is never reported. *)
Lemma Resolve_miss `{RangeOrder} (ref : string) (s s1 : St) :
  OCI.LoadIndex s = Ret None s1 -> nameMap s1 !! ref = None ->
  OCI.Resolve ref s = Ret ("", ocispec.zero, None) s1
  /\ OCI.Fetcher ref s = Ret (None, None) s1.
Proof.
  intros HL Hm. unfold OCI.Resolve, OCI.Fetcher.
  rewrite !(bind_Ret _ _ _ _ _ HL). unfold nameMap_Load, bind, gets.
  by rewrite Hm.
Qed.

(** ** Walking the names *)

Lemma rangeOver_record (entries : list (string * ocispec.Descriptor))
    (seen : list (string * ocispec.Descriptor)) (s : St) :
  rangeOver (fun key value v =>
      let* r := ret (v ++ [(key, value)], @None error) in
      match r.2 with
      | Some _ => ret (r.1, false)
      | None => ret (r.1, true)
      end) entries seen s
  = Ret (seen ++ entries) s.
Proof.
  revert seen. induction entries as [|[k d] rest IH]; intros seen; simpl.
  - by rewrite app_nil_r.
  - unfold bind at 1. simpl. rewrite IH. by rewrite <- app_assoc.
Qed.

(** With a visitor that never fails, [Walk] calls it on every entry of
    the loaded name map, once. *)
Lemma Walk_visits_every_pair `{RangeOrder} (s s1 : St) :
  OCI.LoadIndex s = Ret None s1 ->
  OCI.Walk (fun key value v => ret (v ++ [(key, value)], None)) [] s
  = Ret (enum (nameMap s1), None) s1
  /\ enum (nameMap s1) ≡ₚ map_to_list (nameMap s1).
Proof.
  intros HL. split; [|apply enum_perm]. unfold OCI.Walk.
  rewrite (bind_Ret _ _ _ _ _ HL). unfold nameMap_Range.
  unfold bind at 1. unfold bind at 1. unfold gets at 1.
  by rewrite rangeOver_record.
Qed.

(** C4.  [Walk] over two names with a visitor that fails at its first
    call: the visitor is called once, and [Walk] returns no error. *)
Theorem Walk_drops_visitor_error :
  let s0 :=
    mkSt Scenario.emptyDisk [] "/store" None
      {[ "app:v1" := Scenario.manifestDesc "sha256:0a";
         "app:v2" := Scenario.manifestDesc "sha256:0b" ]} in
  (fun r => (length r.1, r.2)) <$> returned (OCI.Walk (recorder 1) [] s0)
  = Some (1, None).
Proof. vm_compute. reflexivity. Qed.

(** ** Flushing the layout *)

Lemma removeAll_lookup (d : FS) (p q : Path) :
  removeAll d p !! q = if decide (p `prefix_of` q) then None else d !! q.
Proof.
  unfold removeAll. rewrite map_lookup_filter.
  destruct (d !! q) as [n|]; simpl; [|by case_decide].
  case_guard; case_decide; simpl in *; done.
Qed.

Arguments filepath_Join : simpl never.

Lemma LoadIndex_absent_names `{RangeOrder} (s : St) :
  disk s !! indexPath s = None ->
  nameMap (final (OCI.LoadIndex s)) = nameMap s.
Proof.
  intros Hd. rewrite LoadIndex_eq. simpl. rewrite indexPath_lookup, Hd.
  by destruct (negb _).
Qed.

(** C7, as the code has it.  [Flush] succeeds; it removes the three paths
    [blobs], [index.json] and [oci-layout] under the root with all that
    is below them, and every other path keeps its node; the store object
    is not touched, its name map is what it was; a store that is opened
    on the flushed root afterwards loads no name. *)
Theorem Flush_removes_three_paths `{RangeOrder} (l : Layout.t) (s : St) :
  exists s',
    Layout.Flush l s = Ret None s'
    /\ (forall q, disk s' !! q
                  = if decide (underFlushed l q) then None else disk s !! q)
    /\ nameMap s' = nameMap s /\ index s' = index s /\ root s' = root s
    /\ nameMap (final (OCI.LoadIndex (OCI.NewOCI (Layout.Root l) (disk s'))))
       = ∅.
Proof.
  destruct s as [d lg r i m].
  unfold Layout.Flush, os_RemoveAll, bind, emit, modify, ret. simpl.
  eexists. split; [reflexivity|]. simpl. repeat split.
  - intros q. rewrite !removeAll_lookup. unfold underFlushed, flushed.
    repeat case_decide; try done;
      match goal with
      | H : ¬ Exists _ _ |- _ => exfalso; apply H
      | H : Exists _ _ |- _ =>
          repeat (apply Exists_cons in H as [H|H]; [done|]);
          by apply Exists_nil in H
      end.
    + by apply Exists_cons_tl, Exists_cons_tl, Exists_cons_hd.
    + by apply Exists_cons_tl, Exists_cons_hd.
    + by apply Exists_cons_hd.
  - apply LoadIndex_absent_names. simpl.
    rewrite !removeAll_lookup. unfold indexPath. simpl.
    change consts.OCIImageIndexFile with "index.json".
    repeat case_decide; done.
Qed.

(** C7, as the spec states it, fails: after an ingestion and a flush, the
    index document is gone from the disk, and the store that was flushed
    still resolves the name, to the descriptor of the ingested manifest
    and without an error. *)
Lemma Flush_keeps_names_resolvable :
  let l := Layout.mk "/store" None in
  let s0 := OCI.NewOCI "/store" Scenario.emptyDisk in
  let s1 := final (OCI.Add (Scenario.image "m1" "c1") "app:v1" s0) in
  let flush := Layout.Flush l s1 in
  returned flush = Some None
  /\ disk (final flush) !! ["store"; "index.json"] = None
  /\ (fun r => (r.1.1, ocispec.Digest r.1.2, r.2))
       <$> returned (OCI.Resolve "app:v1" (final flush))
     = Some ("app:v1", digest.FromBytes (Scenario.bytes "m1"), None).
Proof. vm_compute. repeat split. Qed.

(** ** The push session *)

Lemma LoadIndex_usable `{RangeOrder} (s : St) :
  indexUsable s = true ->
  OCI.LoadIndex s
  = Ret None (mkSt (disk s) (log s ++ loadLog s) (root s)
                (Some (loadedIndex s)) (loadedNames s)).
Proof.
  unfold indexUsable, loadedNames, loadedIndex, loadLog.
  rewrite LoadIndex_eq. simpl. rewrite indexPath_lookup.
  destruct (disk s !! indexPath s) as [[|[b|doc]]|]; try done.
  destruct (nodeAt (disk s) (parent (indexPath s))) as [[|]|]; try done.
  by intros ->.
Qed.

Lemma indexUsable_writable (s : St) : indexUsable s = true -> indexWritable s = true.
Proof.
  unfold indexUsable, indexWritable.
  destruct (nodeAt (disk s) (indexPath s)) as [[|[b|doc]]|]; try done.
  by destruct (nodeAt (disk s) (parent (indexPath s))) as [[|]|].
Qed.

Lemma nameMap_Store_eq (n : string) (d : ocispec.Descriptor) (s : St) :
  nameMap_Store n d s
  = Ret tt (mkSt (disk s) (log s ++ [EvStore n]) (root s) (index s)
              (<[n := d]> (nameMap s))).
Proof. reflexivity. Qed.

Section Marking.
Context `{ord : RangeOrder}.

Lemma markRoot_unmarked (p : ociPusher.t) (d : ocispec.Descriptor) (s : St) :
  ociPusher.marksRoot p d = false -> ociPusher.markRoot p d s = Ret None s.
Proof.
  unfold ociPusher.marksRoot, ociPusher.markRoot.
  destruct (ociPusher.isRootMediaType _); [|done]. simpl.
  by destruct (negb _ && _).
Qed.

Lemma markRoot_marked (p : ociPusher.t) (d : ocispec.Descriptor) (s : St) :
  ociPusher.marksRoot p d = true -> indexUsable s = true ->
  ociPusher.markRoot p d s
  = Ret None
      (mkSt (<[indexPath s := File (IndexDoc (markedIndex p d s))]> (disk s))
         (log s ++ loadLog s
            ++ [EvStore (ociPusher.ref p); EvWriteFile (indexPath s)])
         (root s) (Some (markedIndex p d s))
         (shareStamp (enum (markedNames p d s)) (markedNames p d s))).
Proof.
  intros Hm Hu. unfold ociPusher.marksRoot in Hm.
  apply andb_prop in Hm as [Hm H3]. apply andb_prop in Hm as [H1 H2].
  unfold ociPusher.markRoot. rewrite H1, H2, H3. simpl.
  rewrite (bind_Ret _ _ _ _ _ (LoadIndex_usable s Hu)).
  rewrite (bind_Ret _ _ _ _ _ (nameMap_Store_eq _ _ _)).
  unfold bind. rewrite SaveIndex_eq. simpl.
  change (indexPath _) with (indexPath s).
  match goal with |- context [createFile ?dk ?ip ?c] =>
    assert (createFile dk ip c = inl (<[ip := File c]> dk)) as ->
  end.
  { apply indexUsable_writable in Hu.
    by rewrite <- (createFile_writable s). }
  unfold ret, markedIndex, markedNames. simpl.
  by rewrite <- !app_assoc.
Qed.
End Marking.

(** The system calls, as equations. *)
Lemma os_Stat_eq (p : Path) (s : St) :
  os_Stat p s
  = Ret (match nodeAt (disk s) p with
         | Some _ => None
         | None => Some (missingError (disk s) p)
         end) (withLog (log s ++ [EvStat p]) s).
Proof.
  unfold os_Stat, bind, emit, modify, gets, ret. simpl.
  by destruct (nodeAt (disk s) p).
Qed.

Lemma os_Create_eq (p : Path) (s : St) :
  os_Create p s
  = match createFile (disk s) p (Raw []) with
    | inl d' => Ret (Ok p) (mkSt d' (log s ++ [EvCreate p]) (root s) (index s)
                              (nameMap s))
    | inr e => Ret (Err e) (withLog (log s ++ [EvCreate p]) s)
    end.
Proof.
  unfold os_Create, bind, emit, modify, gets, ret. simpl.
  by destruct (createFile (disk s) p (Raw [])).
Qed.

Lemma os_MkdirAll_eq (p : Path) (s : St) :
  os_MkdirAll p s
  = match mkdirAll (rev p) (disk s) with
    | inl d' => Ret None (mkSt d' (log s ++ [EvMkdirAll p]) (root s) (index s)
                            (nameMap s))
    | inr e => Ret (Some e) (withLog (log s ++ [EvMkdirAll p]) s)
    end.
Proof.
  unfold os_MkdirAll, bind, emit, modify, gets, ret. simpl.
  by destruct (mkdirAll (rev p) (disk s)).
Qed.

Section Pushing.
Context `{ord : RangeOrder}.

Lemma Push_unfold (p : ociPusher.t) (d : ocispec.Descriptor) :
  ociPusher.Push p d
  = (let* err := ociPusher.markRoot p d in
     match err with
     | Some e => ret (None, Some e)
     | None => pushBlob d
     end).
Proof. reflexivity. Qed.

(** [os.Stat] and, when the path is not there, [os.Create]. *)
Lemma stat_create_blobStep {A} (p : Path) (k1 : M A) (k2 : result Path -> M A) :
  steps blobStep k1 -> (forall r, steps blobStep (k2 r)) ->
  steps blobStep
    (let* err := os_Stat p in
     match err with
     | None => k1
     | Some _ => let* r := os_Create p in k2 r
     end).
Proof.
  intros H1 H2 s. unfold bind at 1. rewrite os_Stat_eq.
  destruct (nodeAt (disk s) p) eqn:E.
  { etransitivity; [|apply H1]. destruct s; repeat split; auto.
    simpl. appended_now. }
  unfold bind. rewrite os_Create_eq. simpl.
  destruct (createFile (disk s) p (Raw [])) as [d'|e] eqn:C; simpl.
  2:{ etransitivity; [|apply H2]. destruct s; repeat split; auto.
      simpl. appended_now. }
  apply createFile_absent in C; [|done]. subst d'.
  etransitivity; [|apply H2]. destruct s as [dk lg r i m]. simpl in *.
  repeat split; auto.
  - apply insert_subseteq. by apply nodeAt_None.
  - appended_now.
Qed.

Lemma pushBlob_blobStep (d : ocispec.Descriptor) : steps blobStep (pushBlob d).
Proof.
  unfold pushBlob.
  repeat (apply steps_bind;
          [typeclasses eauto
          |solve [eauto 2 with steps typeclass_instances]|intros ?]).
  match goal with |- steps _ (match ?r with _ => _ end) => destruct r end.
  - apply stat_create_blobStep; [|intros ?]; steps_go.
  - steps_go.
Qed.

Lemma pushBlob_present (d : ocispec.Descriptor) (s : St) :
  blobPresent s d = true ->
  exists evs,
    pushBlob d s
    = Ret (Some (mkWriter Discard None (Some (ocispec.Digest d))), None)
        (withLog (log s ++ evs) s).
Proof.
  unfold blobPresent, pushBlob, digest_Algorithm, digest_Hex.
  destruct (digest.split (ocispec.Digest d)) as [[alg hex]|]; [|done].
  destruct (nodeAt (disk s) (blobDir (root s) alg)) as [[|]|] eqn:ED; try done.
  destruct (nodeAt (disk s) (joinOnto (blobDir (root s) alg) [hex]))
    as [[|[b|]]|] eqn:EF; try done.
  intros _. unfold OCI.ensureBlob, OCI.path.
  unfold bind at 1 2 3 4, ret at 1 2, gets at 1. simpl.
  fold (blobDir (root s) alg). unfold bind at 1. rewrite os_MkdirAll_eq.
  rewrite mkdirAll_dir by (by rewrite rev_involutive). simpl.
  unfold ret at 1. unfold bind. rewrite os_Stat_eq. simpl. rewrite EF.
  eexists. unfold ret, withLog. simpl. rewrite <- app_assoc.
  destruct s; reflexivity.
Qed.
End Pushing.

(** ** Loading what was saved *)

Lemma refName_stamp (n : string) (d : ocispec.Descriptor) :
  refName (OCI.stamp n d) = n.
Proof. unfold refName, ocispec.annotation. simpl. by rewrite lookup_insert_eq. Qed.

Lemma loadNames_cons d descs m :
  loadNames (d :: descs) m
  = loadNames descs
      (if negb (String.eqb (refName d) "") then <[refName d := d]> m else m).
Proof. reflexivity. Qed.

Lemma loadNames_empty_name descs m : loadNames descs m !! "" = m !! "".
Proof.
  revert m. induction descs as [|d descs IH]; intros m; [done|].
  rewrite loadNames_cons, IH.
  destruct (String.eqb_spec (refName d) "") as [E|E]; simpl; [done|].
  by rewrite lookup_insert_ne.
Qed.

Lemma loadNames_stamped_notin entries m k :
  k ∉ entries.*1 -> loadNames (stamped entries) m !! k = m !! k.
Proof.
  revert m. induction entries as [|[n d] rest IH]; intros m Hk; [done|].
  simpl in Hk. apply not_elem_of_cons in Hk as [Hne Hk].
  change (stamped ((n, d) :: rest)) with (OCI.stamp n d :: stamped rest).
  rewrite loadNames_cons, refName_stamp, IH by done.
  destruct (negb (n =? "")%string); [by rewrite lookup_insert_ne|done].
Qed.

Lemma loadNames_stamped_in entries m k d :
  NoDup entries.*1 -> (k, d) ∈ entries -> k <> "" ->
  loadNames (stamped entries) m !! k = Some (OCI.stamp k d).
Proof.
  revert m. induction entries as [|[n d'] rest IH]; intros m Hnd Hin Hk.
  { by apply elem_of_nil in Hin. }
  simpl in Hnd. apply NoDup_cons in Hnd as [Hfresh Hnd].
  change (stamped ((n, d') :: rest)) with (OCI.stamp n d' :: stamped rest).
  rewrite loadNames_cons, refName_stamp.
  apply elem_of_cons in Hin as [[= <- <-]|Hin].
  - rewrite loadNames_stamped_notin by done.
    apply String.eqb_neq in Hk. rewrite Hk. simpl. by rewrite lookup_insert_eq.
  - by apply IH.
Qed.

(** ** Root recognition *)

Lemma nodeAt_insert_ne (d : FS) (p q : Path) (x : node) :
  p <> q -> nodeAt (<[p := x]> d) q = nodeAt d q.
Proof. intros Hne. destruct q; [done|]. simpl. by rewrite lookup_insert_ne. Qed.

Lemma blobPresent_marked (s : St) (d : ocispec.Descriptor) x lg i m :
  blobPresent s d = true -> indexUsable s = true ->
  blobPresent
    (mkSt (<[indexPath s := File (IndexDoc x)]> (disk s)) lg (root s) i m) d
  = true.
Proof.
  unfold blobPresent, indexUsable. simpl.
  destruct (digest.split (ocispec.Digest d)) as [[alg hex]|]; [|done].
  set (dir := blobDir (root s) alg). set (f := joinOnto dir [hex]).
  destruct (nodeAt (disk s) dir) as [[|]|] eqn:ED; try done.
  destruct (nodeAt (disk s) f) as [[|[b|]]|] eqn:EF; try done.
  intros _ Hu.
  rewrite !nodeAt_insert_ne, ED, EF; [done|intros E..];
    rewrite E in Hu; [rewrite EF in Hu|rewrite ED in Hu]; done.
Qed.

Section RootRecognition.
Context `{ord : RangeOrder}.

(** C9.  When the blob of the descriptor is on disk (and the push either
    does not mark the root or finds a usable index), [Push] returns no
    error and a writer whose sink is [ioutil.Discard] and whose expected
    output digest is the digest of the descriptor; no file of bytes on
    disk is changed, nothing but the index document can change at all,
    and nothing changes when the root is not marked; whatever is written
    through the writer is acknowledged in full and leaves the state as it
    is, and the commit succeeds exactly when the acknowledged bytes hash
    to the digest of the descriptor. *)
Theorem Push_present_blob_discards
    (p : ociPusher.t) (d : ocispec.Descriptor) (s : St) :
  blobPresent s d = true ->
  negb (ociPusher.marksRoot p d) || indexUsable s = true ->
  exists s',
    ociPusher.Push p d s
    = Ret (Some (mkWriter Discard None (Some (ocispec.Digest d))), None) s'
    /\ (forall q b, disk s !! q = Some (File (Raw b)) ->
                    disk s' !! q = Some (File (Raw b)))
    /\ (forall q, q <> indexPath s -> disk s' !! q = disk s !! q)
    /\ (ociPusher.marksRoot p d = false -> disk s' = disk s)
    /\ (forall acked b s'',
          Writer_Write (mkWriter Discard None (Some (ocispec.Digest d)))
            acked b s''
          = Ret (acked ++ b, (length b, None)) s'')
    /\ (forall acked,
          Writer_Commit (mkWriter Discard None (Some (ocispec.Digest d))) acked
          = None
          <-> digest.FromBytes acked = ocispec.Digest d).
Proof.
  assert (forall acked b s'',
            Writer_Write (mkWriter Discard None (Some (ocispec.Digest d)))
              acked b s''
            = Ret (acked ++ b, (length b, None)) s'') as HWrite.
  { intros acked b s''. unfold Writer_Write, bind, ret. simpl.
    by rewrite firstn_all. }
  assert (forall acked,
            Writer_Commit (mkWriter Discard None (Some (ocispec.Digest d)))
              acked = None
            <-> digest.FromBytes acked = ocispec.Digest d) as HCommit.
  { intros acked. unfold Writer_Commit, outputHash.
    destruct (String.eqb_spec (digest.FromBytes acked) (ocispec.Digest d));
      split; intros; done. }
  intros Hb Hok. rewrite Push_unfold.
  destruct (ociPusher.marksRoot p d) eqn:Hm; simpl in Hok.
  - rewrite (bind_Ret _ _ _ _ _ (markRoot_marked p d s Hm Hok)).
    edestruct pushBlob_present as [evs ->].
    { by apply (blobPresent_marked s d). }
    eexists. split; [reflexivity|]. simpl.
    split; [|split; [|split; [done|by split]]].
    + intros q b Hq. rewrite lookup_insert_ne; [done|]. intros E.
      rewrite <- E in Hq. unfold indexUsable in Hok.
      rewrite indexPath_lookup in Hok.
      assert (disk s !! indexPath s = Some (File (Raw b))) as Hq' by exact Hq.
      by rewrite Hq' in Hok.
    + intros q Hq. by rewrite lookup_insert_ne.
  - rewrite (bind_Ret _ _ _ _ _ (markRoot_unmarked p d s Hm)).
    edestruct (pushBlob_present d s) as [evs ->]; [done|].
    eexists. split; [reflexivity|]. destruct s; simpl.
    split; [done|split; [done|split; [done|by split]]].
Qed.

End RootRecognition.

Lemma splitAt1_composite (base dg : string) :
  noAt base = true ->
  splitAt1 (String.append base (String "@"%char dg)) = (base, Some dg).
Proof.
  induction base as [|c base IH]; simpl; [done|].
  intros [Hc Hb]%andb_prop. apply negb_true_iff in Hc. rewrite Hc.
  by rewrite (IH Hb).
Qed.

(** The session that [Pusher] makes of [base@digest] has the reference
    [base] and expects the digest, provided [base] has no ['@']. *)
Lemma Pusher_session `{RangeOrder} (base dg : string) (s s1 : St) :
  noAt base = true -> OCI.LoadIndex s = Ret None s1 ->
  ociPusher.Pusher (String.append base (String "@"%char dg)) s
  = Ret (Some (ociPusher.mk base dg), None) s1.
Proof.
  intros Hb HL. unfold ociPusher.Pusher.
  rewrite (bind_Ret _ _ _ _ _ HL). by rewrite splitAt1_composite.
Qed.

Example Pusher_session_ex :
  returned (ociPusher.Pusher "app:v1@sha256:0a" PushScenario.store0)
  = Some (Some PushScenario.session, None).
Proof. vm_compute. reflexivity. Qed.

Lemma Push_present_blob_discards_witness :
  blobPresent PushScenario.store0 PushScenario.rootManifest = true
  /\ negb (ociPusher.marksRoot PushScenario.session PushScenario.rootManifest)
     || indexUsable PushScenario.store0 = true
  /\ exists s',
       ociPusher.Push PushScenario.session PushScenario.rootManifest
         PushScenario.store0
       = Ret (Some (mkWriter Discard None
                      (Some (ocispec.Digest PushScenario.rootManifest))), None) s'
       /\ (forall q b, disk PushScenario.store0 !! q = Some (File (Raw b)) ->
                       disk s' !! q = Some (File (Raw b)))
       /\ (forall q, q <> indexPath PushScenario.store0 ->
                     disk s' !! q = disk PushScenario.store0 !! q)
       /\ (ociPusher.marksRoot PushScenario.session PushScenario.rootManifest
           = false -> disk s' = disk PushScenario.store0)
       /\ (forall acked b s'',
             Writer_Write
               (mkWriter Discard None
                  (Some (ocispec.Digest PushScenario.rootManifest)))
               acked b s''
             = Ret (acked ++ b, (length b, None)) s'')
       /\ (forall acked,
             Writer_Commit
               (mkWriter Discard None
                  (Some (ocispec.Digest PushScenario.rootManifest))) acked
             = None
             <-> digest.FromBytes acked
                 = ocispec.Digest PushScenario.rootManifest).
Proof.
  assert (blobPresent PushScenario.store0 PushScenario.rootManifest = true)
    as H1 by (vm_compute; reflexivity).
  assert (negb (ociPusher.marksRoot PushScenario.session
                  PushScenario.rootManifest)
          || indexUsable PushScenario.store0 = true)
    as H2 by (vm_compute; reflexivity).
  exact (conj H1 (conj H2
    (Push_present_blob_discards PushScenario.session
       PushScenario.rootManifest PushScenario.store0 H1 H2))).
Defined.


(** ** The order of an ingestion *)

#[global] Instance appended_preorder P : PreOrder (appended P).
Proof.
  split; [intros s; apply appended_refl|].
  intros s1 s2 s3. apply appended_trans.
Qed.

Lemma loadEvents_index descs : forallb isIndexEvent (loadEvents descs) = true.
Proof.
  induction descs as [|d descs IH]; [done|]. unfold loadEvents in *. simpl.
  rewrite forallb_app, IH. by destruct (negb _).
Qed.

Lemma LoadIndex_indexLog `{RangeOrder} : steps (appended isIndexEvent) OCI.LoadIndex.
Proof.
  intros s. rewrite LoadIndex_eq. simpl.
  destruct (nodeAt (disk s) (indexPath s)) as [[|[b|doc]]|]; simpl;
    [| | |destruct (negb _); simpl]; eexists; (split; [reflexivity|]);
    simpl; auto using loadEvents_index.
Qed.

Lemma SaveIndex_indexLog `{RangeOrder} : steps (appended isIndexEvent) OCI.SaveIndex.
Proof.
  intros s. rewrite SaveIndex_eq. simpl.
  destruct (index s) as [idx|]; simpl;
    [|exists []; simpl; by rewrite app_nil_r].
  destruct (createFile _ _ _); simpl; by (exists [EvWriteFile (indexPath s)]).
Qed.

Lemma nameMap_Store_indexLog n d : steps (appended isIndexEvent) (nameMap_Store n d).
Proof. intros s. by (exists [EvStore n]). Qed.

#[global] Hint Resolve LoadIndex_indexLog SaveIndex_indexLog
  nameMap_Store_indexLog : steps.

Lemma FromBytes_split (data : list byte) :
  digest.split (digest.FromBytes data) = Some ("sha256", SHA256.hex data).
Proof. reflexivity. Qed.

Section Ingestion.
Context `{ord : RangeOrder}.

Lemma Add_unfold (oci : artifact.OCI) (ref : string) :
  OCI.Add oci ref
  = match artifact.Layers oci with
    | Err e => ret (ocispec.zero, Some e)
    | Ok layers =>
        let* g := OCI.goLayers None layers in
        let* err := errgroup_Wait g in
        match err with
        | Some e => ret (ocispec.zero, Some e)
        | None => Add_config oci ref
        end
    end.
Proof.
  unfold OCI.Add, Add_config, Add_manifest, Add_register, rootDescriptor.
  destruct (artifact.Layers oci); [|done].
  destruct (artifact.RawConfig oci); [|done].
  destruct (artifact.Manifest oci) as [m|]; [|done].
  by destruct (v1.Marshal m).
Qed.

Lemma Add_manifest_run (oci : artifact.OCI) (ref : string) (s : St) :
  let o := Add_manifest oci ref s in
  (failed o /\ blobStep s (final o))
  \/ exists m mdata s4,
       artifact.Manifest oci = Ok m /\ v1.Marshal m = Ok mdata
       /\ OCI.writeBytes mdata s = Ret None s4
       /\ o = Add_register ref (rootDescriptor m mdata ref) s4.
Proof.
  cbv zeta. unfold Add_manifest.
  destruct (artifact.Manifest oci) as [m|e] eqn:EM; [|left; by split].
  destruct (v1.Marshal m) as [mdata|e] eqn:EJ; [|left; by split].
  pose proof (writeBytes_blobStep mdata s) as HB.
  destruct (OCI.writeBytes mdata s) as [[e|] s4|msg s4] eqn:EW; simpl in HB.
  - left. by rewrite (bind_Ret _ _ _ _ _ EW).
  - right. exists m, mdata, s4. by rewrite (bind_Ret _ _ _ _ _ EW).
  - left. by rewrite (bind_Panic _ _ _ _ _ EW).
Qed.

Lemma Add_config_run (oci : artifact.OCI) (ref : string) (s : St) :
  let o := Add_config oci ref s in
  (failed o /\ blobStep s (final o))
  \/ exists cdata m mdata s3 s4,
       artifact.RawConfig oci = Ok cdata
       /\ artifact.Manifest oci = Ok m /\ v1.Marshal m = Ok mdata
       /\ OCI.writeBytes cdata s = Ret None s3
       /\ OCI.writeBytes mdata s3 = Ret None s4
       /\ o = Add_register ref (rootDescriptor m mdata ref) s4.
Proof.
  cbv zeta. unfold Add_config.
  destruct (artifact.RawConfig oci) as [cdata|e] eqn:EC; [|left; by split].
  pose proof (writeBytes_blobStep cdata s) as HB.
  destruct (OCI.writeBytes cdata s) as [[e|] s3|msg s3] eqn:EW; simpl in HB.
  - left. by rewrite (bind_Ret _ _ _ _ _ EW).
  - rewrite (bind_Ret _ _ _ _ _ EW).
    destruct (Add_manifest_run oci ref s3) as [[HF HS]|(m & mdata & s4 & H)].
    + left. split; [done|]. by etransitivity.
    + right. exists cdata, m, mdata, s3, s4.
      destruct H as (? & ? & ? & ?). by repeat split.
  - left. by rewrite (bind_Panic _ _ _ _ _ EW).
Qed.

Lemma Add_run (oci : artifact.OCI) (ref : string) (s : St) :
  let o := OCI.Add oci ref s in
  (failed o
   /\ (blobStep s (final o)
       \/ exists s1, blobStep s s1 /\ blobStep (waited s1) (final o)))
  \/ registers oci ref s o.
Proof.
  cbv zeta. rewrite Add_unfold. unfold registers.
  destruct (artifact.Layers oci) as [layers|e] eqn:EL;
    [|left; split; [done|by left]].
  pose proof (goLayers_blobStep layers None s) as HG.
  destruct (OCI.goLayers None layers s) as [g s1|msg s1] eqn:EG; simpl in HG.
  2:{ left. rewrite (bind_Panic _ _ _ _ _ EG). split; [done|by left]. }
  rewrite (bind_Ret _ _ _ _ _ EG).
  assert (errgroup_Wait g s1 = Ret g (waited s1)) as EW by reflexivity.
  rewrite (bind_Ret _ _ _ _ _ EW).
  destruct g as [e|].
  { left. split; [done|]. right. exists s1. split; [done|]. simpl. reflexivity. }
  destruct (Add_config_run oci ref (waited s1))
    as [[HF HS]|(cdata & m & mdata & s3 & s4 & H)].
  - left. split; [done|]. right. by exists s1.
  - right. exists layers, cdata, m, mdata, s1, s3, s4.
    destruct H as (? & ? & ? & ? & ? & ?). by repeat split.
Qed.

Lemma Add_register_log (ref : string) (midx : ocispec.Descriptor) (s : St) :
  exists idx,
    log (final (Add_register ref midx s)) = log s ++ EvStore ref :: idx
    /\ forallb isIndexEvent idx = true.
Proof.
  unfold Add_register. rewrite (bind_Ret _ _ _ _ _ (nameMap_Store_eq _ _ _)).
  match goal with |- context [final (?m ?s1)] =>
    assert (steps (appended isIndexEvent) m) as Hm by steps_go;
    destruct (Hm s1) as (idx & Hlog & Hidx)
  end.
  exists idx. split; [|done]. rewrite Hlog. simpl. by rewrite <- app_assoc.
Qed.

Lemma ensureBlob_eq (alg hex : string) (s : St) :
  OCI.ensureBlob alg hex s
  = let dir := blobDir (root s) alg in
    match mkdirAll (rev dir) (disk s) with
    | inl d' =>
        Ret (Ok (joinOnto dir [hex]))
          (mkSt d' (log s ++ [EvMkdirAll dir]) (root s) (index s) (nameMap s))
    | inr e =>
        Ret (if os_IsExist e then Ok (joinOnto dir [hex]) else Err e)
          (withLog (log s ++ [EvMkdirAll dir]) s)
    end.
Proof.
  unfold OCI.ensureBlob, OCI.path. unfold bind at 1. unfold gets at 1.
  unfold bind. rewrite os_MkdirAll_eq. fold (blobDir (root s) alg).
  destruct (mkdirAll _ _) as [d'|e]; simpl; [done|].
  by destruct (os_IsExist e).
Qed.

Lemma writeStream_log (p : Path) (rc : v1.Reader) (s : St) :
  exists evs, log (final (OCI.writeStream p rc s)) = log s ++ EvStat p :: evs.
Proof.
  unfold OCI.writeStream. unfold bind at 1. rewrite os_Stat_eq.
  destruct (nodeAt (disk s) p); simpl; [by exists []|].
  unfold bind at 1. rewrite os_Create_eq.
  destruct (createFile _ _ _) as [d'|e]; simpl.
  2:{ exists [EvCreate p]. by rewrite <- app_assoc. }
  rewrite final_bind.
  unfold io_Copy, File_Write, bind, emit, modify, gets, ret. simpl.
  destruct (d' !! p) as [[|[]]|]; simpl; try destruct (v1.failure rc); simpl;
    eexists; rewrite <- !app_assoc; simpl; reflexivity.
Qed.

Lemma writeBytes_unfold (data : list byte) :
  OCI.writeBytes data
  = (let* r := OCI.ensureBlob "sha256" (SHA256.hex data) in
     match r with
     | Err e => ret (Some e)
     | Ok blobPath =>
         let* w := OCI.writeStream blobPath (v1.mkReader data None) in
         ret w.2
     end).
Proof.
  unfold OCI.writeBytes, digest_Algorithm, digest_Hex.
  rewrite FromBytes_split. reflexivity.
Qed.

(** A successful [writeBytes] has looked at the path of the blob. *)
Lemma writeBytes_stat (data : list byte) (s s' : St) :
  OCI.writeBytes data s = Ret None s' ->
  exists evs, log s' = log s ++ evs
              /\ EvStat (blobPathOf (root s) data) ∈ evs.
Proof.
  rewrite writeBytes_unfold. unfold bind at 1. rewrite ensureBlob_eq.
  fold (blobPathOf (root s) data). cbv zeta.
  set (bp := blobPathOf (root s) data).
  set (rc := v1.mkReader data None).
  assert (forall s1 : St,
            log s1 = log s ++ [EvMkdirAll (blobDir (root s) "sha256")] ->
            (let* w := OCI.writeStream bp rc in ret w.2) s1 = Ret None s' ->
            exists evs, log s' = log s ++ evs /\ EvStat bp ∈ evs) as Hcont.
  { intros s1 Hs1 Hrun.
    destruct (writeStream_log bp rc s1) as (evs & Hevs).
    unfold bind in Hrun.
    destruct (OCI.writeStream bp rc s1) as [w s2|]; [|done].
    injection Hrun as _ <-. simpl in Hevs. rewrite Hevs, Hs1.
    eexists. rewrite <- app_assoc. split; [reflexivity|]. set_solver. }
  destruct (mkdirAll _ _) as [d'|e].
  - by apply Hcont.
  - destruct (os_IsExist e); [by apply Hcont|done].
Qed.
End Ingestion.

(** ** Where the index is changed *)

Lemma forallb_blob_before evs :
  forallb isBlobEvent evs = true -> forallb beforeIndex evs = true.
Proof.
  rewrite !forallb_forall. intros H e He. unfold beforeIndex.
  by rewrite (H e He).
Qed.

Section IndexPosition.
Context `{ord : RangeOrder}.

Lemma markRoot_indexLog (p : ociPusher.t) (d : ocispec.Descriptor) :
  steps (appended isIndexEvent) (ociPusher.markRoot p d).
Proof. unfold ociPusher.markRoot. steps_go. Qed.

End IndexPosition.



(** ** The blobs of the layout *)

Lemma statCreate_eq (bp : Path) (s : St) :
  statCreate bp s
  = match nodeAt (disk s) bp with
    | Some _ => Ret (None, None) (withLog (log s ++ [EvStat bp]) s)
    | None =>
        match createFile (disk s) bp (Raw []) with
        | inl d' =>
            Ret (Some bp, None)
              (mkSt d' (log s ++ [EvStat bp; EvCreate bp]) (root s) (index s)
                 (nameMap s))
        | inr e =>
            Ret (None, Some e) (withLog (log s ++ [EvStat bp; EvCreate bp]) s)
        end
    end.
Proof.
  unfold statCreate. unfold bind at 1. rewrite os_Stat_eq.
  destruct (nodeAt (disk s) bp) eqn:E; [done|].
  unfold bind. rewrite os_Create_eq. simpl.
  destruct (createFile (disk s) bp (Raw [])); unfold ret, withLog; simpl;
    by rewrite <- app_assoc.
Qed.

Lemma writerAt_eq (l : Layout.t) (alg hex : string) (s : St) :
  Layout.writerAt l alg hex s
  = let dir := blobDir (Layout.Root l) alg in
    match mkdirAll (rev dir) (disk s) with
    | inl d' =>
        statCreate (joinOnto dir [hex])
          (mkSt d' (log s ++ [EvMkdirAll dir]) (root s) (index s) (nameMap s))
    | inr e =>
        if os_IsExist e
        then statCreate (joinOnto dir [hex])
               (withLog (log s ++ [EvMkdirAll dir]) s)
        else Ret (None, Some e) (withLog (log s ++ [EvMkdirAll dir]) s)
    end.
Proof.
  unfold Layout.writerAt. unfold bind at 1. rewrite os_MkdirAll_eq.
  fold (blobDir (Layout.Root l) alg). cbv zeta.
  destruct (mkdirAll _ _) as [d'|e]; simpl; [done|].
  by destruct (os_IsExist e).
Qed.

Lemma statCreate_opened (s s1 : St) (bp : Path) evs0 :
  blobStep s s1 -> log s1 = log s ++ evs0 ->
  match statCreate bp s1 with
  | Ret r s' => opened s bp r s'
  | Panic _ _ => False
  end.
Proof.
  intros H1 Hlog1. rewrite statCreate_eq.
  assert (forall evs, forallb isBlobEvent evs = true ->
            blobStep s (withLog (log s1 ++ evs) s1)) as H2.
  { intros evs Hevs. etransitivity; [exact H1|].
    destruct s1; repeat split; auto. by exists evs. }
  destruct (nodeAt (disk s1) bp) eqn:E.
  { split; [by apply H2|done]. }
  destruct (createFile (disk s1) bp (Raw [])) as [d'|e] eqn:C.
  2:{ split; [by apply H2|done]. }
  apply createFile_absent in C; [|done]. subst d'. apply nodeAt_None in E.
  destruct H1 as (HR & HI & HN & HD & HL).
  split; [|split; [done|split; [|split]]].
  - repeat split; simpl; auto.
    + etransitivity; [exact HD|]. by apply insert_subseteq.
    + destruct HL as (evs & -> & Hevs). exists (evs ++ [EvStat bp; EvCreate bp]).
      rewrite app_assoc, forallb_app, Hevs. done.
  - destruct (disk s !! bp) eqn:E'; [|done].
    eapply lookup_weaken in E'; [|exact HD]. congruence.
  - apply lookup_insert_eq.
  - simpl. rewrite Hlog1. eexists. rewrite <- app_assoc.
    split; [reflexivity|]. set_solver.
Qed.

Lemma writerAt_opened (l : Layout.t) (alg hex : string) (s : St) :
  match Layout.writerAt l alg hex s with
  | Ret r s' => opened s (joinOnto (blobDir (Layout.Root l) alg) [hex]) r s'
  | Panic _ _ => False
  end.
Proof.
  rewrite writerAt_eq. cbv zeta.
  set (dir := blobDir (Layout.Root l) alg).
  destruct (mkdirAll (rev dir) (disk s)) as [d'|e] eqn:EM.
  - apply (statCreate_opened s _ _ [EvMkdirAll dir]); [|done].
    destruct s; repeat split; auto; simpl.
    + by eapply mkdirAll_subseteq.
    + appended_now.
  - destruct (os_IsExist e).
    + apply (statCreate_opened s _ _ [EvMkdirAll dir]); [|done].
      destruct s; repeat split; auto. simpl. appended_now.
    + split; [|done]. destruct s; repeat split; auto. simpl. appended_now.
Qed.

(** Writing to a file that was made in the course of the step. *)
Lemma File_Write_opened (s s' : St) (f : Path) (old data : list byte) :
  blobStep s s' -> disk s !! f = None ->
  disk s' !! f = Some (File (Raw old)) ->
  exists s'',
    File_Write (Some f) data s' = Ret (length data, None) s''
    /\ blobStep s s''
    /\ disk s'' !! f = Some (File (Raw (old ++ data)))
    /\ log s'' = log s' ++ [EvWrite f (length data)].
Proof.
  intros (HR & HI & HN & HD & evs & HL & Hevs) Hnew Hf.
  unfold File_Write, bind, emit, modify, gets, ret. simpl. rewrite Hf.
  eexists. split; [reflexivity|]. simpl. repeat split; auto.
  - by apply create_write_subseteq.
  - exists (evs ++ [EvWrite f (length data)]).
    rewrite HL, app_assoc, forallb_app, Hevs. done.
  - apply lookup_insert_eq.
Qed.

Lemma Layout_writeBytes_unfold (l : Layout.t) (data : list byte) :
  Layout.writeBytes l data
  = (let* r := Layout.writerAt l "sha256" (SHA256.hex data) in
     match r.2 with
     | Some e => ret (Some e)
     | None =>
         let* n := File_Write r.1 data in
         match n.2 with
         | Some e => ret (Some e)
         | None => ret None
         end
     end).
Proof.
  unfold Layout.writeBytes, digest_Algorithm, digest_Hex.
  rewrite FromBytes_split. reflexivity.
Qed.

(** [Layout.writeBytes] only adds to the blobs, and when it succeeds it
    has looked at the path of the blob. *)
Lemma Layout_writeBytes_spec (l : Layout.t) (data : list byte) (s : St) :
  blobStep s (final (Layout.writeBytes l data s))
  /\ forall s', Layout.writeBytes l data s = Ret None s' ->
       exists evs, log s' = log s ++ evs
                   /\ EvStat (blobPathOf (Layout.Root l) data) ∈ evs.
Proof.
  rewrite Layout_writeBytes_unfold.
  pose proof (writerAt_opened l "sha256" (SHA256.hex data) s) as HW.
  fold (blobPathOf (Layout.Root l) data) in HW.
  destruct (Layout.writerAt _ _ _ s) as [[[f|] [e|]] s1|] eqn:EW; try done;
    destruct HW as [HB HW]; try done;
    rewrite (bind_Ret _ _ _ _ _ EW); simpl; try done.
  destruct HW as (-> & Hnew & Hf & evs & Hlog & Hin).
  destruct (File_Write_opened s s1 _ [] data HB Hnew Hf)
    as (s'' & HFW & HB' & _ & Hlog').
  rewrite (bind_Ret _ _ _ _ _ HFW). simpl. split; [done|].
  intros s' [= <-]. rewrite Hlog', Hlog. eexists. rewrite <- app_assoc.
  split; [reflexivity|]. set_solver.
Qed.

Lemma Layout_writeBytes_blobStep (l : Layout.t) (data : list byte) :
  steps blobStep (Layout.writeBytes l data).
Proof. intros s. apply Layout_writeBytes_spec. Qed.

Lemma layerJob_blobStep (l : Layout.t) (layer : v1.Layer) :
  steps blobStep (Layout.layerJob l layer).
Proof.
  intros s. unfold Layout.layerJob.
  destruct (v1.Digest layer) as [h|e]; [|reflexivity].
  pose proof (writerAt_opened l (v1.Algorithm h) (v1.Hex h) s) as HW.
  destruct (Layout.writerAt _ _ _ s) as [[[f|] [e|]] s1|] eqn:EW; try done;
    destruct HW as [HB HW]; try done;
    rewrite (bind_Ret _ _ _ _ _ EW); simpl; try done.
  destruct HW as (-> & Hnew & Hf & _).
  set (bp := joinOnto _ _) in *.
  assert (File_Stat (Some bp) s1
          = Ret (Some 0%Z, None) (withLog (log s1 ++ [EvStat bp]) s1)) as HS.
  { unfold File_Stat, bind, emit, modify, gets, ret. simpl. by rewrite Hf. }
  rewrite (bind_Ret _ _ _ _ _ HS). simpl.
  set (s2 := withLog (log s1 ++ [EvStat bp]) s1).
  assert (blobStep s s2) as HB2.
  { etransitivity; [exact HB|]. destruct s1; repeat split; auto.
    simpl. appended_now. }
  destruct (v1.Compressed layer) as [rc|e]; [|done].
  destruct (File_Write_opened s s2 bp [] (v1.pending rc) HB2 Hnew)
    as (s'' & HFW & HB' & _); [by destruct s1|].
  rewrite final_bind. unfold io_Copy.
  rewrite (bind_Ret _ _ _ _ _ HFW). simpl.
  by destruct (v1.failure rc).
Qed.

Lemma Layout_goLayers_blobStep (l : Layout.t) layers g :
  steps blobStep (Layout.goLayers l g layers).
Proof.
  revert g. induction layers as [|layer rest IH]; intros g; simpl.
  - steps_go.
  - unfold errgroup_Go. pose proof (layerJob_blobStep l layer). steps_go.
Qed.

(** ** The order of the two ingestion pipelines *)

Lemma blobStep_log_eq (s s' : St) evs :
  blobStep s s' -> log s' = log s ++ evs -> forallb isBlobEvent evs = true.
Proof.
  intros (_ & _ & _ & _ & evs' & Hlog & Hevs) Hlog'.
  rewrite Hlog in Hlog'. by apply app_inv_head in Hlog' as <-.
Qed.

Section Order.
Context `{ord : RangeOrder}.

Lemma writeBytes_ok (data : list byte) (s s' : St) :
  OCI.writeBytes data s = Ret None s' ->
  root s' = root s
  /\ exists evs, log s' = log s ++ evs /\ forallb isBlobEvent evs = true
                 /\ EvStat (blobPathOf (root s) data) ∈ evs.
Proof.
  intros Hrun. pose proof (writeBytes_blobStep data s) as HB.
  rewrite Hrun in HB. simpl in HB.
  destruct (writeBytes_stat data s s' Hrun) as (evs & Hlog & Hin).
  split; [apply HB|]. exists evs. split; [done|]. split; [|done].
  by eapply blobStep_log_eq.
Qed.

Lemma Layout_writeBytes_ok (l : Layout.t) (data : list byte) (s s' : St) :
  Layout.writeBytes l data s = Ret None s' ->
  exists evs, log s' = log s ++ evs /\ forallb isBlobEvent evs = true
              /\ EvStat (blobPathOf (Layout.Root l) data) ∈ evs.
Proof.
  intros Hrun. destruct (Layout_writeBytes_spec l data s) as [HB HS].
  rewrite Hrun in HB. simpl in HB.
  destruct (HS s' Hrun) as (evs & Hlog & Hin).
  exists evs. split; [done|]. split; [|done]. by eapply blobStep_log_eq.
Qed.

Lemma AddIndex_log (idx : ocispec.Descriptor) (s : St) :
  exists evs,
    log (final (Layout.AddIndex idx s)) = log s ++ EvStore (refName idx) :: evs
    /\ forallb isIndexEvent evs = true.
Proof.
  unfold Layout.AddIndex. rewrite (bind_Ret _ _ _ _ _ (nameMap_Store_eq _ _ _)).
  destruct (SaveIndex_indexLog
              (mkSt (disk s) (log s ++ [EvStore (refName idx)]) (root s)
                 (index s) (<[refName idx := idx]> (nameMap s))))
    as (evs & Hlog & Hevs).
  exists evs. split; [|done]. unfold refName in *. rewrite Hlog. simpl.
  by rewrite <- app_assoc.
Qed.

Lemma refName_rootDescriptor m mdata ref : refName (rootDescriptor m mdata ref) = ref.
Proof. unfold refName, ocispec.annotation. simpl. by rewrite lookup_singleton_eq. Qed.

Lemma AddOCI_run (l : Layout.t) (oci : artifact.OCI) (ref : string) (s : St) :
  let o := Layout.AddOCI l oci ref s in
  (failed o
   /\ (blobStep s (final o)
       \/ exists s1, blobStep s s1 /\ final o = waited s1))
  \/ updatesIndex l oci ref s o.
Proof.
  cbv zeta. unfold Layout.AddOCI, updatesIndex.
  fold (cachedArtifact l oci). fold rootDescriptor.
  destruct (artifact.Manifest (cachedArtifact l oci)) as [m|e] eqn:EM;
    [|left; split; [done|by left]].
  destruct (v1.Marshal m) as [mdata|e] eqn:EJ; [|left; split; [done|by left]].
  pose proof (Layout_writeBytes_blobStep l mdata s) as H1.
  destruct (Layout.writeBytes l mdata s) as [[e|] s1|msg s1] eqn:E1;
    simpl in H1;
    [rewrite (bind_Ret _ _ _ _ _ E1); left; split; [done|by left]
    | rewrite (bind_Ret _ _ _ _ _ E1)
    | rewrite (bind_Panic _ _ _ _ _ E1); left; split; [done|by left]].
  destruct (artifact.RawConfig (cachedArtifact l oci)) as [cdata|e] eqn:EC;
    [|left; split; [done|by left]].
  pose proof (Layout_writeBytes_blobStep l cdata s1) as H2.
  assert (forall s2, blobStep s1 s2 -> blobStep s s2) as Hto1
    by (intros; by etransitivity).
  destruct (Layout.writeBytes l cdata s1) as [[e|] s2|msg s2] eqn:E2;
    simpl in H2;
    [rewrite (bind_Ret _ _ _ _ _ E2); left; split; [done|left; by apply Hto1]
    | rewrite (bind_Ret _ _ _ _ _ E2)
    | rewrite (bind_Panic _ _ _ _ _ E2); left; split; [done|left; by apply Hto1]].
  destruct (artifact.Layers (cachedArtifact l oci)) as [layers|e] eqn:EL;
    [|left; split; [done|left; by apply Hto1]].
  pose proof (Layout_goLayers_blobStep l layers None s2) as H3.
  assert (forall s3, blobStep s2 s3 -> blobStep s s3) as Hto2
    by (intros; apply Hto1; by etransitivity).
  destruct (Layout.goLayers l None layers s2) as [g s3|msg s3] eqn:E3;
    simpl in H3.
  2:{ rewrite (bind_Panic _ _ _ _ _ E3). left. split; [done|left; by apply Hto2]. }
  rewrite (bind_Ret _ _ _ _ _ E3).
  assert (errgroup_Wait g s3 = Ret g (waited s3)) as EW by reflexivity.
  rewrite (bind_Ret _ _ _ _ _ EW).
  destruct g as [e|].
  { left. split; [done|]. right. exists s3. split; [by apply Hto2|done]. }
  right. by exists m, mdata, cdata, layers, s1, s2, s3.
Qed.

End Order.


(** ** Ingestion into a store that is ready *)

Lemma append_cons (x : ascii) (a b : string) :
  String.append (String x a) b = String x (String.append a b).
Proof. reflexivity. Qed.

Lemma append_nil_r (a : string) : String.append a EmptyString = a.
Proof. induction a as [|x a IH]; [done|]. by rewrite append_cons, IH. Qed.

Lemma append_assoc (a b c : string) :
  String.append (String.append a b) c = String.append a (String.append b c).
Proof. induction a as [|x a IH]; [done|]. by rewrite !append_cons, IH. Qed.

Lemma splitSlash_noSlash (s cur : string) :
  noSlash s = true -> splitSlash cur s = [String.append cur s].
Proof.
  revert cur. induction s as [|c s IH]; intros cur Hs; simpl.
  - by rewrite append_nil_r.
  - simpl in Hs. apply andb_true_iff in Hs as [Hc Hs].
    apply negb_true_iff in Hc. rewrite Hc, (IH _ Hs), append_assoc. done.
Qed.

Lemma cleanStep_simple (acc : Path) (c : string) :
  simpleName c = true -> cleanStep acc c = acc ++ [c].
Proof.
  unfold simpleName, cleanStep. intros H.
  apply andb_true_iff in H as [H _]. apply negb_true_iff in H.
  apply orb_false_iff in H as [H H2]. rewrite H, H2. done.
Qed.

Lemma joinOnto_simple (cs : list string) (base : Path) :
  forallb simpleName cs = true -> joinOnto base cs = base ++ cs.
Proof.
  revert base. induction cs as [|c cs IH]; intros base H; simpl.
  - unfold joinOnto. simpl. by rewrite app_nil_r.
  - simpl in H. apply andb_true_iff in H as [Hc H].
    unfold joinOnto in *. simpl. rewrite fold_left_app.
    assert (noSlash c = true) as Hn
      by (unfold simpleName in Hc; by apply andb_true_iff in Hc as [_ ?]).
    rewrite (splitSlash_noSlash _ _ Hn). simpl.
    rewrite (cleanStep_simple _ _ Hc), (IH _ H), <- app_assoc. done.
Qed.

Lemma joinOnto_app (base : Path) (xs ys : list string) :
  joinOnto base (xs ++ ys) = joinOnto (joinOnto base xs) ys.
Proof. unfold joinOnto. by rewrite flat_map_app, fold_left_app. Qed.

Lemma filepath_Join_under (r : string) (cs : list string) :
  forallb simpleName cs = true -> filepath_Join (r :: cs) = storeDir r ++ cs.
Proof.
  intros H. unfold filepath_Join, storeDir.
  change (r :: cs) with ([r] ++ cs). rewrite joinOnto_app.
  by apply joinOnto_simple.
Qed.

Lemma hexDigit_hexChar (n : Z) : hexChar (SHA256.hexDigit n) = true.
Proof.
  unfold SHA256.hexDigit.
  destruct (nth_in_or_default (Z.to_nat n)
              (list_ascii_of_string "0123456789abcdef") "0"%char) as [Hin | ->];
    [|reflexivity].
  revert Hin. generalize (nth (Z.to_nat n) (list_ascii_of_string "0123456789abcdef") "0"%char).
  intros a Hin. simpl in Hin.
  repeat (destruct Hin as [<-|Hin]; [reflexivity|]). destruct Hin.
Qed.

Lemma hexChars_app (a b : string) :
  hexChars (String.append a b) = hexChars a && hexChars b.
Proof. induction a as [|c a IH]; simpl; [done|]. by rewrite IH, andb_assoc. Qed.

Lemma hexWord_hexChars (n : nat) (x : Z) : hexChars (SHA256.hexWord n x) = true.
Proof. induction n as [|n IH]; simpl; [done|]. by rewrite hexDigit_hexChar, IH. Qed.

Lemma hex_hexChars (data : list byte) : hexChars (SHA256.hex data) = true.
Proof.
  unfold SHA256.hex. induction (SHA256.digestWords data) as [|w ws IH]; [done|].
  cbn [fold_right]. rewrite hexChars_app, IH, hexWord_hexChars. done.
Qed.

Lemma round_length (st : list Z) kw : length (SHA256.round st kw) = length st.
Proof.
  unfold SHA256.round.
  do 9 (destruct st as [|? st]; try reflexivity).
Qed.

Lemma compress_length (st block : list Z) :
  length (SHA256.compress st block) = length st.
Proof.
  unfold SHA256.compress. rewrite length_map, length_combine.
  assert (forall l st0, length (fold_left SHA256.round l st0) = length st0) as Hf.
  { induction l as [|a l IH]; intros st0; simpl; [done|].
    by rewrite IH, round_length. }
  rewrite Hf. lia.
Qed.

Lemma blocks_length (fuel : nat) (ws st : list Z) :
  length (SHA256.blocks fuel ws st) = length st.
Proof.
  revert ws st. induction fuel as [|f IH]; intros ws st; simpl; [done|].
  destruct ws; [done|]. by rewrite IH, compress_length.
Qed.

Lemma digestWords_length (data : list byte) : length (SHA256.digestWords data) = 8.
Proof. unfold SHA256.digestWords. by rewrite blocks_length. Qed.

Lemma hex_length (data : list byte) : String.length (SHA256.hex data) = 64.
Proof.
  unfold SHA256.hex. pose proof (digestWords_length data) as Hl.
  assert (forall ws, String.length
            (fold_right (fun w acc => String.append (SHA256.hexWord 8 w) acc)
               EmptyString ws) = 8 * length ws) as Hf.
  { induction ws as [|w ws IH]; [done|]. cbn [fold_right length].
    assert (forall a b, String.length (String.append a b)
                        = String.length a + String.length b) as Ha.
    { induction a as [|c a IHa]; intros b; simpl; [done|]. by rewrite IHa. }
    rewrite Ha, IH. simpl. lia. }
  rewrite Hf, Hl. done.
Qed.

Lemma hexChars_noSlash (s : string) : hexChars s = true -> noSlash s = true.
Proof.
  induction s as [|c s IH]; simpl; [done|]. intros H.
  apply andb_true_iff in H as [Hc H]. rewrite (IH H), andb_true_r.
  unfold hexChar in Hc. apply existsb_exists in Hc as (x & Hin & Hx).
  apply Ascii.eqb_eq in Hx as ->. simpl in Hin.
  repeat (destruct Hin as [<-|Hin]; [reflexivity|]). destruct Hin.
Qed.

Lemma hex_simple (data : list byte) : simpleName (SHA256.hex data) = true.
Proof.
  pose proof (hex_hexChars data) as Hc. pose proof (hex_length data) as Hl.
  unfold simpleName. rewrite (hexChars_noSlash _ Hc), andb_true_r.
  destruct (SHA256.hex data) as [|c s]; [discriminate|].
  simpl in Hc. apply andb_true_iff in Hc as [Hc _].
  apply negb_true_iff.
  destruct (Ascii.eqb_spec c "."%char) as [->|Hne]; [discriminate|].
  simpl. destruct c as [[] [] [] [] [] [] [] []]; try reflexivity; try done.
Qed.

Lemma blobPathOf_eq (r : string) (data : list byte) :
  blobPathOf r data = storeDir r ++ ["blobs"; "sha256"; SHA256.hex data].
Proof.
  unfold blobPathOf. rewrite (filepath_Join_under r ["blobs"; "sha256"]) by done.
  rewrite joinOnto_simple by (simpl; by rewrite hex_simple).
  by rewrite <- app_assoc.
Qed.

Lemma grows_refl s : grows s s.
Proof. repeat split; try done. intros q x Hq. by left. Qed.

Lemma grows_trans s1 s2 s3 : grows s1 s2 -> grows s2 s3 -> grows s1 s3.
Proof.
  intros (A1 & A2 & A3 & A4 & A5) (B1 & B2 & B3 & B4 & B5).
  split; [congruence|]. split; [congruence|]. split; [congruence|].
  split; [by etrans|].
  intros q x Hq. destruct (B5 q x Hq) as [H|H].
  - by apply A5.
  - right. by rewrite <- A1.
Qed.

Lemma nodeAt_snoc (d : FS) (p : Path) (x : string) :
  nodeAt d (p ++ [x]) = d !! (p ++ [x]).
Proof. unfold nodeAt. by destruct p. Qed.

Lemma grows_lookup (s s' : St) (q : Path) :
  grows s s' -> (forall x, ~ blobNode (root s) q x) ->
  disk s' !! q = disk s !! q.
Proof.
  intros (_ & _ & _ & Hsub & Hnew) Hno.
  destruct (disk s' !! q) as [x|] eqn:E.
  - destruct (Hnew _ _ E) as [H|H]; [by rewrite H|]. by destruct (Hno x).
  - destruct (disk s !! q) as [y|] eqn:E2; [|done].
    by rewrite (lookup_weaken _ _ _ _ E2 Hsub) in E.
Qed.

Lemma grows_short (s s' : St) (q : Path) :
  grows s s' -> length q <= length (storeDir (root s)) ->
  nodeAt (disk s') q = nodeAt (disk s) q.
Proof.
  intros Hg Hlen. destruct q as [|c q]; [done|].
  apply (grows_lookup s s' (c :: q) Hg).
  intros x [[_ [H|[alg H]]]|(alg & hex & b & H & _)];
    apply (f_equal length) in H; rewrite length_app in H; simpl in *; lia.
Qed.

Lemma indexPath_eq (s : St) : indexPath s = storeDir (root s) ++ ["index.json"].
Proof. unfold indexPath. by rewrite filepath_Join_under. Qed.

Lemma grows_indexPath (s s' : St) :
  grows s s' -> disk s' !! indexPath s = disk s !! indexPath s.
Proof.
  intros Hg. apply (grows_lookup s s' _ Hg). rewrite indexPath_eq.
  intros x [[_ [H|[alg H]]]|(alg & hex & b & H & _)].
  - apply app_inv_head in H. discriminate.
  - apply (f_equal length) in H. rewrite !length_app in H. simpl in H. lia.
  - apply (f_equal length) in H. rewrite !length_app in H. simpl in H. lia.
Qed.

Lemma parent_snoc (p : Path) (x : string) : parent (p ++ [x]) = p.
Proof. unfold parent. apply removelast_last. Qed.

Lemma existsb_eq_in {A} (f g : A -> bool) (l : list A) :
  (forall x, In x l -> f x = g x) -> existsb f l = existsb g l.
Proof.
  induction l as [|a l IH]; intros H; simpl; [done|].
  rewrite (H a) by (by left). rewrite IH; [done|]. intros x Hx. apply H. by right.
Qed.

Lemma missingError_short (s s' : St) (p : Path) :
  grows s s' -> length p <= S (length (storeDir (root s))) ->
  missingError (disk s') p = missingError (disk s) p.
Proof.
  intros Hg Hlen. unfold missingError.
  rewrite (existsb_eq_in _ (fun q => isFile (nodeAt (disk s) q))); [done|].
  intros q Hq. unfold ancestors in Hq. apply in_map_iff in Hq as (n & <- & Hn).
  apply in_seq in Hn. simpl. rewrite (grows_short s s' _ Hg); [done|].
  rewrite length_take. lia.
Qed.

Lemma grows_usable (s s' : St) :
  grows s s' -> indexUsable s' = indexUsable s.
Proof.
  intros Hg. pose proof Hg as (Hr & _).
  unfold indexUsable. rewrite (indexPath_lookup s'), (indexPath_lookup s).
  assert (indexPath s' = indexPath s) as -> by (unfold indexPath; by rewrite Hr).
  rewrite (grows_indexPath _ _ Hg).
  rewrite (missingError_short s s' _ Hg)
    by (rewrite indexPath_eq, length_app; simpl; lia).
  rewrite indexPath_eq, parent_snoc, (grows_short s s' _ Hg) by done.
  done.
Qed.

Lemma nodeAt_lookup (d : FS) (q : Path) : q <> [] -> nodeAt d q = d !! q.
Proof. by destruct q. Qed.

Lemma grows_dirOrAbsent (s s' : St) (q : Path) :
  grows s s' -> q <> [] -> (forall x, blobNode (root s) q x -> x = Dir) ->
  dirOrAbsent (nodeAt (disk s) q) = true ->
  dirOrAbsent (nodeAt (disk s') q) = true.
Proof.
  intros (_ & _ & _ & _ & Hnew) Hq Hdir. rewrite !nodeAt_lookup by done.
  destruct (disk s' !! q) as [x|] eqn:E; [|done].
  destruct (Hnew _ _ E) as [Hx|Hx]; [by rewrite Hx|].
  by rewrite (Hdir _ Hx).
Qed.

Lemma grows_writable (s s' : St) (alg : string) :
  grows s s' -> blobsWritable s alg = true -> blobsWritable s' alg = true.
Proof.
  intros Hg. pose proof Hg as (Hr & _).
  unfold blobsWritable. rewrite Hr, (grows_short s s' _ Hg) by done.
  intros H. apply andb_true_iff in H as [H H3]. apply andb_true_iff in H as [H H2].
  rewrite H. simpl. apply andb_true_iff. split.
  - apply (grows_dirOrAbsent s s' _ Hg); [by destruct (storeDir (root s))| |done].
    intros x [[-> _]|(a & h & b & Hq & _)]; [done|].
    apply (f_equal length) in Hq. rewrite !length_app in Hq. simpl in Hq. lia.
  - apply (grows_dirOrAbsent s s' _ Hg); [by destruct (storeDir (root s))| |done].
    intros x [[-> _]|(a & h & b & Hq & _)]; [done|].
    apply (f_equal length) in Hq. rewrite !length_app in Hq. simpl in Hq. lia.
Qed.

Lemma mkdirAll_snoc (p : Path) (x : string) (d : FS) :
  mkdirAll (rev (p ++ [x])) d
  = match nodeAt d (p ++ [x]) with
    | Some Dir => inl d
    | Some (File _) => inr ErrNotDir
    | None =>
        match mkdirAll (rev p) d with
        | inl d' => mkdir d' (p ++ [x])
        | inr e => inr e
        end
    end.
Proof.
  rewrite rev_app_distr. cbn [rev app]. cbn [mkdirAll].
  cbn [rev]. by rewrite rev_involutive.
Qed.

(** What [os.MkdirAll] of the directory of an algorithm does in a store
    whose directories are not in the way. *)
Lemma mkdirAll_blobDir (d : FS) (R : Path) (alg : string) :
  isDir (nodeAt d R) = true ->
  dirOrAbsent (nodeAt d (R ++ ["blobs"])) = true ->
  dirOrAbsent (nodeAt d (R ++ ["blobs"; alg])) = true ->
  exists d',
    mkdirAll (rev (R ++ ["blobs"; alg])) d = inl d'
    /\ d' !! (R ++ ["blobs"; alg]) = Some Dir
    /\ d ⊆ d'
    /\ forall q x, d' !! q = Some x ->
         d !! q = Some x
         \/ (x = Dir /\ (q = R ++ ["blobs"] \/ q = R ++ ["blobs"; alg])).
Proof.
  intros HR Hb Ha.
  assert (nodeAt d R = Some Dir) as HR' by (by destruct (nodeAt d R) as [[]|]).
  change (R ++ ["blobs"; alg]) with (R ++ ["blobs"] ++ [alg]) in *.
  rewrite app_assoc in *. rewrite mkdirAll_snoc.
  rewrite nodeAt_snoc in Ha |- *.
  destruct (d !! ((R ++ ["blobs"]) ++ [alg])) as [[|c]|] eqn:Ealg; [|done|].
  { exists d. repeat split; try done. intros q x Hq. by left. }
  rewrite mkdirAll_snoc. rewrite nodeAt_snoc in Hb |- *.
  destruct (d !! (R ++ ["blobs"])) as [[|c]|] eqn:Eb; [|done|].
  - unfold mkdir. rewrite nodeAt_snoc, Ealg, parent_snoc, nodeAt_snoc, Eb.
    eexists. split; [done|]. split; [by rewrite lookup_insert_eq|].
    split; [by apply insert_subseteq|].
    intros q x Hq. destruct (decide (q = (R ++ ["blobs"]) ++ [alg])) as [->|Hne].
    + rewrite lookup_insert_eq in Hq. injection Hq as <-. right. split; [done|by right].
    + rewrite lookup_insert_ne in Hq by done. by left.
  - rewrite (mkdirAll_dir (rev R) d) by (by rewrite rev_involutive).
    cbv beta iota.
    assert (mkdir d (R ++ ["blobs"]) = inl (<[R ++ ["blobs"] := Dir]> d)) as ->.
    { unfold mkdir. by rewrite nodeAt_snoc, Eb, parent_snoc, HR'. }
    unfold mkdir. rewrite nodeAt_snoc.
    assert (R ++ ["blobs"] <> (R ++ ["blobs"]) ++ [alg]) as Hne.
    { intros H. apply (f_equal length) in H. rewrite !length_app in H.
      simpl in H. lia. }
    rewrite lookup_insert_ne, Ealg, parent_snoc, nodeAt_snoc, lookup_insert_eq by done.
    eexists. split; [done|]. split; [by rewrite lookup_insert_eq|].
    split.
    { etrans; [apply (insert_subseteq d (R ++ ["blobs"]) Dir Eb)|].
      apply insert_subseteq. by rewrite lookup_insert_ne. }
    intros q x Hq. destruct (decide (q = (R ++ ["blobs"]) ++ [alg])) as [->|Hq1].
    + rewrite lookup_insert_eq in Hq. injection Hq as <-. right. split; [done|by right].
    + rewrite lookup_insert_ne in Hq by done.
      destruct (decide (q = R ++ ["blobs"])) as [->|Hq2].
      * rewrite lookup_insert_eq in Hq. injection Hq as <-. right. split; [done|by left].
      * rewrite lookup_insert_ne in Hq by done. by left.
Qed.

Section Ready.
Context `{ord : RangeOrder}.

(** [writeStream] to a path that is not there, in a directory that is. *)
Lemma writeStream_absent (p : Path) (rc : v1.Reader) (s : St) :
  nodeAt (disk s) p = None -> nodeAt (disk s) (parent p) = Some Dir ->
  OCI.writeStream p rc s
  = Ret (v1.mkReader [] (v1.failure rc), v1.failure rc)
      (mkSt (<[p := File (Raw (v1.pending rc))]> (disk s))
         (log s ++ [EvStat p; EvCreate p; EvWrite p (length (v1.pending rc))])
         (root s) (index s) (nameMap s)).
Proof.
  intros Hp Hpar. unfold OCI.writeStream.
  rewrite (bind_Ret _ _ _ _ _ (os_Stat_eq p s)). rewrite Hp.
  unfold bind at 1. rewrite os_Create_eq.
  unfold createFile. simpl. rewrite Hp, Hpar. simpl.
  unfold io_Copy, File_Write, bind, emit, modify, gets, ret. simpl.
  rewrite lookup_insert_eq. simpl. rewrite insert_insert_eq.
  rewrite <- !app_assoc. simpl.
  by destruct (v1.failure rc).
Qed.

Lemma ensureBlob_ready (alg hex : string) (s : St) :
  blobsWritable s alg = true ->
  exists s1,
    OCI.ensureBlob alg hex s
    = Ret (Ok (joinOnto (storeDir (root s) ++ ["blobs"; alg]) [hex])) s1
    /\ grows s s1
    /\ disk s1 !! (storeDir (root s) ++ ["blobs"; alg]) = Some Dir
    /\ forall h, disk s1 !! (storeDir (root s) ++ ["blobs"; alg; h])
                 = disk s !! (storeDir (root s) ++ ["blobs"; alg; h]).
Proof.
  intros H. unfold blobsWritable in H.
  apply andb_true_iff in H as [H H3]. apply andb_true_iff in H as [H H2].
  apply andb_true_iff in H as [H0 H1].
  rewrite ensureBlob_eq. unfold blobDir.
  rewrite (filepath_Join_under (root s) ["blobs"; alg])
    by (simpl; by rewrite H0).
  cbv zeta.
  destruct (mkdirAll_blobDir _ _ alg H1 H2 H3) as (d' & -> & Hd & Hsub & Hnew).
  eexists. split; [done|]. split; [|split; [done|]].
  - split; [done|]. split; [done|]. split; [done|]. split; [done|].
    intros q x Hq. simpl in Hq.
    destruct (Hnew _ _ Hq) as [Hx|[-> Hx]]; [by left|].
    right. left. split; [done|].
    destruct Hx as [->| ->]; [by left|right; by exists alg].
  - intros h. simpl.
    destruct (d' !! (storeDir (root s) ++ ["blobs"; alg; h])) as [x|] eqn:E.
    + destruct (Hnew _ _ E) as [Hx|[_ Hx]]; [by rewrite Hx|]. exfalso.
      destruct Hx as [Hx|Hx]; apply (f_equal length) in Hx;
        rewrite !length_app in Hx; simpl in Hx; lia.
    + destruct (disk s !! (storeDir (root s) ++ ["blobs"; alg; h])) as [y|] eqn:E2;
        [|done].
      by rewrite (lookup_weaken _ _ _ _ E2 Hsub) in E.
Qed.

Lemma writeStream_ready (alg hex : string) (rc : v1.Reader) (s : St) :
  simpleName hex = true ->
  disk s !! (storeDir (root s) ++ ["blobs"; alg]) = Some Dir ->
  let bp := storeDir (root s) ++ ["blobs"; alg; hex] in
  exists r s2,
    OCI.writeStream bp rc s = Ret r s2
    /\ grows s s2
    /\ is_Some (disk s2 !! bp)
    /\ (r.2 = None \/ (disk s !! bp = None /\ r.2 = v1.failure rc))
    /\ (disk s !! bp = None -> disk s2 !! bp = Some (File (Raw (v1.pending rc)))).
Proof.
  intros Hhex Hdir bp.
  assert (bp = (storeDir (root s) ++ ["blobs"; alg]) ++ [hex]) as Hbp
    by (unfold bp; by rewrite <- app_assoc).
  pose proof (writeStream_blobStep bp rc s) as HB.
  destruct (disk s !! bp) as [x|] eqn:E.
  - assert (is_Some (nodeAt (disk s) bp)) as Hs
      by (rewrite Hbp, nodeAt_snoc, <- Hbp, E; by eexists).
    rewrite (writeStream_present _ _ _ Hs) in HB |- *.
    eexists _, _. split; [done|]. split; [|split; [|split; [by left|done]]].
    + repeat split; try done. intros q y Hq. by left.
    + simpl. rewrite E. by eexists.
  - assert (nodeAt (disk s) bp = None) as Hn by (by rewrite Hbp, nodeAt_snoc, <- Hbp).
    assert (nodeAt (disk s) (parent bp) = Some Dir) as Hp.
    { rewrite Hbp, parent_snoc. rewrite nodeAt_lookup; [done|].
      by destruct (storeDir (root s)). }
    rewrite (writeStream_absent _ _ _ Hn Hp) in HB |- *.
    eexists _, _. split; [done|]. simpl in HB.
    split; [|split; [|split; [by right|]]].
    + destruct HB as (A & B & C & D & _).
      split; [done|]. split; [done|]. split; [done|]. split; [done|].
      intros q y Hq. simpl in Hq.
      destruct (decide (q = bp)) as [->|Hne].
      * rewrite lookup_insert_eq in Hq. injection Hq as <-.
        right. right. by exists alg, hex, (v1.pending rc).
      * rewrite lookup_insert_ne in Hq by done. by left.
    + simpl. rewrite lookup_insert_eq. by eexists.
    + intros _. simpl. by rewrite lookup_insert_eq.
Qed.

Lemma storeBlob_ready (alg hex : string) (rc : v1.Reader) (s : St) :
  blobsWritable s alg = true -> simpleName hex = true ->
  noFailure rc = true ->
  let bp := storeDir (root s) ++ ["blobs"; alg; hex] in
  exists s',
    storeBlob alg hex rc s = Ret None s'
    /\ grows s s'
    /\ is_Some (disk s' !! bp)
    /\ (disk s !! bp = None -> disk s' !! bp = Some (File (Raw (v1.pending rc)))).
Proof.
  intros Hw Hhex Hrc bp.
  destruct (ensureBlob_ready alg hex s Hw) as (s1 & Hrun & Hg & Hdir & Hkeep).
  pose proof Hg as (Hr & _).
  unfold storeBlob. rewrite (bind_Ret _ _ _ _ _ Hrun).
  rewrite joinOnto_simple by (simpl; by rewrite Hhex).
  rewrite <- app_assoc. simpl. rewrite <- Hr in Hdir |- *.
  destruct (writeStream_ready alg hex rc s1 Hhex Hdir)
    as (r & s2 & Hrun2 & Hg2 & Hsome & Herr & Hcont).
  rewrite (bind_Ret _ _ _ _ _ Hrun2). rewrite Hr in *.
  exists s2. split.
  { unfold ret. f_equal. unfold noFailure in Hrc.
    destruct Herr as [->|[_ ->]]; [done|]. by destruct (v1.failure rc). }
  split; [by eapply grows_trans|]. split; [done|].
  intros Habs. apply Hcont. by rewrite Hkeep.
Qed.

Lemma writeBytes_ready (data : list byte) (s : St) :
  blobsWritable s "sha256" = true ->
  exists s',
    OCI.writeBytes data s = Ret None s'
    /\ grows s s'
    /\ is_Some (disk s' !! blobPathOf (root s) data)
    /\ (disk s !! blobPathOf (root s) data = None ->
        disk s' !! blobPathOf (root s) data = Some (File (Raw data))).
Proof.
  intros Hw. rewrite writeBytes_unfold, blobPathOf_eq.
  apply (storeBlob_ready "sha256" (SHA256.hex data) (v1.mkReader data None) s Hw).
  - apply hex_simple.
  - done.
Qed.

Lemma writeLayer_ready (layer : v1.Layer) (s : St) :
  layerReady s layer = true ->
  exists s',
    OCI.writeLayer layer s = Ret None s'
    /\ grows s s'
    /\ is_Some (disk s' !! layerPath (root s) layer).
Proof.
  unfold layerReady, layerPath, OCI.writeLayer.
  destruct (v1.Digest layer) as [h|]; [|done].
  destruct (v1.Compressed layer) as [rc|] eqn:EC; [|done].
  intros H. apply andb_true_iff in H as [H H3]. apply andb_true_iff in H as [H1 H2].
  destruct (storeBlob_ready _ _ rc s H3 H1 H2) as (s' & Hrun & Hg & Hs & _).
  exists s'. split; [|done]. rewrite <- Hrun. unfold storeBlob.
  unfold bind. destruct (OCI.ensureBlob _ _ s) as [[bp|e] s1|]; try done.
Qed.

Lemma grows_layerReady (s s' : St) (layer : v1.Layer) :
  grows s s' -> layerReady s layer = true -> layerReady s' layer = true.
Proof.
  intros Hg. unfold layerReady.
  destruct (v1.Digest layer) as [h|]; [|done].
  destruct (v1.Compressed layer) as [rc|]; [|done].
  intros H. apply andb_true_iff in H as [H H3]. rewrite H. simpl.
  by apply (grows_writable s s').
Qed.

Lemma goLayers_ready (layers : list v1.Layer) (g : option error) (s : St) :
  forallb (layerReady s) layers = true ->
  exists s',
    OCI.goLayers g layers s = Ret g s'
    /\ grows s s'
    /\ Forall (fun layer => is_Some (disk s' !! layerPath (root s) layer)) layers.
Proof.
  revert g s. induction layers as [|layer layers IH]; intros g s H.
  - exists s. split; [done|]. split; [apply grows_refl|done].
  - simpl in H. apply andb_true_iff in H as [H1 H2].
    destruct (writeLayer_ready layer s H1) as (s1 & Hrun & Hg & Hs).
    assert (forallb (layerReady s1) layers = true) as H2'.
    { apply forallb_forall. intros x Hx.
      apply (grows_layerReady s s1 _ Hg).
      by apply (proj1 (forallb_forall _ _) H2). }
    destruct (IH (match g with Some _ => g | None => None end) s1 H2')
      as (s' & Hrun' & Hg' & Hall).
    exists s'. split.
    { simpl. unfold errgroup_Go. unfold bind at 1. unfold bind at 1.
      rewrite Hrun. unfold ret at 1. rewrite Hrun'. by destruct g. }
    split; [by eapply grows_trans|].
    pose proof Hg as (Hr & _). pose proof Hg' as (_ & _ & _ & Hsub & _).
    constructor.
    + destruct Hs as [x Hx]. exists x. by apply (lookup_weaken _ _ _ _ Hx Hsub).
    + rewrite <- Hr. done.
Qed.

Lemma Add_register_usable (ref : string) (midx : ocispec.Descriptor) (s : St) :
  indexUsable s = true ->
  Add_register ref midx s
  = Ret (ocispec.zero, None)
      (mkSt (<[indexPath s := File (IndexDoc (addedIndex ref midx s))]> (disk s))
         (log s ++ EvStore ref :: loadLog s ++ [EvWriteFile (indexPath s)])
         (root s) (Some (addedIndex ref midx s))
         (shareStamp (enum (addedNames ref midx s)) (addedNames ref midx s))).
Proof.
  intros Hu. unfold Add_register.
  rewrite (bind_Ret _ _ _ _ _ (nameMap_Store_eq _ _ _)).
  match goal with |- bind _ _ ?s1 = _ =>
    assert (indexUsable s1 = true) as Hu1 by exact Hu;
    rewrite (bind_Ret _ _ _ _ _ (LoadIndex_usable s1 Hu1))
  end.
  unfold bind. rewrite SaveIndex_eq. simpl.
  change (indexPath _) with (indexPath s).
  match goal with |- context [createFile ?dk ?ip ?c] =>
    assert (createFile dk ip c = inl (<[ip := File c]> dk)) as ->
  end.
  { apply indexUsable_writable in Hu.
    by rewrite <- (createFile_writable s). }
  unfold ret, addedIndex, addedNames, loadedNames, loadLog. simpl.
  change (indexPath _) with (indexPath s).
  by rewrite <- !app_assoc.
Qed.

Lemma Add_blobs_ready (oci : artifact.OCI) (ref : string) (s : St) :
  blobsWritable s "sha256" = true -> artifactReady s oci = true ->
  exists layers cdata m mdata s4,
    artifact.Layers oci = Ok layers /\ artifact.RawConfig oci = Ok cdata
    /\ artifact.Manifest oci = Ok m /\ v1.Marshal m = Ok mdata
    /\ OCI.Add oci ref s = Add_register ref (rootDescriptor m mdata ref) s4
    /\ grows s s4
    /\ Forall (fun layer => is_Some (disk s4 !! layerPath (root s) layer)) layers
    /\ is_Some (disk s4 !! blobPathOf (root s) cdata)
    /\ is_Some (disk s4 !! blobPathOf (root s) mdata).
Proof.
  unfold artifactReady. intros Hw Ha.
  rewrite Add_unfold. unfold Add_config, Add_manifest.
  destruct (artifact.Layers oci) as [layers|] eqn:EL; [|done].
  destruct (artifact.RawConfig oci) as [cdata|] eqn:EC; [|done].
  destruct (artifact.Manifest oci) as [m|] eqn:EM; [|done].
  destruct (v1.Marshal m) as [mdata|] eqn:EJ; [|done].
  destruct (goLayers_ready layers None s Ha) as (s1 & Hrun1 & Hg1 & Hl).
  rewrite (bind_Ret _ _ _ _ _ Hrun1).
  assert (errgroup_Wait None s1 = Ret None (waited s1)) as EW by reflexivity.
  rewrite (bind_Ret _ _ _ _ _ EW).
  assert (grows s (waited s1)) as Hg1' by exact Hg1.
  destruct (writeBytes_ready cdata (waited s1) (grows_writable _ _ _ Hg1' Hw))
    as (s3 & Hrun3 & Hg3 & Hc & _).
  rewrite (bind_Ret _ _ _ _ _ Hrun3).
  pose proof (grows_trans _ _ _ Hg1' Hg3) as Hg13.
  destruct (writeBytes_ready mdata s3 (grows_writable _ _ _ Hg13 Hw))
    as (s4 & Hrun4 & Hg4 & Hm & _).
  rewrite (bind_Ret _ _ _ _ _ Hrun4).
  pose proof (grows_trans _ _ _ Hg13 Hg4) as Hg14.
  pose proof Hg1 as (Hr1 & _). pose proof Hg13 as (Hr3 & _).
  pose proof Hg3 as (_ & _ & _ & Hsub3 & _).
  pose proof Hg4 as (_ & _ & _ & Hsub4 & Hnew4).
  exists layers, cdata, m, mdata, s4.
  do 5 (split; [done|]). split; [exact Hg14|]. split; [|split].
  - eapply Forall_impl; [exact Hl|]. intros layer [x Hx]. exists x.
    apply (lookup_weaken _ _ _ _ Hx). by etrans.
  - destruct Hc as [x Hx]. exists x.
    change (root (waited s1)) with (root s1) in Hx. rewrite Hr1 in Hx.
    by apply (lookup_weaken _ _ _ _ Hx).
  - by rewrite Hr3 in Hm.
Qed.

Lemma loadNames_fresh (descs : list ocispec.Descriptor)
    (m : gmap string ocispec.Descriptor) (k : string) :
  Forall (fun d => refName d <> k) descs -> loadNames descs m !! k = m !! k.
Proof.
  revert m. induction descs as [|d descs IH]; intros m H; [done|].
  rewrite loadNames_cons. inversion H as [|? ? Hd Hrest]; subst.
  rewrite (IH _ Hrest). destruct (negb _); [|done].
  by rewrite lookup_insert_ne.
Qed.

Lemma stamp_rootDescriptor (m : v1.Manifest) (mdata : list byte) (ref : string) :
  OCI.stamp ref (rootDescriptor m mdata ref) = rootDescriptor m mdata ref.
Proof.
  unfold OCI.stamp, rootDescriptor. simpl. by rewrite insert_singleton_eq.
Qed.

Lemma grows_loadedIndex (s s' : St) : grows s s' -> loadedIndex s' = loadedIndex s.
Proof.
  intros Hg. pose proof Hg as (Hr & _). unfold loadedIndex.
  assert (indexPath s' = indexPath s) as -> by (unfold indexPath; by rewrite Hr).
  by rewrite (grows_indexPath _ _ Hg).
Qed.

(** The index document does not lie where the blobs do. *)
Lemma indexPath_not_blob (s : St) (alg : string) :
  indexPath s <> storeDir (root s)
  /\ indexPath s <> storeDir (root s) ++ ["blobs"]
  /\ indexPath s <> storeDir (root s) ++ ["blobs"; alg].
Proof.
  rewrite indexPath_eq. repeat split; intros H.
  - apply (f_equal length) in H. rewrite !length_app in H. simpl in H. lia.
  - apply app_inv_head in H. discriminate.
  - apply (f_equal length) in H. rewrite !length_app in H. simpl in H. lia.
Qed.

Lemma blobsWritable_index (s : St) (alg : string) x lg i m :
  blobsWritable (mkSt (<[indexPath s := x]> (disk s)) lg (root s) i m) alg
  = blobsWritable s alg.
Proof.
  destruct (indexPath_not_blob s alg) as (H1 & H2 & H3).
  unfold blobsWritable. simpl. by rewrite !nodeAt_insert_ne.
Qed.

Lemma indexUsable_index (s : St) doc lg i m :
  indexUsable (mkSt (<[indexPath s := File (IndexDoc doc)]> (disk s)) lg (root s) i m)
  = true.
Proof.
  unfold indexUsable. change (indexPath (mkSt _ _ _ _ _)) with (indexPath s).
  rewrite nodeAt_lookup by apply indexPath_nonempty. simpl.
  by rewrite lookup_insert_eq.
Qed.

Lemma layerPath_not_index (s : St) (layer : v1.Layer) :
  layerPath (root s) layer <> indexPath s.
Proof.
  unfold layerPath. destruct (v1.Digest layer).
  - rewrite indexPath_eq. intros H. apply (f_equal length) in H.
    rewrite !length_app in H. simpl in H. lia.
  - intros H. symmetry in H. by apply indexPath_nonempty in H.
Qed.

Lemma blobPathOf_not_index (s : St) (data : list byte) :
  blobPathOf (root s) data <> indexPath s.
Proof.
  rewrite blobPathOf_eq, indexPath_eq. intros H. apply (f_equal length) in H.
  rewrite !length_app in H. simpl in H. lia.
Qed.

Lemma layerReady_index (s : St) (layer : v1.Layer) x lg i m :
  layerReady (mkSt (<[indexPath s := x]> (disk s)) lg (root s) i m) layer
  = layerReady s layer.
Proof.
  unfold layerReady. destruct (v1.Digest layer); [|done].
  destruct (v1.Compressed layer); [|done]. by rewrite blobsWritable_index.
Qed.

(** X1: ingestion into a ready store succeeds. *)
Theorem Add_ready_succeeds (oci : artifact.OCI) (ref : string) (s : St) :
  storeReady s = true -> artifactReady s oci = true ->
  exists s',
    OCI.Add oci ref s = Ret (ocispec.zero, None) s'
    /\ artifactStored s' oci
    /\ storeReady s' = true /\ artifactReady s' oci = true
    /\ (forall q x, q <> indexPath s ->
          disk s !! q = Some x -> disk s' !! q = Some x)
    /\ exists doc, disk s' !! indexPath s = Some (File (IndexDoc doc)).
Proof.
  intros Hs Ha.
  unfold storeReady in Hs. apply andb_true_iff in Hs as [Hw Hu].
  destruct (Add_blobs_ready oci ref s Hw Ha)
    as (layers & cdata & m & mdata & s4 & EL & EC & EM & EJ & Hadd & Hg & Hl & Hc & Hm).
  pose proof Hg as (Hr & _ & _ & Hsub & _).
  assert (indexPath s4 = indexPath s) as Hip by (unfold indexPath; by rewrite Hr).
  assert (indexUsable s4 = true) as Hu4 by (by rewrite (grows_usable s s4)).
  rewrite Hadd, (Add_register_usable _ _ _ Hu4).
  eexists. split; [reflexivity|].
  split; [|split; [|split; [|split]]].
  - unfold artifactStored. rewrite EL, EC, EM, EJ. simpl. rewrite Hr.
    split; [|split].
    + eapply Forall_impl; [exact Hl|]. intros layer Hx.
      rewrite lookup_insert_ne; [done|].
      rewrite Hip. intros E. symmetry in E. by apply layerPath_not_index in E.
    + rewrite lookup_insert_ne; [done|].
      rewrite Hip. intros E. symmetry in E. by apply blobPathOf_not_index in E.
    + rewrite lookup_insert_ne; [done|].
      rewrite Hip. intros E. symmetry in E. by apply blobPathOf_not_index in E.
  - unfold storeReady. rewrite blobsWritable_index, indexUsable_index.
    by rewrite (grows_writable s s4).
  - unfold artifactReady in Ha |- *. rewrite EL, EC, EM, EJ in Ha |- *.
    apply forallb_forall. intros layer Hin. rewrite layerReady_index.
    apply (grows_layerReady s s4 _ Hg).
    by apply (proj1 (forallb_forall _ _) Ha).
  - intros q x Hq Hx. simpl. rewrite lookup_insert_ne by (by rewrite Hip).
    by apply (lookup_weaken _ _ _ _ Hx).
  - eexists. simpl. rewrite Hip. by rewrite lookup_insert_eq.
Qed.

(** The name map after the index has been saved and loaded again by the
    same store object. *)
Lemma reloaded_lookup (m : gmap string ocispec.Descriptor) (k : string) :
  loadNames (stamped (enum m)) (shareStamp (enum m) m) !! k
  = (if String.eqb k "" then stampShared k else OCI.stamp k) <$> m !! k.
Proof.
  destruct (String.eqb_spec k "") as [->|Hk].
  - by rewrite loadNames_empty_name, shareStamp_enum.
  - destruct (m !! k) as [d|] eqn:E.
    + rewrite (loadNames_stamped_in _ _ k d); [done|apply enum_NoDup| |done].
      by apply elem_of_enum.
    + rewrite loadNames_stamped_notin, shareStamp_enum, E; [done|].
      intros Hin. apply list_elem_of_fmap in Hin as ([k' d] & -> & Hin).
      apply elem_of_enum in Hin. simpl in E. by rewrite E in Hin.
Qed.

Lemma os_Open_eq (p : Path) (s : St) :
  os_Open p s
  = Ret (match nodeAt (disk s) p with
         | Some _ => Ok p
         | None => Err (missingError (disk s) p)
         end) (withLog (log s ++ [EvOpen p]) s).
Proof.
  unfold os_Open, bind, emit, modify, gets, ret. simpl.
  by destruct (nodeAt (disk s) p).
Qed.

Lemma Fetch_ready (d : ocispec.Descriptor) (alg hex : string) (s : St) :
  digest.split (ocispec.Digest d) = Some (alg, hex) ->
  blobsWritable s alg = true -> simpleName hex = true ->
  let bp := storeDir (root s) ++ ["blobs"; alg; hex] in
  exists s',
    OCI.Fetch d s
    = Ret (match disk s !! bp with
           | Some _ => Ok bp
           | None => Err (missingError (disk s') bp)
           end) s'
    /\ grows s s'
    /\ disk s' !! bp = disk s !! bp.
Proof.
  intros Hsplit Hw Hhex bp.
  destruct (ensureBlob_ready alg hex s Hw) as (s1 & Hrun & Hg & Hdir & Hkeep).
  unfold OCI.Fetch, OCI.blobReaderAt, digest_Algorithm, digest_Hex.
  rewrite Hsplit. unfold bind at 1. unfold bind at 1. unfold ret at 1.
  unfold bind at 1. unfold ret at 1. unfold bind at 1. rewrite Hrun.
  rewrite os_Open_eq. rewrite joinOnto_simple by (simpl; by rewrite Hhex).
  rewrite <- app_assoc. simpl. fold bp.
  assert (nodeAt (disk s1) bp = disk s !! bp) as ->.
  { rewrite nodeAt_lookup by (unfold bp; by destruct (storeDir (root s))).
    apply Hkeep. }
  exists (withLog (log s1 ++ [EvOpen bp]) s1).
  split; [by destruct (disk s !! bp)|]. split; [exact Hg|apply Hkeep].
Qed.

(** X2: a name that was added resolves to the root descriptor, a fetcher
    is handed out for it, and the blob of the descriptor can be fetched. *)
Theorem Add_then_Resolve
    (oci : artifact.OCI) (ref : string) (s : St)
    (m : v1.Manifest) (mdata : list byte) :
  storeReady s = true -> artifactReady s oci = true ->
  artifact.Manifest oci = Ok m -> v1.Marshal m = Ok mdata ->
  Forall (fun d => refName d <> ref) (ocispec.Manifests (loadedIndex s)) ->
  let added := final (OCI.Add oci ref s) in
  let resolve := OCI.Resolve ref added in
  let fetch := OCI.Fetch (rootDescriptor m mdata ref) (final resolve) in
  returned resolve = Some (ref, rootDescriptor m mdata ref, None)
  /\ returned (OCI.Fetcher ref added) = Some (Some OCI.TheStore, None)
  /\ returned fetch = Some (Ok (blobPathOf (root s) mdata))
  /\ is_Some (disk (final fetch) !! blobPathOf (root s) mdata).
Proof.
  intros Hs Ha EM EJ Hfresh added resolve fetch.
  unfold storeReady in Hs. apply andb_true_iff in Hs as [Hw Hu].
  destruct (Add_blobs_ready oci ref s Hw Ha)
    as (layers & cdata & m' & mdata' & s4 & EL & EC & EM' & EJ' & Hadd & Hg & Hl & Hc & Hm).
  rewrite EM in EM'. injection EM' as <-. rewrite EJ in EJ'. injection EJ' as <-.
  pose proof Hg as (Hr & _ & Hnm & Hsub & _).
  assert (indexPath s4 = indexPath s) as Hip by (unfold indexPath; by rewrite Hr).
  assert (indexUsable s4 = true) as Hu4 by (by rewrite (grows_usable s s4)).
  set (midx := rootDescriptor m mdata ref) in *.
  set (m1 := addedNames ref midx s4).
  assert (m1 !! ref = Some midx) as Hm1.
  { unfold m1, addedNames. rewrite (grows_loadedIndex _ _ Hg).
    by rewrite (loadNames_fresh _ _ _ Hfresh), lookup_insert_eq. }
  assert (added = mkSt (<[indexPath s4 := File (IndexDoc (addedIndex ref midx s4))]> (disk s4))
         (log s4 ++ EvStore ref :: loadLog s4 ++ [EvWriteFile (indexPath s4)])
         (root s4) (Some (addedIndex ref midx s4))
         (shareStamp (enum m1) m1)) as Hadded.
  { unfold added. by rewrite Hadd, (Add_register_usable _ _ _ Hu4). }
  assert (indexUsable added = true) as Hu1
    by (rewrite Hadded; apply indexUsable_index).
  assert (loadedNames added !! ref = Some midx) as Hnames.
  { unfold loadedNames, loadedIndex. rewrite Hadded. simpl.
    change (indexPath (mkSt _ _ _ _ _)) with (indexPath s4).
    rewrite lookup_insert_eq. simpl. fold m1.
    rewrite reloaded_lookup, Hm1. simpl.
    destruct (String.eqb ref ""); [|apply f_equal, stamp_rootDescriptor].
    apply f_equal. unfold stampShared. simpl. apply stamp_rootDescriptor. }
  assert (resolve
          = Ret (ref, midx, None)
              (mkSt (disk added) (log added ++ loadLog added) (root added)
                 (Some (loadedIndex added)) (loadedNames added))) as Hres.
  { unfold resolve, OCI.Resolve.
    rewrite (bind_Ret _ _ _ _ _ (LoadIndex_usable added Hu1)).
    unfold nameMap_Load, bind, gets. simpl. by rewrite Hnames. }
  split; [by rewrite Hres|].
  split.
  { unfold OCI.Fetcher.
    rewrite (bind_Ret _ _ _ _ _ (LoadIndex_usable added Hu1)).
    unfold nameMap_Load, bind, gets. simpl. by rewrite Hnames. }
  assert (blobsWritable (final resolve) "sha256" = true) as Hw'.
  { rewrite Hres. simpl. rewrite Hadded. simpl.
    rewrite blobsWritable_index. by apply (grows_writable s s4). }
  assert (root (final resolve) = root s) as Hr' by (by rewrite Hres, Hadded).
  destruct (Fetch_ready midx "sha256" (SHA256.hex mdata) (final resolve)
              (FromBytes_split mdata) Hw' (hex_simple mdata))
    as (s' & Hf & _ & Hkeep).
  rewrite Hr', <- blobPathOf_eq in Hf, Hkeep.
  assert (is_Some (disk (final resolve) !! blobPathOf (root s) mdata)) as Hsome.
  { rewrite Hres. simpl. rewrite Hadded. simpl.
    rewrite lookup_insert_ne; [done|].
    rewrite Hip. intros E. symmetry in E. by apply blobPathOf_not_index in E. }
  destruct Hsome as [x Hx].
  match type of Hkeep with _ = ?t =>
    assert (t = Some x) as Hx' by exact Hx; rewrite Hx' in Hkeep
  end.
  match type of Hf with context [match ?t with _ => _ end] =>
    assert (t = Some x) as Hx'' by exact Hx; rewrite Hx'' in Hf
  end.
  unfold fetch. rewrite Hf. cbn [returned final]. split; [done|by eexists].
Qed.
End Ready.

Lemma Add_ready_succeeds_witness :
  let s := OCI.NewOCI "/store" Scenario.emptyDisk in
  let oci := Scenario.image "m1" "c1" in
  storeReady s = true /\ artifactReady s oci = true
  /\ exists s',
       OCI.Add oci "app:v1" s = Ret (ocispec.zero, None) s'
       /\ artifactStored s' oci
       /\ storeReady s' = true /\ artifactReady s' oci = true
       /\ (forall q x, q <> indexPath s ->
             disk s !! q = Some x -> disk s' !! q = Some x)
       /\ exists doc, disk s' !! indexPath s = Some (File (IndexDoc doc)).
Proof.
  cbv zeta.
  assert (storeReady (OCI.NewOCI "/store" Scenario.emptyDisk) = true) as H1
    by (vm_compute; reflexivity).
  assert (artifactReady (OCI.NewOCI "/store" Scenario.emptyDisk)
            (Scenario.image "m1" "c1") = true) as H2
    by (vm_compute; reflexivity).
  exact (conj H1 (conj H2
    (Add_ready_succeeds (Scenario.image "m1" "c1") "app:v1"
       (OCI.NewOCI "/store" Scenario.emptyDisk) H1 H2))).
Defined.

Lemma Add_then_Resolve_witness :
  let s := OCI.NewOCI "/store" Scenario.mixedDisk in
  let oci := Scenario.image "m1" "c1" in
  let m := v1.mkManifest ocispec.MediaTypeImageManifest (Ok (Scenario.bytes "m1")) in
  let mdata := Scenario.bytes "m1" in
  storeReady s = true /\ artifactReady s oci = true
  /\ artifact.Manifest oci = Ok m /\ v1.Marshal m = Ok mdata
  /\ Forall (fun d => refName d <> "app:v2") (ocispec.Manifests (loadedIndex s))
  /\ (let added := final (OCI.Add oci "app:v2" s) in
      let resolve := OCI.Resolve "app:v2" added in
      let fetch := OCI.Fetch (rootDescriptor m mdata "app:v2") (final resolve) in
      returned resolve = Some ("app:v2", rootDescriptor m mdata "app:v2", None)
      /\ returned (OCI.Fetcher "app:v2" added) = Some (Some OCI.TheStore, None)
      /\ returned fetch = Some (Ok (blobPathOf (root s) mdata))
      /\ is_Some (disk (final fetch) !! blobPathOf (root s) mdata)).
Proof.
  cbv zeta.
  assert (storeReady (OCI.NewOCI "/store" Scenario.mixedDisk) = true) as H1
    by (vm_compute; reflexivity).
  assert (artifactReady (OCI.NewOCI "/store" Scenario.mixedDisk)
            (Scenario.image "m1" "c1") = true) as H2
    by (vm_compute; reflexivity).
  assert (Forall (fun d => refName d <> "app:v2")
            (ocispec.Manifests (loadedIndex (OCI.NewOCI "/store" Scenario.mixedDisk))))
    as H3.
  { assert (ocispec.Manifests (loadedIndex (OCI.NewOCI "/store" Scenario.mixedDisk))
            = [Scenario.named; Scenario.unnamed]) as -> by (vm_compute; reflexivity).
    repeat constructor; by vm_compute. }
  exact (conj H1 (conj H2 (conj eq_refl (conj eq_refl (conj H3
    (Add_then_Resolve (Scenario.image "m1" "c1") "app:v2"
       (OCI.NewOCI "/store" Scenario.mixedDisk) _ _ H1 H2 eq_refl eq_refl H3)))))).
Defined.

(** ** Loading, pushing and the layout *)

Section Loading.
Context `{ord : RangeOrder}.

Lemma loadNames_is_Some (descs : list ocispec.Descriptor)
    (m : gmap string ocispec.Descriptor) (n : string) :
  is_Some (m !! n) -> is_Some (loadNames descs m !! n).
Proof.
  revert m. induction descs as [|d descs IH]; intros m H; [done|].
  rewrite loadNames_cons. apply IH. destruct (negb _); [|done].
  destruct (decide (refName d = n)) as [->|Hne].
  - rewrite lookup_insert_eq. by eexists.
  - by rewrite lookup_insert_ne.
Qed.

(** X3: [LoadIndex] never writes to the disk and never forgets a name;
    when it fails the name map is as it was. *)
Theorem LoadIndex_keeps_store (s : St) :
  let o := OCI.LoadIndex s in
  disk (final o) = disk s /\ root (final o) = root s
  /\ (forall n, is_Some (nameMap s !! n) -> is_Some (nameMap (final o) !! n))
  /\ match returned o with
     | Some (Some e) => nameMap (final o) = nameMap s
     | Some None =>
         is_Some (index (final o)) /\ nameMap (final o) = loadedNames s
     | None => True
     end.
Proof.
  cbv zeta. rewrite LoadIndex_eq. cbv zeta.
  unfold loadedIndex, loadedNames, loadedIndex.
  rewrite indexPath_lookup.
  destruct (disk s !! indexPath s) as [[|[b|doc]]|] eqn:E; simpl;
    try (by repeat split).
  - repeat split; try done. intros n. apply loadNames_is_Some.
  - destruct (negb _); simpl; by repeat split.
Qed.


(** X5: a copy that fails leaves what was written at the path of the
    blob, and a later write to the path finds the blob present and
    leaves it as it is. *)
Theorem writeStream_keeps_partial_blob
    (p : Path) (rc rc2 : v1.Reader) (e : error) (s : St) :
  nodeAt (disk s) p = None -> nodeAt (disk s) (parent p) = Some Dir ->
  v1.failure rc = Some e ->
  let first := OCI.writeStream p rc s in
  let second := OCI.writeStream p rc2 (final first) in
  snd <$> returned first = Some (Some e)
  /\ disk (final first) !! p = Some (File (Raw (v1.pending rc)))
  /\ returned second = Some (rc2, None)
  /\ disk (final second) = disk (final first).
Proof.
  intros Hp Hpar He. cbv zeta.
  rewrite (writeStream_absent p rc s Hp Hpar). simpl.
  rewrite He. split; [done|]. rewrite lookup_insert_eq. split; [done|].
  rewrite writeStream_present; [done|].
  simpl. destruct p; [by eexists|]. simpl. rewrite lookup_insert_eq. by eexists.
Qed.

Lemma writeStream_returns (p : Path) (rc : v1.Reader) (s : St) :
  exists r s', OCI.writeStream p rc s = Ret r s'.
Proof.
  unfold OCI.writeStream. unfold bind at 1. rewrite os_Stat_eq.
  destruct (nodeAt (disk s) p); [by eexists _, _|].
  unfold bind at 1. rewrite os_Create_eq.
  destruct (createFile _ _ _) as [d'|e]; [|by eexists _, _].
  unfold io_Copy, File_Write, bind, emit, modify, gets, ret. simpl.
  destruct (d' !! p) as [[|[b|doc]]|]; simpl;
    try (by eexists _, _); destruct (v1.failure rc); by eexists _, _.
Qed.

(** What one [writeLayer] does in every case: it returns, the directory
    of the algorithm of a layer that has a digest is asked for, and a
    layer that has none gives an error. *)
Lemma writeLayer_attempt (layer : v1.Layer) (s : St) :
  exists e s',
    OCI.writeLayer layer s = Ret e s'
    /\ root s' = root s
    /\ (exists evs, log s' = log s ++ evs
                    /\ forall h, v1.Digest layer = Ok h ->
                         EvMkdirAll (blobDir (root s) (v1.Algorithm h)) ∈ evs)
    /\ (forall e0, v1.Digest layer = Err e0 -> e = Some e0).
Proof.
  pose proof (writeLayer_blobStep layer s) as HB.
  unfold OCI.writeLayer in *.
  destruct (v1.Digest layer) as [h|e0] eqn:ED.
  2:{ exists (Some e0), s. split; [done|]. split; [done|]. split.
      - exists []. split; [by rewrite app_nil_r|]. intros h H. discriminate.
      - intros e1 H. by injection H as ->. }
  unfold bind at 1. unfold bind at 1 in HB. rewrite ensureBlob_eq in HB |- *.
  cbv zeta in *.
  set (dir := blobDir (root s) (v1.Algorithm h)) in *.
  assert (forall (r : result Path) s1 (evs0 : list Event),
    log s1 = log s ++ EvMkdirAll dir :: evs0 -> root s1 = root s ->
    exists e s',
      match r with
      | Ok blobpath =>
          match v1.Compressed layer with
          | Ok rc => let* w := OCI.writeStream blobpath rc in ret w.2
          | Err e => ret (Some e)
          end
      | Err e => ret (Some e)
      end s1 = Ret e s'
      /\ root s' = root s
      /\ (exists evs, log s' = log s ++ evs
                      /\ forall h0, Ok h = Ok h0 ->
                           EvMkdirAll (blobDir (root s) (v1.Algorithm h0)) ∈ evs)
      /\ (forall e0, Ok h = Err e0 -> e = Some e0)) as Hrest.
  { intros r s1 evs0 Hlog Hroot.
    assert (forall evs1 h0, Ok h = Ok h0 ->
      EvMkdirAll (blobDir (root s) (v1.Algorithm h0))
        ∈ EvMkdirAll dir :: evs1) as Hin.
    { intros evs1 h0 H. injection H as <-. apply list_elem_of_here. }
    destruct r as [bp|e]; [|by eexists _, _; repeat split; eauto].
    destruct (v1.Compressed layer) as [rc|e]; [|by eexists _, _; repeat split; eauto].
    destruct (writeStream_returns bp rc s1) as (r & s' & Hrun).
    pose proof (writeStream_blobStep bp rc s1) as HB1. rewrite Hrun in HB1.
    simpl in HB1. destruct HB1 as (Hr & _ & _ & _ & evs & Hl & _).
    exists r.2, s'. rewrite (bind_Ret _ _ _ _ _ Hrun).
    split; [done|]. split; [congruence|]. split; [|done].
    exists (EvMkdirAll dir :: evs0 ++ evs). split; [|apply Hin].
    rewrite Hl, Hlog, <- app_assoc. done. }
  destruct (mkdirAll (rev dir) (disk s)) as [d'|e].
  - apply (Hrest (Ok (joinOnto dir [v1.Hex h])) _ []); simpl; [done|done].
  - apply (Hrest (if os_IsExist e then Ok (joinOnto dir [v1.Hex h]) else Err e)
             _ []); simpl; [done|done].
Qed.

(** X6: every layer is attempted, whatever happens to the others, and the
    first error is the one that is kept. *)
Theorem goLayers_attempts_every_layer
    (layers : list v1.Layer) (g : option error) (s : St) :
  exists g' s' evs,
    OCI.goLayers g layers s = Ret g' s'
    /\ log s' = log s ++ evs
    /\ (forall e, g = Some e -> g' = Some e)
    /\ (forall layer h, layer ∈ layers -> v1.Digest layer = Ok h ->
          EvMkdirAll (blobDir (root s) (v1.Algorithm h)) ∈ evs)
    /\ (forall layer e, layer ∈ layers -> v1.Digest layer = Err e ->
          g' <> None).
Proof.
  revert g s. induction layers as [|layer layers IH]; intros g s.
  - exists g, s, []. split; [done|]. split; [by rewrite app_nil_r|].
    split; [done|]. split; intros ? ? H; by apply elem_of_nil in H.
  - destruct (writeLayer_attempt layer s)
      as (e & s1 & Hrun & Hr & (evs1 & Hl1 & Hin1) & Herr1).
    destruct (IH (match g with Some _ => g | None => e end) s1)
      as (g' & s' & evs & Hrun' & Hl & Hkeep & Hin & Herr).
    exists g', s', (evs1 ++ evs). split.
    { simpl. unfold errgroup_Go. unfold bind at 1. unfold bind at 1.
      rewrite Hrun. unfold ret at 1. exact Hrun'. }
    split; [by rewrite Hl, Hl1, <- app_assoc|].
    split; [intros e0 ->; by apply Hkeep|].
    split.
    + intros l0 h Hl0 Hd. apply elem_of_app.
      apply elem_of_cons in Hl0 as [->|Hl0]; [left; by apply Hin1|].
      right. rewrite <- Hr. by apply (Hin l0).
    + intros l0 e0 Hl0 Hd. apply elem_of_cons in Hl0 as [->|Hl0].
      * rewrite (Herr1 _ Hd) in Hkeep. destruct g as [eg|].
        -- by rewrite (Hkeep eg).
        -- by rewrite (Hkeep e0).
      * by apply (Herr l0 e0).
Qed.

Lemma writerAt_present (l : Layout.t) (alg hex : string) (s : St) :
  let dir := blobDir (Layout.Root l) alg in
  nodeAt (disk s) dir = Some Dir -> is_Some (nodeAt (disk s) (joinOnto dir [hex])) ->
  Layout.writerAt l alg hex s
  = Ret (None, None)
      (withLog (log s ++ [EvMkdirAll dir; EvStat (joinOnto dir [hex])]) s).
Proof.
  intros dir Hdir [x Hx]. rewrite writerAt_eq. cbv zeta. fold dir.
  rewrite (mkdirAll_dir (rev dir) (disk s)) by (by rewrite rev_involutive).
  rewrite statCreate_eq. simpl. rewrite Hx. unfold withLog. simpl.
  by rewrite <- app_assoc.
Qed.

(** X7: [writeBytes] of the layout returns nil only when it has created
    the blob, which then holds the bytes; when the blob is there it
    fails, on the nil file of [writerAt]. *)
Theorem Layout_writeBytes_outcome (l : Layout.t) (data : list byte) (s : St) :
  let dir := blobDir (Layout.Root l) "sha256" in
  let bp := blobPathOf (Layout.Root l) data in
  match Layout.writeBytes l data s with
  | Ret None s' =>
      disk s !! bp = None /\ disk s' !! bp = Some (File (Raw data))
  | Ret (Some _) _ => True
  | Panic _ _ => False
  end
  /\ (nodeAt (disk s) dir = Some Dir -> is_Some (nodeAt (disk s) bp) ->
      Layout.writeBytes l data s
      = Ret (Some ErrInvalid) (withLog (log s ++ [EvMkdirAll dir; EvStat bp]) s)).
Proof.
  cbv zeta. split.
  - rewrite Layout_writeBytes_unfold.
    pose proof (writerAt_opened l "sha256" (SHA256.hex data) s) as HW.
    fold (blobPathOf (Layout.Root l) data) in HW.
    destruct (Layout.writerAt _ _ _ s) as [[[f|] [e|]] s1|] eqn:EW; try done;
      destruct HW as [HB HW]; try done;
      rewrite (bind_Ret _ _ _ _ _ EW); simpl; try done.
    destruct HW as (-> & Hnew & Hf & evs & Hlog & Hin).
    destruct (File_Write_opened s s1 _ [] data HB Hnew Hf)
      as (s'' & HFW & HB' & Hc & Hlog').
    rewrite (bind_Ret _ _ _ _ _ HFW). simpl. done.
  - intros Hdir Hbp. rewrite Layout_writeBytes_unfold.
    rewrite (bind_Ret _ _ _ _ _ (writerAt_present l _ _ s Hdir Hbp)). done.
Qed.

(** X8: the function that [AddOCI] launches for a layer whose blob is
    there panics, on the nil [FileInfo] of the nil file. *)
Theorem layerJob_present_blob_panics
    (l : Layout.t) (layer : v1.Layer) (h : v1.Hash) (s : St) :
  let dir := blobDir (Layout.Root l) (v1.Algorithm h) in
  v1.Digest layer = Ok h ->
  nodeAt (disk s) dir = Some Dir ->
  is_Some (nodeAt (disk s) (joinOnto dir [v1.Hex h])) ->
  panicked (Layout.layerJob l layer s) = true
  /\ disk (final (Layout.layerJob l layer s)) = disk s.
Proof.
  intros dir Hd Hdir Hbp. unfold Layout.layerJob. rewrite Hd.
  rewrite (bind_Ret _ _ _ _ _ (writerAt_present l _ _ s Hdir Hbp)). done.
Qed.

Lemma splitAt1_spec (r : string) :
  noAt (splitAt1 r).1 = true
  /\ match (splitAt1 r).2 with
     | None => noAt r = true /\ r = (splitAt1 r).1
     | Some dg =>
         noAt r = false
         /\ r = String.append (splitAt1 r).1 (String "@"%char dg)
     end.
Proof.
  induction r as [|c r [IH1 IH2]]; [done|].
  cbn [splitAt1 noAt]. destruct (Ascii.eqb c "@") eqn:E; cbn [fst snd negb andb noAt].
  - apply Ascii.eqb_eq in E as ->. split; [done|]. split; reflexivity.
  - rewrite E, IH1. split; [done|].
    destruct (splitAt1 r).2 as [dg|]; destruct IH2 as [H1 H2].
    + split; [done|]. rewrite append_cons. by rewrite <- H2.
    + split; [done|]. by rewrite <- H2.
Qed.

(** X9: [Pusher] splits the reference at its first ['@']; the session of
    a reference that has none marks no root, so that its pushes leave
    the name map and the index as they are. *)
Theorem Pusher_session_of_reference (r : string) (s s1 : St) :
  OCI.LoadIndex s = Ret None s1 ->
  exists p,
    ociPusher.Pusher r s = Ret (Some p, None) s1
    /\ noAt (ociPusher.ref p) = true
    /\ r = (if noAt r then ociPusher.ref p
            else String.append (ociPusher.ref p)
                   (String "@"%char (ociPusher.digest p)))
    /\ (noAt r = true ->
        ociPusher.digest p = ""
        /\ forall d s', blobStep s' (final (ociPusher.Push p d s'))).
Proof.
  intros Hload. unfold ociPusher.Pusher. rewrite (bind_Ret _ _ _ _ _ Hload).
  cbv zeta. eexists. split; [reflexivity|]. simpl.
  destruct (splitAt1_spec r) as [H1 H2]. split; [done|].
  destruct (splitAt1 r).2 as [dg|] eqn:E; destruct H2 as [H2 H3]; rewrite H2.
  - split; [done|]. intros ?. done.
  - split; [done|]. intros _. split; [done|]. intros d s'.
    rewrite Push_unfold.
    match goal with |- context [ociPusher.markRoot ?p d] =>
      assert (ociPusher.marksRoot p d = false) as Hm
        by (unfold ociPusher.marksRoot; simpl; by rewrite andb_false_r);
      rewrite (bind_Ret _ _ _ _ _ (markRoot_unmarked p d s' Hm))
    end.
    apply pushBlob_blobStep.
Qed.

Lemma blobDir_eq (r alg : string) :
  simpleName alg = true -> blobDir r alg = storeDir r ++ ["blobs"; alg].
Proof.
  intros H. unfold blobDir. apply filepath_Join_under. simpl. by rewrite H.
Qed.

(** [pushBlob] of a blob that is not there. *)
Lemma pushBlob_absent (d : ocispec.Descriptor) (alg hex : string) (s : St) :
  digest.split (ocispec.Digest d) = Some (alg, hex) ->
  blobsWritable s alg = true -> simpleName hex = true ->
  let bp := storeDir (root s) ++ ["blobs"; alg; hex] in
  disk s !! bp = None ->
  exists s',
    pushBlob d s
    = Ret (Some (mkWriter (ToFile bp) (Some (ocispec.Digest d))
                   (Some (ocispec.Digest d))), None) s'
    /\ grows s s'
    /\ disk s' !! bp = Some (File (Raw []))
    /\ blobPresent s' d = true.
Proof.
  intros Hsplit Hw Hhex bp Habs.
  assert (simpleName alg = true) as Halg.
  { unfold blobsWritable in Hw. do 3 (apply andb_true_iff in Hw as [Hw _]). exact Hw. }
  destruct (ensureBlob_ready alg hex s Hw) as (s1 & Hrun & Hg & Hdir & Hkeep).
  pose proof Hg as (Hr & Hi & Hn & Hsub & Hnew).
  unfold pushBlob, digest_Algorithm, digest_Hex. rewrite Hsplit.
  unfold bind at 1. unfold ret at 1. unfold bind at 1. unfold ret at 1.
  rewrite (bind_Ret _ _ _ _ _ Hrun).
  rewrite joinOnto_simple by (simpl; by rewrite Hhex).
  rewrite <- app_assoc. simpl. fold bp.
  assert (bp = (storeDir (root s) ++ ["blobs"; alg]) ++ [hex]) as Hbp
    by (unfold bp; by rewrite <- app_assoc).
  assert (nodeAt (disk s1) bp = None) as Hn1.
  { rewrite Hbp, nodeAt_snoc, <- Hbp. etrans; [apply Hkeep|exact Habs]. }
  rewrite (bind_Ret _ _ _ _ _ (os_Stat_eq bp s1)). rewrite Hn1.
  unfold bind. rewrite os_Create_eq. unfold createFile. simpl.
  rewrite Hn1.
  assert (nodeAt (disk s1) (parent bp) = Some Dir) as ->.
  { rewrite Hbp, parent_snoc.
    rewrite nodeAt_lookup by (by destruct (storeDir (root s))). exact Hdir. }
  eexists. split; [reflexivity|].
  split; [|split].
  - split; [done|]. split; [done|]. split; [done|]. split.
    + simpl. etrans; [exact Hsub|]. apply insert_subseteq. by apply nodeAt_None.
    + intros q x Hq. simpl in Hq. destruct (decide (q = bp)) as [->|Hne].
      * rewrite lookup_insert_eq in Hq. injection Hq as <-.
        right. right. by exists alg, hex, [].
      * rewrite lookup_insert_ne in Hq by done. by apply Hnew.
  - simpl. by rewrite lookup_insert_eq.
  - assert (bp <> storeDir (root s) ++ ["blobs"; alg]) as Hne.
    { rewrite Hbp. intros H. apply (f_equal length) in H.
      rewrite !length_app in H. simpl in H. lia. }
    assert (nodeAt (<[bp := File (Raw [])]> (disk s1))
              (storeDir (root s) ++ ["blobs"; alg]) = Some Dir) as E1.
    { rewrite nodeAt_insert_ne by done.
      rewrite nodeAt_lookup by (by destruct (storeDir (root s))). exact Hdir. }
    assert (nodeAt (<[bp := File (Raw [])]> (disk s1)) bp
            = Some (File (Raw []))) as E2.
    { rewrite Hbp, nodeAt_snoc, <- Hbp. apply lookup_insert_eq. }
    unfold blobPresent. rewrite Hsplit. simpl. rewrite Hr.
    rewrite (blobDir_eq _ _ Halg).
    rewrite joinOnto_simple by (simpl; by rewrite Hhex).
    rewrite <- Hbp. unfold Path in *. by rewrite E1, E2.
Qed.

(** The marking of the root, as far as the blobs are concerned. *)
Lemma markRoot_run (p : ociPusher.t) (d : ocispec.Descriptor) (s : St) :
  negb (ociPusher.marksRoot p d) || indexUsable s = true ->
  exists sM,
    ociPusher.markRoot p d s = Ret None sM
    /\ root sM = root s
    /\ (forall q, q <> indexPath s -> disk sM !! q = disk s !! q)
    /\ (forall alg, blobsWritable sM alg = blobsWritable s alg)
    /\ (forall d', blobPresent s d' = true -> blobPresent sM d' = true)
    /\ (ociPusher.marksRoot p d = true -> indexUsable sM = true).
Proof.
  intros H. destruct (ociPusher.marksRoot p d) eqn:Hm; simpl in H.
  - rewrite (markRoot_marked p d s Hm H). eexists. split; [reflexivity|].
    split; [done|]. split; [|split; [|split]].
    + intros q Hq. simpl. by rewrite lookup_insert_ne.
    + intros alg. apply blobsWritable_index.
    + intros d' Hd'. by apply blobPresent_marked.
    + intros _. apply indexUsable_index.
  - rewrite (markRoot_unmarked p d s Hm). exists s. by repeat split.
Qed.

(** X10: a push of a blob that is not there creates the empty blob and
    hands out a writer to it; a second push of the descriptor, before
    anything is written, finds the blob present and hands out the
    discarding writer. *)
Theorem Push_twice_discards
    (p : ociPusher.t) (d : ocispec.Descriptor) (alg hex : string) (s : St) :
  digest.split (ocispec.Digest d) = Some (alg, hex) ->
  blobsWritable s alg = true -> simpleName hex = true ->
  negb (ociPusher.marksRoot p d) || indexUsable s = true ->
  let bp := storeDir (root s) ++ ["blobs"; alg; hex] in
  disk s !! bp = None ->
  let first := ociPusher.Push p d s in
  let second := ociPusher.Push p d (final first) in
  returned first
  = Some (Some (mkWriter (ToFile bp) (Some (ocispec.Digest d))
                  (Some (ocispec.Digest d))), None)
  /\ disk (final first) !! bp = Some (File (Raw []))
  /\ returned second
     = Some (Some (mkWriter Discard None (Some (ocispec.Digest d))), None)
  /\ disk (final second) !! bp = Some (File (Raw [])).
Proof.
  intros Hsplit Hw Hhex Hmark bp Habs. cbv zeta.
  assert (forall s0, root s0 = root s -> bp <> indexPath s0) as Hne.
  { intros s0 Hr0. rewrite indexPath_eq, Hr0. unfold bp. intros H.
    apply (f_equal length) in H. rewrite !length_app in H. simpl in H. lia. }
  destruct (markRoot_run p d s Hmark)
    as (sM & HrunM & HrM & HdM & HwM & _ & HuM).
  rewrite Push_unfold. rewrite (bind_Ret _ _ _ _ _ HrunM).
  assert (blobsWritable sM alg = true) as Hw1 by (by rewrite HwM).
  assert (disk sM !! (storeDir (root sM) ++ ["blobs"; alg; hex]) = None) as Habs1.
  { rewrite HrM. fold bp. rewrite HdM; [done|]. by apply Hne. }
  destruct (pushBlob_absent d alg hex sM Hsplit Hw1 Hhex Habs1)
    as (s1 & Hrun1 & Hg1 & Hc1 & Hp1).
  rewrite HrM in Hrun1, Hc1. fold bp in Hrun1, Hc1.
  rewrite Hrun1. cbn [returned final]. split; [done|]. split; [done|].
  pose proof Hg1 as (Hr1 & _).
  assert (negb (ociPusher.marksRoot p d) || indexUsable s1 = true) as Hmark1.
  { destruct (ociPusher.marksRoot p d); [|done]. simpl.
    rewrite (grows_usable sM s1 Hg1). by apply HuM. }
  destruct (markRoot_run p d s1 Hmark1)
    as (sM2 & HrunM2 & HrM2 & HdM2 & _ & HpM2 & _).
  rewrite (bind_Ret _ _ _ _ _ HrunM2).
  destruct (pushBlob_present d sM2 (HpM2 d Hp1)) as (evs & ->).
  cbn [returned final]. split; [done|]. simpl.
  rewrite HdM2; [done|]. apply Hne. congruence.
Qed.

Lemma LoadIndex_returns (s : St) : exists e s1, OCI.LoadIndex s = Ret e s1.
Proof.
  rewrite LoadIndex_eq. cbv zeta.
  destruct (nodeAt (disk s) (indexPath s)) as [[|[b|doc]]|];
    try (by eexists _, _). destruct (negb _); by eexists _, _.
Qed.

(** X11: [CopyAll] reports no failure of the mapper or of a copy: the only
    error that it returns is that of loading the index.  With a mapper
    that fails, nothing is copied and nil is returned. *)
Theorem CopyAll_reports_only_load_errors
    (l : Layout.t) (to : Layout.Target)
    (toMapper : option (string -> result string)) (s : St) :
  match returned (Layout.CopyAll l to toMapper s) with
  | Some (ds, Some e) => returned (OCI.LoadIndex s) = Some (Some e) /\ ds = []
  | _ => True
  end
  /\ (forall e0 s1,
        OCI.LoadIndex s = Ret None s1 ->
        Layout.CopyAll l to (Some (fun _ => Err e0)) s = Ret ([], None) s1).
Proof.
  split.
  - unfold Layout.CopyAll, OCI.Walk.
    destruct (LoadIndex_returns s) as ([e|] & s1 & Hload).
    + unfold bind at 1. rewrite (bind_Ret _ _ _ _ _ Hload). simpl.
      by rewrite Hload.
    + unfold bind at 1. rewrite (bind_Ret _ _ _ _ _ Hload).
      unfold bind at 1.
      destruct (nameMap_Range _ _ s1) as [v s2|msg s2]; simpl; done.
  - intros e0 s1 Hload. unfold Layout.CopyAll, OCI.Walk.
    unfold bind at 1. rewrite (bind_Ret _ _ _ _ _ Hload).
    unfold nameMap_Range. unfold bind at 1. unfold bind at 1.
    unfold gets at 1.
    destruct (enum (nameMap s1)) as [|[k d] rest]; simpl; done.
Qed.

Lemma AddOCI_descriptor (l : Layout.t) (oci : artifact.OCI) (ref : string)
    (s s' : St) (d : ocispec.Descriptor) :
  Layout.AddOCI l oci ref s = Ret (d, None) s' -> rootOf l (ref, oci) d.
Proof.
  intros Hrun. destruct (AddOCI_run l oci ref s) as [[HF _]|HU].
  - by rewrite Hrun in HF.
  - destruct HU as (m & mdata & cdata & layers & s1 & s2 & s3
                     & EM & EJ & _ & _ & _ & _ & _ & Ho).
    exists m, mdata. split; [done|]. split; [done|].
    rewrite Hrun in Ho. unfold bind in Ho.
    destruct (Layout.AddIndex _ _) as [e s4|msg s4]; [|done].
    by injection Ho as -> _ _.
Qed.

Lemma addContents_result (l : Layout.t) (cnts : list (string * artifact.OCI))
    (acc : list ocispec.Descriptor) (s : St) :
  match Layout.addContents l cnts acc s with
  | Ret (descs, None) _ =>
      exists ds, descs = acc ++ ds /\ Forall2 (rootOf l) cnts ds
  | Ret (descs, Some _) _ => descs = []
  | Panic _ _ => True
  end.
Proof.
  revert acc s. induction cnts as [|[ref oci] cnts IH]; intros acc s.
  - simpl. exists []. by rewrite app_nil_r.
  - simpl. unfold bind.
    destruct (Layout.AddOCI l oci ref s) as [[d [e|]] s1|msg s1] eqn:E; simpl;
      [done| |done].
    specialize (IH (acc ++ [d]) s1).
    destruct (Layout.addContents l cnts (acc ++ [d]) s1)
      as [[descs [e|]] s2|msg s2]; try done.
    destruct IH as (ds & -> & Hall). exists (d :: ds).
    split; [by rewrite <- app_assoc|]. constructor; [|done].
    by apply (AddOCI_descriptor l oci ref s s1).
Qed.

(** X12: when [AddOCICollection] succeeds it returns one root descriptor
    for each entry, in the order in which the entries were visited; when
    it fails it returns no descriptor. *)
Theorem AddOCICollection_result
    (l : Layout.t) (collection : artifact.OCICollection) (s : St) :
  match Layout.AddOCICollection l collection s with
  | Ret (descs, None) _ =>
      exists cnts,
        artifact.Contents collection = Ok cnts
        /\ Forall2 (rootOf l) cnts descs
  | Ret (descs, Some _) _ => descs = []
  | Panic _ _ => True
  end.
Proof.
  unfold Layout.AddOCICollection.
  destruct (artifact.Contents collection) as [cnts|e]; [|done].
  pose proof (addContents_result l cnts [] s) as H.
  destruct (Layout.addContents l cnts [] s) as [[descs [e|]] s1|msg s1];
    try done.
  destruct H as (ds & -> & Hall). by exists cnts.
Qed.

(** X13: [Walk] loads the index and then shows every entry of the name
    map to the visitor, once; the error of the load is returned before
    anything is visited. *)
Theorem Walk_visits_each_entry_once (s : St) :
  let o := OCI.Walk recordAll [] s in
  match OCI.LoadIndex s with
  | Ret None s1 =>
      exists seen,
        o = Ret (seen, None) s1 /\ seen ≡ₚ map_to_list (nameMap s1)
  | Ret (Some e) s1 => o = Ret ([], Some e) s1
  | Panic _ _ => True
  end.
Proof.
  cbv zeta. destruct (LoadIndex_returns s) as ([e|] & s1 & Hload); rewrite Hload.
  - unfold OCI.Walk. by rewrite (bind_Ret _ _ _ _ _ Hload).
  - destruct (Walk_visits_every_pair s s1 Hload) as [H1 H2].
    exists (enum (nameMap s1)). by split.
Qed.
End Loading.


Lemma writeStream_keeps_partial_blob_witness :
  let s := OCI.NewOCI "/store" Scenario.emptyDisk in
  let p := ["store"; "blob"] in
  let rc := v1.mkReader (Scenario.bytes "ab") (Some (ErrOther "reset")) in
  let rc2 := v1.mkReader (Scenario.bytes "abcd") None in
  nodeAt (disk s) p = None /\ nodeAt (disk s) (parent p) = Some Dir
  /\ v1.failure rc = Some (ErrOther "reset")
  /\ (let first := OCI.writeStream p rc s in
      let second := OCI.writeStream p rc2 (final first) in
      snd <$> returned first = Some (Some (ErrOther "reset"))
      /\ disk (final first) !! p = Some (File (Raw (v1.pending rc)))
      /\ returned second = Some (rc2, None)
      /\ disk (final second) = disk (final first)).
Proof.
  cbv zeta.
  assert (nodeAt (disk (OCI.NewOCI "/store" Scenario.emptyDisk)) ["store"; "blob"]
          = None) as H1 by (vm_compute; reflexivity).
  assert (nodeAt (disk (OCI.NewOCI "/store" Scenario.emptyDisk))
            (parent ["store"; "blob"]) = Some Dir) as H2
    by (vm_compute; reflexivity).
  exact (conj H1 (conj H2 (conj eq_refl
    (writeStream_keeps_partial_blob ["store"; "blob"]
       (v1.mkReader (Scenario.bytes "ab") (Some (ErrOther "reset")))
       (v1.mkReader (Scenario.bytes "abcd") None) (ErrOther "reset")
       (OCI.NewOCI "/store" Scenario.emptyDisk) H1 H2 eq_refl)))).
Defined.

Lemma layerJob_present_blob_panics_witness :
  let l := Layout.mk "/store" None in
  let s := final (OCI.writeLayer Scenario.layer1
                    (OCI.NewOCI "/store" Scenario.emptyDisk)) in
  let h := v1.mkHash "sha256" "aa" in
  let dir := blobDir (Layout.Root l) (v1.Algorithm h) in
  v1.Digest Scenario.layer1 = Ok h
  /\ nodeAt (disk s) dir = Some Dir
  /\ is_Some (nodeAt (disk s) (joinOnto dir [v1.Hex h]))
  /\ panicked (Layout.layerJob l Scenario.layer1 s) = true
  /\ disk (final (Layout.layerJob l Scenario.layer1 s)) = disk s.
Proof.
  cbv zeta.
  set (s := final (OCI.writeLayer Scenario.layer1
                     (OCI.NewOCI "/store" Scenario.emptyDisk))).
  set (l := Layout.mk "/store" None).
  set (h := v1.mkHash "sha256" "aa").
  assert (nodeAt (disk s) (blobDir (Layout.Root l) (v1.Algorithm h)) = Some Dir)
    as H2 by (vm_compute; reflexivity).
  assert (is_Some (nodeAt (disk s)
            (joinOnto (blobDir (Layout.Root l) (v1.Algorithm h)) [v1.Hex h])))
    as H3 by (vm_compute; eexists; reflexivity).
  exact (conj eq_refl (conj H2 (conj H3
    (layerJob_present_blob_panics l Scenario.layer1 h s eq_refl H2 H3)))).
Defined.

Lemma Pusher_session_of_reference_witness :
  let s := PushScenario.store0 in
  let s1 := final (OCI.LoadIndex s) in
  let r := "app:v1@sha256:0a" in
  OCI.LoadIndex s = Ret None s1
  /\ exists p,
       ociPusher.Pusher r s = Ret (Some p, None) s1
       /\ noAt (ociPusher.ref p) = true
       /\ r = (if noAt r then ociPusher.ref p
               else String.append (ociPusher.ref p)
                      (String "@"%char (ociPusher.digest p)))
       /\ (noAt r = true ->
           ociPusher.digest p = ""
           /\ forall d s', blobStep s' (final (ociPusher.Push p d s'))).
Proof.
  cbv zeta.
  assert (OCI.LoadIndex PushScenario.store0
          = Ret None (final (OCI.LoadIndex PushScenario.store0))) as H1
    by (vm_compute; reflexivity).
  exact (conj H1
    (Pusher_session_of_reference "app:v1@sha256:0a" PushScenario.store0 _ H1)).
Defined.

Lemma Push_twice_discards_witness :
  let s := OCI.NewOCI "/store" Scenario.emptyDisk in
  let p := PushScenario.session in
  let d := PushScenario.rootManifest in
  let bp := storeDir (root s) ++ ["blobs"; "sha256"; "0a"] in
  digest.split (ocispec.Digest d) = Some ("sha256", "0a")
  /\ blobsWritable s "sha256" = true /\ simpleName "0a" = true
  /\ negb (ociPusher.marksRoot p d) || indexUsable s = true
  /\ disk s !! bp = None
  /\ (let first := ociPusher.Push p d s in
      let second := ociPusher.Push p d (final first) in
      returned first
      = Some (Some (mkWriter (ToFile bp) (Some (ocispec.Digest d))
                      (Some (ocispec.Digest d))), None)
      /\ disk (final first) !! bp = Some (File (Raw []))
      /\ returned second
         = Some (Some (mkWriter Discard None (Some (ocispec.Digest d))), None)
      /\ disk (final second) !! bp = Some (File (Raw []))).
Proof.
  cbv zeta.
  set (s := OCI.NewOCI "/store" Scenario.emptyDisk).
  assert (digest.split (ocispec.Digest PushScenario.rootManifest)
          = Some ("sha256", "0a")) as H1 by (vm_compute; reflexivity).
  assert (blobsWritable s "sha256" = true) as H2 by (vm_compute; reflexivity).
  assert (simpleName "0a" = true) as H3 by (vm_compute; reflexivity).
  assert (negb (ociPusher.marksRoot PushScenario.session PushScenario.rootManifest)
          || indexUsable s = true) as H4 by (vm_compute; reflexivity).
  assert (disk s !! (storeDir (root s) ++ ["blobs"; "sha256"; "0a"]) = None) as H5
    by (vm_compute; reflexivity).
  exact (conj H1 (conj H2 (conj H3 (conj H4 (conj H5
    (Push_twice_discards PushScenario.session PushScenario.rootManifest
       "sha256" "0a" s H1 H2 H3 H4 H5)))))).
Defined.

(** ** Blobs on the disk *)

Section Blobs.
Context `{ord : RangeOrder}.

(** X14: [writeBytes] stores the bytes under [blobs/sha256] at the path of
    their digest; a blob that is there is left as it is, and nothing
    else on the disk changes. *)
Theorem writeBytes_stores_at_digest_path (data : list byte) (s : St) :
  blobsWritable s "sha256" = true ->
  let dir := storeDir (root s) ++ ["blobs"; "sha256"] in
  let bp := storeDir (root s) ++ ["blobs"; "sha256"; SHA256.hex data] in
  let o := OCI.writeBytes data s in
  returned o = Some None
  /\ String.length (SHA256.hex data) = 64
  /\ disk (final o) !! dir = Some Dir
  /\ disk (final o) !! bp
     = match disk s !! bp with
       | Some x => Some x
       | None => Some (File (Raw data))
       end
  /\ forall q x, disk s !! q = Some x -> disk (final o) !! q = Some x.
Proof.
  intros Hw dir bp. cbv zeta.
  destruct (ensureBlob_ready "sha256" (SHA256.hex data) s Hw)
    as (s1 & Hrun & Hg & Hdir & Hkeep).
  pose proof Hg as (Hr & _ & _ & Hsub & _).
  rewrite writeBytes_unfold. rewrite (bind_Ret _ _ _ _ _ Hrun).
  rewrite joinOnto_simple by (simpl; by rewrite hex_simple).
  rewrite <- app_assoc. simpl. fold bp. rewrite <- Hr in Hdir.
  destruct (writeStream_ready "sha256" (SHA256.hex data) (v1.mkReader data None)
              s1 (hex_simple data) Hdir)
    as (r & s2 & Hrun2 & Hg2 & Hsome & Herr & Hcont).
  rewrite Hr in Hrun2, Hsome, Herr, Hcont, Hdir. fold bp in Hrun2, Hsome, Herr, Hcont.
  pose proof Hg2 as (_ & _ & _ & Hsub2 & _).
  rewrite (bind_Ret _ _ _ _ _ Hrun2). cbn [returned final ret].
  split; [by destruct Herr as [->|[_ ->]]|].
  split; [apply hex_length|].
  split; [by apply (lookup_weaken _ _ _ _ Hdir)|].
  split.
  - unfold Path in *. destruct (disk s !! bp) as [x|] eqn:E.
    + apply (lookup_weaken _ _ _ _ E). by etrans.
    + apply Hcont. etrans; [apply Hkeep|exact E].
  - intros q x Hq. apply (lookup_weaken _ _ _ _ Hq). by etrans.
Qed.

Lemma Fetch_absent (d : ocispec.Descriptor) (alg hex : string) (s : St) :
  digest.split (ocispec.Digest d) = Some (alg, hex) ->
  blobsWritable s alg = true -> simpleName hex = true ->
  let dir := storeDir (root s) ++ ["blobs"; alg] in
  let bp := storeDir (root s) ++ ["blobs"; alg; hex] in
  disk s !! bp = None ->
  exists e s',
    OCI.Fetch d s = Ret (Err e) s'
    /\ grows s s' /\ disk s' !! bp = None /\ disk s' !! dir = Some Dir.
Proof.
  intros Hsplit Hw Hhex dir bp Habs.
  destruct (ensureBlob_ready alg hex s Hw) as (s1 & Hrun & Hg & Hdir & Hkeep).
  unfold OCI.Fetch, OCI.blobReaderAt, digest_Algorithm, digest_Hex.
  rewrite Hsplit. unfold bind at 1. unfold bind at 1. unfold ret at 1.
  unfold bind at 1. unfold ret at 1. unfold bind at 1. rewrite Hrun.
  rewrite os_Open_eq. rewrite joinOnto_simple by (simpl; by rewrite Hhex).
  rewrite <- app_assoc. simpl. fold bp.
  assert (disk s1 !! bp = None) as Hn1 by (etrans; [apply Hkeep|exact Habs]).
  assert (nodeAt (disk s1) bp = None) as ->.
  { rewrite nodeAt_lookup by (unfold bp; by destruct (storeDir (root s))).
    exact Hn1. }
  eexists _, _. split; [reflexivity|]. split; [exact Hg|]. by split.
Qed.

(** X15: fetching a blob that is not there gives an error and no file, but
    the directory of the algorithm has been made. *)
Theorem Fetch_absent_blob
    (d : ocispec.Descriptor) (alg hex : string) (s : St) :
  digest.split (ocispec.Digest d) = Some (alg, hex) ->
  blobsWritable s alg = true -> simpleName hex = true ->
  let dir := storeDir (root s) ++ ["blobs"; alg] in
  let bp := storeDir (root s) ++ ["blobs"; alg; hex] in
  disk s !! bp = None ->
  let o := OCI.Fetch d s in
  (exists e, returned o = Some (Err e))
  /\ disk (final o) !! bp = None
  /\ disk (final o) !! dir = Some Dir
  /\ disk s ⊆ disk (final o).
Proof.
  intros Hsplit Hw Hhex dir bp Habs. cbv zeta.
  destruct (Fetch_absent d alg hex s Hsplit Hw Hhex Habs)
    as (e & s' & Hrun & Hg & Hn & Hdir).
  rewrite Hrun. cbn [returned final].
  split; [by exists e|]. split; [done|]. split; [done|]. apply Hg.
Qed.

Lemma Layout_writeBytes_created (l : Layout.t) (data : list byte) (s s' : St) :
  Layout.writeBytes l data s = Ret None s' ->
  disk s !! blobPathOf (Layout.Root l) data = None
  /\ disk s' !! blobPathOf (Layout.Root l) data = Some (File (Raw data)).
Proof.
  rewrite Layout_writeBytes_unfold.
  pose proof (writerAt_opened l "sha256" (SHA256.hex data) s) as HW.
  fold (blobPathOf (Layout.Root l) data) in HW.
  destruct (Layout.writerAt _ _ _ s) as [[[f|] [e|]] s1|] eqn:EW; try done;
    destruct HW as [HB HW]; try done;
    rewrite (bind_Ret _ _ _ _ _ EW); simpl; try done.
  destruct HW as (-> & Hnew & Hf & evs & Hlog & Hin).
  destruct (File_Write_opened s s1 _ [] data HB Hnew Hf)
    as (s'' & HFW & HB' & Hc & Hlog').
  rewrite (bind_Ret _ _ _ _ _ HFW). simpl. intros H. by injection H as <-.
Qed.

Lemma Layout_writeBytes_returns (l : Layout.t) (data : list byte) (s : St) :
  exists e s', Layout.writeBytes l data s = Ret e s'.
Proof.
  rewrite Layout_writeBytes_unfold.
  pose proof (writerAt_opened l "sha256" (SHA256.hex data) s) as HW.
  destruct (Layout.writerAt _ _ _ s) as [[[f|] [e|]] s1|] eqn:EW; try done;
    destruct HW as [HB HW]; try done;
    rewrite (bind_Ret _ _ _ _ _ EW); simpl; try (by eexists _, _).
  destruct HW as (-> & Hnew & Hf & evs & Hlog & Hin).
  destruct (File_Write_opened s s1 _ [] data HB Hnew Hf)
    as (s'' & HFW & HB' & Hc & Hlog').
  rewrite (bind_Ret _ _ _ _ _ HFW). simpl. by eexists _, _.
Qed.

(** [writeBytes] of the layout when the blob is there: whatever the
    directories are, it fails. *)
Lemma Layout_writeBytes_present (l : Layout.t) (data : list byte) (s : St) :
  is_Some (disk s !! blobPathOf (Layout.Root l) data) ->
  exists e s', Layout.writeBytes l data s = Ret (Some e) s'.
Proof.
  intros Hp. destruct (Layout_writeBytes_returns l data s) as ([e|] & s' & E).
  - by eexists _, _.
  - apply Layout_writeBytes_created in E as [E _]. rewrite E in Hp.
    by destruct Hp.
Qed.

Lemma createFile_inl (d d' : FS) (p : Path) (c : content) :
  createFile d p c = inl d' -> d' = <[p := File c]> d.
Proof.
  unfold createFile. destruct (nodeAt d p) as [[|c0]|].
  - done.
  - by intros [= <-].
  - destruct (nodeAt d (parent p)) as [[|c0]|]; try done. by intros [= <-].
Qed.

(** What [AddIndex] leaves of the disk when it returns nil: all but the
    index document. *)
Lemma AddIndex_keeps_blobs (desc : ocispec.Descriptor) (s s' : St) (q : Path) :
  Layout.AddIndex desc s = Ret None s' -> q <> indexPath s ->
  disk s' !! q = disk s !! q.
Proof.
  unfold Layout.AddIndex. rewrite (bind_Ret _ _ _ _ _ (nameMap_Store_eq _ _ _)).
  rewrite SaveIndex_eq. cbv zeta. simpl.
  change (indexPath (mkSt _ _ _ _ _)) with (indexPath s).
  destruct (index s) as [idx|]; [|done].
  destruct (createFile (disk s) (indexPath s) _) as [d'|e] eqn:E; [|done].
  apply createFile_inl in E as ->. intros [= <-] Hq. simpl.
  by rewrite lookup_insert_ne.
Qed.

(** X16: an artifact that [AddOCI] has ingested cannot be ingested again:
    the manifest blob is there, and the write of it fails. *)
Theorem AddOCI_succeeds_once
    (l : Layout.t) (oci : artifact.OCI) (ref ref2 : string)
    (s s' : St) (d : ocispec.Descriptor) :
  Layout.Root l = root s ->
  Layout.AddOCI l oci ref s = Ret (d, None) s' ->
  exists e s'', Layout.AddOCI l oci ref2 s' = Ret (ocispec.zero, Some e) s''.
Proof.
  intros Hroot Hrun. destruct (AddOCI_run l oci ref s) as [[HF _]|HU].
  { by rewrite Hrun in HF. }
  destruct HU as (m & mdata & cdata & layers & s1 & s2 & s3
                   & EM & EJ & EC & EL & H1 & H2 & H3 & Ho).
  rewrite Hrun in Ho.
  pose proof (Layout_writeBytes_blobStep l mdata s) as B1.
  rewrite H1 in B1. simpl in B1.
  pose proof (Layout_writeBytes_blobStep l cdata s1) as B2.
  rewrite H2 in B2. simpl in B2.
  pose proof (Layout_goLayers_blobStep l layers None s2) as B3.
  rewrite H3 in B3. simpl in B3.
  assert (blobStep s1 s3) as B13 by (by etrans).
  assert (root s3 = root s) as Hr3.
  { destruct B1 as (R1 & _), B13 as (R3 & _). congruence. }
  apply Layout_writeBytes_created in H1 as [_ Hm].
  assert (disk s3 !! blobPathOf (Layout.Root l) mdata = Some (File (Raw mdata)))
    as Hm3.
  { destruct B13 as (_ & _ & _ & Hsub & _). by apply (lookup_weaken _ _ _ _ Hm). }
  unfold bind in Ho.
  destruct (Layout.AddIndex _ (waited s3)) as [[e|] s4|msg s4] eqn:EA;
    simpl in Ho; try done.
  injection Ho as _ <-.
  assert (disk s' !! blobPathOf (Layout.Root l) mdata = Some (File (Raw mdata)))
    as Hm'.
  { rewrite (AddIndex_keeps_blobs _ _ _ _ EA); [exact Hm3|].
    change (indexPath (waited s3)) with (indexPath s3).
    assert (indexPath s3 = indexPath s) as -> by (unfold indexPath; by rewrite Hr3).
    rewrite Hroot. apply blobPathOf_not_index. }
  destruct (Layout_writeBytes_present l mdata s') as (e & s'' & E);
    [by eexists|].
  exists e, s''. unfold Layout.AddOCI. fold (cachedArtifact l oci).
  rewrite EM, EJ. by rewrite (bind_Ret _ _ _ _ _ E).
Qed.
End Blobs.

Lemma writeBytes_stores_at_digest_path_witness :
  let s := OCI.NewOCI "/store" Scenario.emptyDisk in
  let data := Scenario.bytes "c1" in
  let dir := storeDir (root s) ++ ["blobs"; "sha256"] in
  let bp := storeDir (root s) ++ ["blobs"; "sha256"; SHA256.hex data] in
  let o := OCI.writeBytes data s in
  blobsWritable s "sha256" = true
  /\ returned o = Some None
  /\ String.length (SHA256.hex data) = 64
  /\ disk (final o) !! dir = Some Dir
  /\ disk (final o) !! bp
     = match disk s !! bp with
       | Some x => Some x
       | None => Some (File (Raw data))
       end
  /\ forall q x, disk s !! q = Some x -> disk (final o) !! q = Some x.
Proof.
  cbv zeta.
  assert (blobsWritable (OCI.NewOCI "/store" Scenario.emptyDisk) "sha256" = true)
    as H1 by (vm_compute; reflexivity).
  exact (conj H1
    (writeBytes_stores_at_digest_path (Scenario.bytes "c1")
       (OCI.NewOCI "/store" Scenario.emptyDisk) H1)).
Defined.

Lemma Fetch_absent_blob_witness :
  let s := OCI.NewOCI "/store" Scenario.emptyDisk in
  let d := Scenario.manifestDesc "sha256:0a" in
  let dir := storeDir (root s) ++ ["blobs"; "sha256"] in
  let bp := storeDir (root s) ++ ["blobs"; "sha256"; "0a"] in
  let o := OCI.Fetch d s in
  digest.split (ocispec.Digest d) = Some ("sha256", "0a")
  /\ blobsWritable s "sha256" = true /\ simpleName "0a" = true
  /\ disk s !! bp = None
  /\ (exists e, returned o = Some (Err e))
  /\ disk (final o) !! bp = None
  /\ disk (final o) !! dir = Some Dir
  /\ disk s ⊆ disk (final o).
Proof.
  cbv zeta.
  set (s := OCI.NewOCI "/store" Scenario.emptyDisk).
  assert (digest.split (ocispec.Digest (Scenario.manifestDesc "sha256:0a"))
          = Some ("sha256", "0a")) as H1 by (vm_compute; reflexivity).
  assert (blobsWritable s "sha256" = true) as H2 by (vm_compute; reflexivity).
  assert (simpleName "0a" = true) as H3 by (vm_compute; reflexivity).
  assert (disk s !! (storeDir (root s) ++ ["blobs"; "sha256"; "0a"]) = None) as H4
    by (vm_compute; reflexivity).
  exact (conj H1 (conj H2 (conj H3 (conj H4
    (Fetch_absent_blob (Scenario.manifestDesc "sha256:0a") "sha256" "0a" s
       H1 H2 H3 H4))))).
Defined.

Lemma returned_final {A} (o : outcome A) (a : A) :
  returned o = Some a -> o = Ret a (final o).
Proof. destruct o; [|done]. by intros [= ->]. Qed.

Lemma AddOCI_succeeds_once_witness :
  Layout.Root LayoutScenario.layout = root LayoutScenario.store0
  /\ Layout.AddOCI LayoutScenario.layout (Scenario.image "m1" "c1") "app:v1"
       LayoutScenario.store0
     = Ret (LayoutScenario.root1, None) LayoutScenario.ingested
  /\ exists e s'',
       Layout.AddOCI LayoutScenario.layout (Scenario.image "m1" "c1") "app:v2"
         LayoutScenario.ingested
       = Ret (ocispec.zero, Some e) s''.
Proof.
  assert (Layout.Root LayoutScenario.layout = root LayoutScenario.store0) as H1
    by (vm_compute; reflexivity).
  assert (returned
            (Layout.AddOCI LayoutScenario.layout (Scenario.image "m1" "c1")
               "app:v1" LayoutScenario.store0)
          = Some (LayoutScenario.root1, None)) as H2
    by (vm_compute; reflexivity).
  exact (conj H1 (conj (returned_final _ _ H2)
    (AddOCI_succeeds_once LayoutScenario.layout (Scenario.image "m1" "c1")
       "app:v1" "app:v2" LayoutScenario.store0 LayoutScenario.ingested
       LayoutScenario.root1 H1 (returned_final _ _ H2)))).
Defined.

(** ** Ingestion of a fresh artifact through the layout *)

Section Fresh.
Context `{ord : RangeOrder}.

Lemma writerAt_fresh (l : Layout.t) (alg hex : string) (s : St) :
  Layout.Root l = root s ->
  blobsWritable s alg = true -> simpleName hex = true ->
  let bp := storeDir (root s) ++ ["blobs"; alg; hex] in
  disk s !! bp = None ->
  exists s1,
    Layout.writerAt l alg hex s = Ret (Some bp, None) s1
    /\ createsBlob s s1 bp [].
Proof.
  intros Hroot Hw Hhex bp Habs.
  assert (simpleName alg = true) as Halg.
  { unfold blobsWritable in Hw. do 3 (apply andb_true_iff in Hw as [Hw _]).
    exact Hw. }
  unfold blobsWritable in Hw.
  apply andb_true_iff in Hw as [Hw H3]. apply andb_true_iff in Hw as [Hw H2].
  apply andb_true_iff in Hw as [_ H1].
  destruct (mkdirAll_blobDir _ _ alg H1 H2 H3) as (d' & Hmk & Hd & Hsub & Hnew).
  assert (bp = (storeDir (root s) ++ ["blobs"; alg]) ++ [hex]) as Hbp
    by (unfold bp; by rewrite <- app_assoc).
  assert (forall q, length q = length (storeDir (root s)) + 3 ->
            d' !! q = disk s !! q) as Hlong.
  { intros q Hq. destruct (d' !! q) as [x|] eqn:E.
    - destruct (Hnew _ _ E) as [Hx|[_ Hx]]; [by rewrite Hx|]. exfalso.
      destruct Hx as [->| ->]; rewrite !length_app in Hq; simpl in Hq; lia.
    - destruct (disk s !! q) as [y|] eqn:E2; [|done].
      by rewrite (lookup_weaken _ _ _ _ E2 Hsub) in E. }
  assert (length bp = length (storeDir (root s)) + 3) as Hlen
    by (unfold bp; rewrite length_app; simpl; lia).
  rewrite writerAt_eq. cbv zeta. rewrite Hroot, (blobDir_eq _ _ Halg), Hmk.
  rewrite joinOnto_simple by (simpl; by rewrite Hhex). rewrite <- Hbp.
  rewrite statCreate_eq. simpl.
  assert (nodeAt d' bp = None) as Hn.
  { rewrite Hbp, nodeAt_snoc, <- Hbp. rewrite (Hlong bp Hlen). exact Habs. }
  rewrite Hn. unfold createFile. rewrite Hn.
  assert (nodeAt d' (parent bp) = Some Dir) as ->.
  { rewrite Hbp, parent_snoc.
    rewrite nodeAt_lookup by (by destruct (storeDir (root s))). exact Hd. }
  eexists. split; [reflexivity|]. split; [|split].
  - split; [done|]. split; [done|]. split; [done|]. split.
    + simpl. etrans; [exact Hsub|]. apply insert_subseteq. by apply nodeAt_None.
    + intros q x Hq. simpl in Hq. destruct (decide (q = bp)) as [->|Hne].
      * rewrite lookup_insert_eq in Hq. injection Hq as <-.
        right. right. by exists alg, hex, [].
      * rewrite lookup_insert_ne in Hq by done.
        destruct (Hnew _ _ Hq) as [Hx|[-> Hx]]; [by left|].
        right. left. split; [done|].
        destruct Hx as [->| ->]; [by left|right; by exists alg].
  - simpl. by rewrite lookup_insert_eq.
  - intros q Hq Hne. simpl. rewrite lookup_insert_ne by done. by apply Hlong.
Qed.

Lemma File_Write_fresh (s s1 : St) (bp : Path) (data : list byte) :
  createsBlob s s1 bp [] -> disk s !! bp = None ->
  exists s2,
    File_Write (Some bp) data s1 = Ret (length data, None) s2
    /\ createsBlob s s2 bp data.
Proof.
  intros ((Hr & Hi & Hn & Hsub & Hnew) & Hc & Hframe) Habs.
  unfold File_Write, bind, emit, modify, gets, ret. simpl. rewrite Hc.
  eexists. split; [reflexivity|]. split; [|split].
  - split; [done|]. split; [done|]. split; [done|]. split.
    + simpl. by apply create_write_subseteq.
    + intros q x Hq. simpl in Hq. destruct (decide (q = bp)) as [->|Hne].
      * rewrite lookup_insert_eq in Hq. injection Hq as <-.
        destruct (Hnew _ _ Hc) as [Hx|Hx]; [by rewrite Habs in Hx|].
        right. destruct Hx as [[? _]|(a & h & b & -> & _)]; [done|].
        right. by exists a, h, data.
      * rewrite lookup_insert_ne in Hq by done. by apply Hnew.
  - simpl. by rewrite lookup_insert_eq.
  - intros q Hq Hne. simpl. rewrite lookup_insert_ne by done. by apply Hframe.
Qed.

Lemma Layout_writeBytes_fresh (l : Layout.t) (data : list byte) (s : St) :
  Layout.Root l = root s -> blobsWritable s "sha256" = true ->
  disk s !! blobPathOf (root s) data = None ->
  exists s',
    Layout.writeBytes l data s = Ret None s'
    /\ createsBlob s s' (blobPathOf (root s) data) data.
Proof.
  intros Hroot Hw Habs. rewrite blobPathOf_eq in *.
  destruct (writerAt_fresh l "sha256" (SHA256.hex data) s Hroot Hw
              (hex_simple data) Habs) as (s1 & Hrun & Hc).
  destruct (File_Write_fresh s s1 _ data Hc Habs) as (s2 & Hrun2 & Hc2).
  exists s2. split; [|done]. rewrite Layout_writeBytes_unfold.
  rewrite (bind_Ret _ _ _ _ _ Hrun). simpl.
  by rewrite (bind_Ret _ _ _ _ _ Hrun2).
Qed.

Lemma layerJob_fresh (l : Layout.t) (layer : v1.Layer) (s : St) :
  Layout.Root l = root s -> layerReady s layer = true ->
  disk s !! layerPath (root s) layer = None ->
  exists rc s',
    v1.Compressed layer = Ok rc
    /\ Layout.layerJob l layer s = Ret None s'
    /\ createsBlob s s' (layerPath (root s) layer) (v1.pending rc).
Proof.
  intros Hroot. unfold layerReady, layerPath, Layout.layerJob.
  destruct (v1.Digest layer) as [h|]; [|done].
  destruct (v1.Compressed layer) as [rc|] eqn:EC; [|done].
  intros H Habs. apply andb_true_iff in H as [H H3].
  apply andb_true_iff in H as [H1 H2].
  destruct (writerAt_fresh l _ _ s Hroot H3 H1 Habs) as (s1 & Hrun & Hc).
  set (bp := storeDir (root s) ++ ["blobs"; v1.Algorithm h; v1.Hex h]) in *.
  assert (File_Stat (Some bp) s1
          = Ret (Some 0%Z, None) (withLog (log s1 ++ [EvStat bp]) s1)) as Hstat.
  { destruct Hc as (_ & Hf & _).
    unfold File_Stat, bind, emit, modify, gets, ret. simpl. by rewrite Hf. }
  assert (createsBlob s (withLog (log s1 ++ [EvStat bp]) s1) bp []) as Hc'
    by exact Hc.
  destruct (File_Write_fresh s _ _ (v1.pending rc) Hc' Habs) as (s2 & Hrun2 & Hc2).
  exists rc, s2. split; [done|]. split; [|done].
  rewrite (bind_Ret _ _ _ _ _ Hrun). cbn [fst snd].
  rewrite (bind_Ret _ _ _ _ _ Hstat). cbn [fst snd negb Z.eqb].
  unfold io_Copy. unfold bind at 1. rewrite (bind_Ret _ _ _ _ _ Hrun2).
  cbn [fst snd]. unfold noFailure in H2. unfold ret.
  by destruct (v1.failure rc).
Qed.

Lemma layerPath_length (s : St) (layer : v1.Layer) :
  layerReady s layer = true ->
  length (layerPath (root s) layer) = length (storeDir (root s)) + 3.
Proof.
  unfold layerReady, layerPath. destruct (v1.Digest layer); [|done].
  intros _. rewrite length_app. simpl. lia.
Qed.

Lemma blobPathOf_length (r : string) (data : list byte) :
  length (blobPathOf r data) = length (storeDir r) + 3.
Proof. rewrite blobPathOf_eq, length_app. simpl. lia. Qed.

Lemma absent_None (s : St) (q : Path) : absent s q = true -> disk s !! q = None.
Proof. unfold absent. by destruct (disk s !! q). Qed.

Lemma goLayers_fresh (l : Layout.t) (layers : list v1.Layer) (s : St) :
  Layout.Root l = root s -> forallb (layerReady s) layers = true ->
  NoDup (List.map (layerPath (root s)) layers) ->
  forallb (absent s) (List.map (layerPath (root s)) layers) = true ->
  exists s',
    Layout.goLayers l None layers s = Ret None s'
    /\ grows s s'
    /\ Forall (fun layer =>
         exists rc, v1.Compressed layer = Ok rc
           /\ disk s' !! layerPath (root s) layer
              = Some (File (Raw (v1.pending rc)))) layers
    /\ forall q, length q = length (storeDir (root s)) + 3 ->
         q ∉ List.map (layerPath (root s)) layers ->
         disk s' !! q = disk s !! q.
Proof.
  revert s. induction layers as [|layer layers IH]; intros s Hroot Hready Hnd Habs.
  - exists s. split; [done|]. split; [apply grows_refl|]. by split.
  - simpl in Hready, Hnd, Habs.
    apply andb_true_iff in Hready as [Hr1 Hr2].
    apply andb_true_iff in Habs as [Ha1 Ha2].
    apply NoDup_cons in Hnd as [Hnotin Hnd].
    destruct (layerJob_fresh l layer s Hroot Hr1 (absent_None _ _ Ha1))
      as (rc & s1 & EC & Hrun & Hg & Hc & Hframe).
    pose proof Hg as (Hroot1 & _).
    assert (forallb (layerReady s1) layers = true) as Hr2'.
    { apply forallb_forall. intros x Hx. apply (grows_layerReady s s1 _ Hg).
      by apply (proj1 (forallb_forall _ _) Hr2). }
    assert (forallb (absent s1) (List.map (layerPath (root s1)) layers) = true)
      as Ha2'.
    { rewrite Hroot1. apply forallb_forall. intros q Hq.
      pose proof (proj1 (forallb_forall _ _) Ha2 q Hq) as Hq0.
      unfold absent in *. rewrite Hframe; [done| |].
      - apply in_map_iff in Hq as (x & <- & Hx). apply layerPath_length.
        by apply (proj1 (forallb_forall _ _) Hr2).
      - intros ->. apply Hnotin. by apply list_elem_of_In. }
    destruct (IH s1) as (s' & Hrun' & Hg' & Hall & Hframe');
      [congruence|done|by rewrite Hroot1|done|].
    rewrite Hroot1 in Hall, Hframe'.
    exists s'. split.
    { simpl. unfold errgroup_Go. unfold bind at 1. unfold bind at 1.
      rewrite Hrun. unfold ret at 1. exact Hrun'. }
    split; [by eapply grows_trans|]. split.
    + constructor; [|done]. exists rc. split; [done|].
      destruct Hg' as (_ & _ & _ & Hsub & _).
      by apply (lookup_weaken _ _ _ _ Hc).
    + intros q Hq Hnin. apply not_elem_of_cons in Hnin as [Hne Hnin].
      rewrite Hframe' by done. by apply Hframe.
Qed.

Lemma AddIndex_usable (m : v1.Manifest) (mdata : list byte) (ref : string)
    (idx : ocispec.Index) (s : St) :
  index s = Some idx -> indexWritable s = true ->
  let names := <[ref := rootDescriptor m mdata ref]> (nameMap s) in
  let doc :=
    ocispec.mkIndex (ocispec.SchemaVersion idx) (stamped (enum names))
      (ocispec.IndexAnnotations idx) in
  Layout.AddIndex (rootDescriptor m mdata ref) s
  = Ret None
      (mkSt (<[indexPath s := File (IndexDoc doc)]> (disk s))
         (log s ++ [EvStore ref; EvWriteFile (indexPath s)])
         (root s) (Some doc) (shareStamp (enum names) names)).
Proof.
  intros Hi Hw. cbv zeta. unfold Layout.AddIndex.
  change (ocispec.annotation ocispec.AnnotationRefName (rootDescriptor m mdata ref))
    with (refName (rootDescriptor m mdata ref)).
  rewrite refName_rootDescriptor.
  rewrite (bind_Ret _ _ _ _ _ (nameMap_Store_eq _ _ _)).
  rewrite SaveIndex_eq. cbv zeta. simpl. rewrite Hi.
  change (indexPath (mkSt _ _ _ _ _)) with (indexPath s).
  rewrite (createFile_writable s _ Hw). by rewrite <- app_assoc.
Qed.

(** X17: [AddOCI] of an artifact none of whose blobs is in the store
    succeeds: it returns the root descriptor, every blob holds its
    bytes, and the reference is registered and persisted. *)
Theorem AddOCI_fresh_succeeds
    (l : Layout.t) (oci : artifact.OCI) (ref : string) (s : St)
    (idx : ocispec.Index) (m : v1.Manifest) (mdata cdata : list byte)
    (layers : list v1.Layer) :
  Layout.Root l = root s -> index s = Some idx -> storeReady s = true ->
  artifact.Manifest (cachedArtifact l oci) = Ok m -> v1.Marshal m = Ok mdata ->
  artifact.RawConfig (cachedArtifact l oci) = Ok cdata ->
  artifact.Layers (cachedArtifact l oci) = Ok layers ->
  forallb (layerReady s) layers = true ->
  NoDup (artifactPaths (root s) mdata cdata layers) ->
  forallb (absent s) (artifactPaths (root s) mdata cdata layers) = true ->
  exists s',
    Layout.AddOCI l oci ref s = Ret (rootDescriptor m mdata ref, None) s'
    /\ disk s' !! blobPathOf (root s) mdata = Some (File (Raw mdata))
    /\ disk s' !! blobPathOf (root s) cdata = Some (File (Raw cdata))
    /\ Forall (fun layer =>
         exists rc, v1.Compressed layer = Ok rc
           /\ disk s' !! layerPath (root s) layer
              = Some (File (Raw (v1.pending rc)))) layers
    /\ nameMap s' !! ref = Some (rootDescriptor m mdata ref)
    /\ exists doc,
         disk s' !! indexPath s = Some (File (IndexDoc doc))
         /\ rootDescriptor m mdata ref ∈ ocispec.Manifests doc.
Proof.
  intros Hroot Hi Hs EM EJ EC EL Hready Hnd Habs.
  unfold storeReady in Hs. apply andb_true_iff in Hs as [Hw Hu].
  unfold artifactPaths in Hnd, Habs. simpl in Habs.
  apply andb_true_iff in Habs as [Ham Habs].
  apply andb_true_iff in Habs as [Hac Hal].
  apply NoDup_cons in Hnd as [Hm_notin Hnd].
  apply NoDup_cons in Hnd as [Hc_notin Hnd].
  apply not_elem_of_cons in Hm_notin as [Hmc Hm_notin].
  destruct (Layout_writeBytes_fresh l mdata s Hroot Hw (absent_None _ _ Ham))
    as (s1 & Hrun1 & Hg1 & Hc1 & Hf1).
  pose proof Hg1 as (Hr1 & Hi1 & Hn1 & Hsub1 & _).
  assert (disk s1 !! blobPathOf (root s1) cdata = None) as Hac1.
  { rewrite Hr1, Hf1; [by apply absent_None|apply blobPathOf_length|done]. }
  destruct (Layout_writeBytes_fresh l cdata s1) as (s2 & Hrun2 & Hg2 & Hc2 & Hf2);
    [congruence|by apply (grows_writable s s1)|done|].
  rewrite Hr1 in Hc2, Hf2.
  pose proof Hg2 as (Hr2 & Hi2 & Hn2 & Hsub2 & _).
  pose proof (grows_trans _ _ _ Hg1 Hg2) as Hg12.
  assert (forallb (layerReady s2) layers = true) as Hready2.
  { apply forallb_forall. intros x Hx. apply (grows_layerReady s s2 _ Hg12).
    by apply (proj1 (forallb_forall _ _) Hready). }
  assert (root s2 = root s) as Hroot2 by congruence.
  assert (forallb (absent s2) (List.map (layerPath (root s2)) layers) = true)
    as Hal2.
  { rewrite Hroot2. apply forallb_forall. intros q Hq.
    pose proof (proj1 (forallb_forall _ _) Hal q Hq) as Hq0.
    assert (length q = length (storeDir (root s)) + 3) as Hlen.
    { apply in_map_iff in Hq as (x & <- & Hx). apply layerPath_length.
      by apply (proj1 (forallb_forall _ _) Hready). }
    apply list_elem_of_In in Hq.
    unfold absent in *.
    rewrite Hf2; [|done|intros ->; by apply Hc_notin].
    rewrite Hf1; [done|done|intros ->; by apply Hm_notin]. }
  destruct (goLayers_fresh l layers s2) as (s3 & Hrun3 & Hg3 & Hall & Hf3);
    [congruence|done|by rewrite Hroot2|done|].
  rewrite Hroot2 in Hall, Hf3.
  pose proof Hg3 as (Hr3 & Hi3 & Hn3 & Hsub3 & _).
  pose proof (grows_trans _ _ _ Hg12 Hg3) as Hg13.
  assert (indexWritable (waited s3) = true) as Hw3.
  { apply indexUsable_writable.
    change (indexUsable (waited s3)) with (indexUsable s3).
    by rewrite (grows_usable s s3 Hg13). }
  assert (index (waited s3) = Some idx) as Hi3' by (simpl; congruence).
  pose proof (AddIndex_usable m mdata ref idx (waited s3) Hi3' Hw3) as Hidx.
  cbv zeta in Hidx.
  assert (indexPath (waited s3) = indexPath s) as Hip.
  { unfold indexPath. simpl. by rewrite Hr3, Hroot2. }
  rewrite Hip in Hidx.
  eexists. split.
  { unfold Layout.AddOCI. fold (cachedArtifact l oci). rewrite EM, EJ.
    rewrite (bind_Ret _ _ _ _ _ Hrun1). rewrite EC.
    rewrite (bind_Ret _ _ _ _ _ Hrun2). rewrite EL.
    rewrite (bind_Ret _ _ _ _ _ Hrun3).
    assert (errgroup_Wait None s3 = Ret None (waited s3)) as EW by reflexivity.
    rewrite (bind_Ret _ _ _ _ _ EW). fold (rootDescriptor m mdata ref).
    rewrite (bind_Ret _ _ _ _ _ Hidx). reflexivity. }
  simpl.
  split; [|split; [|split; [|split]]].
  - rewrite lookup_insert_ne
      by (intros E; symmetry in E; by apply blobPathOf_not_index in E).
    apply (lookup_weaken _ _ _ _ Hc1). by etrans.
  - rewrite lookup_insert_ne
      by (intros E; symmetry in E; by apply blobPathOf_not_index in E).
    by apply (lookup_weaken _ _ _ _ Hc2).
  - eapply Forall_impl; [exact Hall|]. intros layer (rc & Hrc & Hx).
    exists rc. split; [done|]. rewrite lookup_insert_ne; [done|].
    intros E. symmetry in E. by apply layerPath_not_index in E.
  - rewrite shareStamp_enum, lookup_insert_eq. simpl.
    unfold stampShared. simpl. by rewrite stamp_rootDescriptor.
  - eexists. split; [by rewrite lookup_insert_eq|]. simpl.
    apply elem_of_stamped. exists ref, (rootDescriptor m mdata ref).
    split; [by rewrite lookup_insert_eq|]. by rewrite stamp_rootDescriptor.
Qed.
End Fresh.

Lemma AddOCI_fresh_succeeds_witness :
  let l := LayoutScenario.layout in
  let s := LayoutScenario.store0 in
  let oci := Scenario.image "m1" "c1" in
  let m := v1.mkManifest ocispec.MediaTypeImageManifest (Ok (Scenario.bytes "m1")) in
  let mdata := Scenario.bytes "m1" in
  let cdata := Scenario.bytes "c1" in
  let layers := [Scenario.layer1] in
  Layout.Root l = root s /\ index s = Some freshIndex /\ storeReady s = true
  /\ artifact.Manifest (cachedArtifact l oci) = Ok m /\ v1.Marshal m = Ok mdata
  /\ artifact.RawConfig (cachedArtifact l oci) = Ok cdata
  /\ artifact.Layers (cachedArtifact l oci) = Ok layers
  /\ forallb (layerReady s) layers = true
  /\ NoDup (artifactPaths (root s) mdata cdata layers)
  /\ forallb (absent s) (artifactPaths (root s) mdata cdata layers) = true
  /\ exists s',
       Layout.AddOCI l oci "app:v1" s = Ret (rootDescriptor m mdata "app:v1", None) s'
       /\ disk s' !! blobPathOf (root s) mdata = Some (File (Raw mdata))
       /\ disk s' !! blobPathOf (root s) cdata = Some (File (Raw cdata))
       /\ Forall (fun layer =>
            exists rc, v1.Compressed layer = Ok rc
              /\ disk s' !! layerPath (root s) layer
                 = Some (File (Raw (v1.pending rc)))) layers
       /\ nameMap s' !! "app:v1" = Some (rootDescriptor m mdata "app:v1")
       /\ exists doc,
            disk s' !! indexPath s = Some (File (IndexDoc doc))
            /\ rootDescriptor m mdata "app:v1" ∈ ocispec.Manifests doc.
Proof.
  cbv zeta.
  assert (Layout.Root LayoutScenario.layout = root LayoutScenario.store0) as H1
    by (vm_compute; reflexivity).
  assert (index LayoutScenario.store0 = Some freshIndex) as H2
    by (vm_compute; reflexivity).
  assert (storeReady LayoutScenario.store0 = true) as H3
    by (vm_compute; reflexivity).
  assert (forallb (layerReady LayoutScenario.store0) [Scenario.layer1] = true) as H4
    by (vm_compute; reflexivity).
  assert (NoDup (artifactPaths (root LayoutScenario.store0) (Scenario.bytes "m1")
                   (Scenario.bytes "c1") [Scenario.layer1])) as H5
    by (apply (@bool_decide_unpack _ (NoDup_dec _)); vm_compute; exact I).
  assert (forallb (absent LayoutScenario.store0)
            (artifactPaths (root LayoutScenario.store0) (Scenario.bytes "m1")
               (Scenario.bytes "c1") [Scenario.layer1]) = true) as H6
    by (vm_compute; reflexivity).
  exact (conj H1 (conj H2 (conj H3 (conj eq_refl (conj eq_refl (conj eq_refl
    (conj eq_refl (conj H4 (conj H5 (conj H6
      (AddOCI_fresh_succeeds LayoutScenario.layout (Scenario.image "m1" "c1")
         "app:v1" LayoutScenario.store0 freshIndex _ _ _ _
         H1 H2 H3 eq_refl eq_refl eq_refl eq_refl H4 H5 H6))))))))))).
Defined.

(** ** Flushing and ingesting again *)

Section Flushing.
Context `{ord : RangeOrder}.

Lemma Flush_run (l : Layout.t) (s : St) :
  Layout.Flush l s
  = Ret None
      (mkSt (removeAll (removeAll (removeAll (disk s)
                (storeDir (Layout.Root l) ++ ["blobs"]))
                (storeDir (Layout.Root l) ++ ["index.json"]))
                (storeDir (Layout.Root l) ++ ["oci-layout"]))
         (log s ++ [EvRemoveAll (storeDir (Layout.Root l) ++ ["blobs"]);
                    EvRemoveAll (storeDir (Layout.Root l) ++ ["index.json"]);
                    EvRemoveAll (storeDir (Layout.Root l) ++ ["oci-layout"])])
         (root s) (index s) (nameMap s)).
Proof.
  unfold Layout.Flush. rewrite !filepath_Join_under by done.
  unfold os_RemoveAll, bind, emit, modify, ret. simpl.
  by rewrite <- !app_assoc.
Qed.

Lemma Flush_keeps_short (l : Layout.t) (s : St) (q : Path) :
  length q <= length (storeDir (Layout.Root l)) ->
  nodeAt (disk (final (Layout.Flush l s))) q = nodeAt (disk s) q.
Proof.
  intros Hlen. rewrite Flush_run. simpl. destruct q as [|c q]; [done|].
  simpl. rewrite !removeAll_lookup.
  repeat case_decide; try done;
    match goal with
    | H : _ `prefix_of` _ |- _ =>
        apply prefix_length in H; rewrite length_app in H; simpl in *; lia
    end.
Qed.

Lemma Flush_removes_under (l : Layout.t) (s : St) (q : Path) (name : string) :
  name = "blobs" \/ name = "index.json" ->
  (storeDir (Layout.Root l) ++ [name]) `prefix_of` q ->
  disk (final (Layout.Flush l s)) !! q = None.
Proof.
  intros Hname Hpre. rewrite Flush_run. simpl. rewrite !removeAll_lookup.
  destruct Hname as [-> | ->]; repeat case_decide; done.
Qed.

(** X18: after [Flush] the blobs and the index document are gone and the
    store is ready for ingestion again; the name map is what it was. *)
Theorem Flush_resets_store (l : Layout.t) (s : St) :
  Layout.Root l = root s -> storeReady s = true ->
  storeDirReachable s = true ->
  let s' := final (Layout.Flush l s) in
  storeReady s' = true
  /\ (forall oci, artifactReady s oci = true -> artifactReady s' oci = true)
  /\ (forall data, absent s' (blobPathOf (root s) data) = true)
  /\ (forall layer, layerReady s layer = true ->
        absent s' (layerPath (root s) layer) = true)
  /\ disk s' !! indexPath s = None
  /\ nameMap s' = nameMap s.
Proof.
  intros Hroot Hs Hreach. cbv zeta.
  unfold storeReady in Hs. apply andb_true_iff in Hs as [Hw Hu].
  assert (root (final (Layout.Flush l s)) = root s) as Hr
    by (by rewrite Flush_run).
  assert (forall alg, blobsWritable s alg = true ->
            blobsWritable (final (Layout.Flush l s)) alg = true) as Hwr.
  { intros alg H. unfold blobsWritable in *. rewrite Hr.
    apply andb_true_iff in H as [H _]. apply andb_true_iff in H as [H _].
    rewrite (Flush_keeps_short l s) by (by rewrite Hroot). rewrite H. simpl.
    rewrite !nodeAt_lookup by (by destruct (storeDir (root s))).
    rewrite (Flush_removes_under l s _ "blobs"); [|by left|by rewrite Hroot].
    rewrite (Flush_removes_under l s _ "blobs"); [done|by left|].
    rewrite Hroot. by apply prefix_app, prefix_cons, prefix_nil. }
  assert (disk (final (Layout.Flush l s)) !! indexPath s = None) as Hidx.
  { apply (Flush_removes_under l s _ "index.json"); [by right|].
    by rewrite indexPath_eq, Hroot. }
  split; [|split; [|split; [|split; [|split]]]].
  - unfold storeReady. rewrite (Hwr _ Hw). cbn [andb].
    unfold indexUsable.
    assert (indexPath (final (Layout.Flush l s)) = indexPath s) as ->
      by (unfold indexPath; by rewrite Hr).
    rewrite (nodeAt_lookup _ (indexPath s)) by apply indexPath_nonempty.
    unfold Path in *. rewrite Hidx.
    rewrite indexPath_eq, parent_snoc.
    rewrite (Flush_keeps_short l s) by (by rewrite Hroot).
    unfold blobsWritable in Hw.
    apply andb_true_iff in Hw as [Hw _]. apply andb_true_iff in Hw as [Hw _].
    apply andb_true_iff in Hw as [_ Hw].
    destruct (nodeAt (disk s) (storeDir (root s))) as [[|c]|]; try done.
    unfold storeDirReachable in Hreach. rewrite <- indexPath_eq.
    etrans; [|exact Hreach]. f_equal. unfold missingError.
    rewrite (existsb_eq_in _ (fun q => isFile (nodeAt (disk s) q))); [done|].
    intros q Hq. unfold ancestors in Hq. apply in_map_iff in Hq as (n & <- & Hn).
    apply in_seq in Hn. simpl. rewrite (Flush_keeps_short l s); [done|].
    rewrite length_take, Hroot.
    assert (length (indexPath s) = S (length (storeDir (root s)))) as Hl
      by (rewrite indexPath_eq, length_app; simpl; lia).
    lia.
  - intros oci. unfold artifactReady.
    destruct (artifact.Layers oci) as [layers|]; [|done].
    destruct (artifact.RawConfig oci); [|done].
    destruct (artifact.Manifest oci) as [m|]; [|done].
    destruct (v1.Marshal m); [|done].
    intros H. apply forallb_forall. intros layer Hin.
    pose proof (proj1 (forallb_forall _ _) H layer Hin) as Hl.
    unfold layerReady in *. destruct (v1.Digest layer) as [h|]; [|done].
    destruct (v1.Compressed layer); [|done].
    apply andb_true_iff in Hl as [Hl H3]. rewrite Hl. simpl. by apply Hwr.
  - intros data. unfold absent.
    rewrite (Flush_removes_under l s _ "blobs"); [done|by left|].
    rewrite blobPathOf_eq, Hroot. by apply prefix_app, prefix_cons, prefix_nil.
  - intros layer Hl. unfold absent, layerPath. unfold layerReady in Hl.
    destruct (v1.Digest layer) as [h|]; [|done].
    rewrite (Flush_removes_under l s _ "blobs"); [done|by left|].
    rewrite Hroot. by apply prefix_app, prefix_cons, prefix_nil.
  - exact Hidx.
  - by rewrite Flush_run.
Qed.
End Flushing.

Lemma Flush_resets_store_witness :
  let l := LayoutScenario.layout in
  let s := LayoutScenario.ingested in
  Layout.Root l = root s /\ storeReady s = true /\ storeDirReachable s = true
  /\ (let s' := final (Layout.Flush l s) in
      storeReady s' = true
      /\ (forall oci, artifactReady s oci = true -> artifactReady s' oci = true)
      /\ (forall data, absent s' (blobPathOf (root s) data) = true)
      /\ (forall layer, layerReady s layer = true ->
            absent s' (layerPath (root s) layer) = true)
      /\ disk s' !! indexPath s = None
      /\ nameMap s' = nameMap s).
Proof.
  cbv zeta.
  assert (Layout.Root LayoutScenario.layout = root LayoutScenario.ingested) as H1
    by (vm_compute; reflexivity).
  assert (storeReady LayoutScenario.ingested = true) as H2
    by (vm_compute; reflexivity).
  assert (storeDirReachable LayoutScenario.ingested = true) as H3
    by (vm_compute; reflexivity).
  exact (conj H1 (conj H2 (conj H3
    (Flush_resets_store LayoutScenario.layout LayoutScenario.ingested H1 H2 H3)))).
Defined.

Lemma Layout_writeBytes_outcome_witness :
  let l := LayoutScenario.layout in
  let s := LayoutScenario.ingested in
  let data := Scenario.bytes "m1" in
  let dir := blobDir (Layout.Root l) "sha256" in
  let bp := blobPathOf (Layout.Root l) data in
  nodeAt (disk s) dir = Some Dir /\ is_Some (nodeAt (disk s) bp)
  /\ Layout.writeBytes l data s
     = Ret (Some ErrInvalid) (withLog (log s ++ [EvMkdirAll dir; EvStat bp]) s).
Proof.
  cbv zeta.
  assert (nodeAt (disk LayoutScenario.ingested)
            (blobDir (Layout.Root LayoutScenario.layout) "sha256") = Some Dir)
    as H1 by (vm_compute; reflexivity).
  assert (is_Some (nodeAt (disk LayoutScenario.ingested)
            (blobPathOf (Layout.Root LayoutScenario.layout) (Scenario.bytes "m1"))))
    as H2 by (vm_compute; eexists; reflexivity).
  pose proof (Layout_writeBytes_outcome LayoutScenario.layout
                (Scenario.bytes "m1") LayoutScenario.ingested) as H.
  cbv zeta in H. destruct H as [_ H].
  exact (conj H1 (conj H2 (H H1 H2))).
Defined.

(** ** Ingestion when the index cannot be decoded *)

Section Undecodable.
Context `{ord : RangeOrder}.

(** X19: when the index document cannot be decoded, [Add] returns the
    error of the decoder after it has written the blobs: the blobs stay,
    the document is as it was, and the name map holds the reference. *)
Theorem Add_undecodable_index
    (oci : artifact.OCI) (ref : string) (s : St) (b : list byte)
    (m : v1.Manifest) (mdata : list byte) :
  blobsWritable s "sha256" = true -> artifactReady s oci = true ->
  artifact.Manifest oci = Ok m -> v1.Marshal m = Ok mdata ->
  disk s !! indexPath s = Some (File (Raw b)) ->
  let o := OCI.Add oci ref s in
  returned o = Some (ocispec.zero, Some ErrSyntax)
  /\ artifactStored (final o) oci
  /\ disk (final o) !! indexPath s = Some (File (Raw b))
  /\ nameMap (final o) = <[ref := rootDescriptor m mdata ref]> (nameMap s).
Proof.
  intros Hw Ha EM EJ Hidx. cbv zeta.
  destruct (Add_blobs_ready oci ref s Hw Ha)
    as (layers & cdata & m' & mdata' & s4 & EL & EC & EM' & EJ' & Hadd & Hg & Hl & Hc & Hm).
  rewrite EM in EM'. injection EM' as <-. rewrite EJ in EJ'. injection EJ' as <-.
  pose proof Hg as (Hr & _ & Hnm & Hsub & _).
  assert (indexPath s4 = indexPath s) as Hip by (unfold indexPath; by rewrite Hr).
  assert (disk s4 !! indexPath s = Some (File (Raw b))) as Hidx4
    by (by rewrite (grows_indexPath _ _ Hg)).
  rewrite Hadd. unfold Add_register.
  rewrite (bind_Ret _ _ _ _ _ (nameMap_Store_eq _ _ _)).
  unfold bind. rewrite LoadIndex_eq. cbv zeta.
  change (indexPath (mkSt _ _ _ _ _)) with (indexPath s4). rewrite Hip.
  rewrite nodeAt_lookup by apply indexPath_nonempty. simpl.
  unfold Path in *. rewrite Hidx4. simpl.
  split; [done|]. split; [|split; [done|by rewrite Hnm]].
  unfold artifactStored. rewrite EL, EC, EM, EJ. simpl. by rewrite Hr.
Qed.
End Undecodable.

Lemma Add_undecodable_index_witness :
  let s := CorruptScenario.store0 in
  let oci := Scenario.image "m1" "c1" in
  let m := v1.mkManifest ocispec.MediaTypeImageManifest (Ok (Scenario.bytes "m1")) in
  let mdata := Scenario.bytes "m1" in
  let o := OCI.Add oci "app:v1" s in
  blobsWritable s "sha256" = true /\ artifactReady s oci = true
  /\ artifact.Manifest oci = Ok m /\ v1.Marshal m = Ok mdata
  /\ disk s !! indexPath s = Some (File (Raw (Scenario.bytes "{")))
  /\ returned o = Some (ocispec.zero, Some ErrSyntax)
  /\ artifactStored (final o) oci
  /\ disk (final o) !! indexPath s = Some (File (Raw (Scenario.bytes "{")))
  /\ nameMap (final o) = <[ "app:v1" := rootDescriptor m mdata "app:v1" ]> (nameMap s).
Proof.
  cbv zeta.
  assert (blobsWritable CorruptScenario.store0 "sha256" = true) as H1
    by (vm_compute; reflexivity).
  assert (artifactReady CorruptScenario.store0 (Scenario.image "m1" "c1") = true)
    as H2 by (vm_compute; reflexivity).
  assert (disk CorruptScenario.store0 !! indexPath CorruptScenario.store0
          = Some (File (Raw (Scenario.bytes "{")))) as H3
    by (vm_compute; reflexivity).
  exact (conj H1 (conj H2 (conj eq_refl (conj eq_refl (conj H3
    (Add_undecodable_index (Scenario.image "m1" "c1") "app:v1"
       CorruptScenario.store0 _ _ _ H1 H2 eq_refl eq_refl H3)))))).
Defined.
